(** * PluginBrowser: the plugin lifecycle manager of [plugin_manager_module.py]

    A shallow embedding of the manifest fetcher, the installed-set scanner
    and the four lifecycle operations (install, remove, enable, disable),
    together with the parts of [pathlib], [zipfile], [shutil] and [requests]
    they rely on, and the properties of the specification stated over it.

    Conventions of the model:
    - Python [str] is [string]; a path is a [PurePath] (POSIX flavour);
    - the file system is a tree of directories and regular files (no
      symbolic links, no permissions); operations fail with [OSError]
      exactly where the tree forces it (missing parent, file in the way);
    - the network is a function from URLs to what [requests.get] produces;
    - every operation is a computation in a state-and-exception monad over
      the file system, the log and the trace of status-callback calls. *)

From Stdlib Require Import ZArith Ascii String DecimalString.
From stdpp Require Import base option list gmap strings.

Set Warnings "-register-all".

(* ===================================================================== *)
(** ** Python string operations *)
(* ===================================================================== *)

(** [s[:n]] for [0 <= n]. *)
Fixpoint str_take (n : nat) (s : string) : string :=
  match n, s with
  | S n', String c r => String c (str_take n' r)
  | _, _ => ""
  end.

(** [s[n:]] for [0 <= n]. *)
Fixpoint str_drop (n : nat) (s : string) : string :=
  match n, s with
  | S n', String _ r => str_drop n' r
  | _, _ => s
  end.

(** [s.startswith(p)]. *)
Fixpoint startswith (s p : string) : bool :=
  match p, s with
  | "", _ => true
  | String a p', String b s' => if Ascii.eqb a b then startswith s' p' else false
  | String _ _, "" => false
  end.

(** [s.endswith(p)]: the last [len(p)] characters of [s] are [p]. *)
Definition endswith (s p : string) : bool :=
  (String.length p <=? String.length s)%nat
  && String.eqb (str_drop (String.length s - String.length p) s) p.

(** [s[:-k]] for [0 < k]: everything but the last [k] characters. *)
Definition str_chop (k : nat) (s : string) : string :=
  str_take (String.length s - k) s.

(** [s.rfind(c)] for a one-character [c]: [None] stands for [-1]. *)
Fixpoint rfind (c : ascii) (s : string) : option nat :=
  match s with
  | "" => None
  | String a r =>
      match rfind c r with
      | Some i => Some (S i)
      | None => if Ascii.eqb a c then Some 0%nat else None
      end
  end.

(** [c in s] for a one-character [c]. *)
Fixpoint str_mem (c : ascii) (s : string) : bool :=
  match s with
  | "" => false
  | String a r => Ascii.eqb a c || str_mem c r
  end.

(** [s.split(sep)] for a one-character [sep]; never the empty list. *)
Fixpoint split (sep : ascii) (s : string) : list string :=
  match s with
  | "" => [""]
  | String c r =>
      if Ascii.eqb c sep then "" :: split sep r
      else match split sep r with
           | h :: t => String c h :: t
           | [] => [String c ""]
           end
  end.

(** [s.split(sep, 1)[0]]: the text before the first [sep]. *)
Fixpoint split_head (sep : ascii) (s : string) : string :=
  match s with
  | "" => ""
  | String c r => if Ascii.eqb c sep then "" else String c (split_head sep r)
  end.

(** [s.lstrip(c)] and the number of characters it removes. *)
Fixpoint lstrip (c : ascii) (s : string) : string :=
  match s with
  | String a r => if Ascii.eqb a c then lstrip c r else s
  | "" => ""
  end.

(** [s.rstrip(c)]. *)
Fixpoint rstrip (c : ascii) (s : string) : string :=
  match s with
  | "" => ""
  | String a r =>
      match rstrip c r with
      | "" => if Ascii.eqb a c then "" else String a ""
      | r' => String a r'
      end
  end.

(** [p in s] for strings: [p] occurs as a substring of [s]. *)
Fixpoint str_contains (s p : string) : bool :=
  startswith s p ||
  match s with
  | "" => false
  | String _ r => str_contains r p
  end.

(** [str(n)] for a non-negative integer. *)
Definition str_of_nat (n : nat) : string :=
  NilEmpty.string_of_uint (Nat.to_uint n).

(* ===================================================================== *)
(** ** pathlib.PurePosixPath *)
(* ===================================================================== *)

(** A parsed path: the root (["/"], ["//"] or [""] when relative) and the
    components below it. *)
Record PurePath := mkPath { p_root : string; p_parts : list string }.

Definition sep : ascii := "/"%char.
Definition dot : ascii := "."%char.

(** A component that parsing keeps: neither empty nor ["."]. *)
Definition kept_part (x : string) : bool :=
  negb (String.eqb x "") && negb (String.eqb x ".").

(** [splitroot] of the POSIX flavour: exactly two leading slashes give the
    root ["//"], any other positive number the root ["/"]. *)
Definition splitroot (part : string) : string * string :=
  if startswith part "/" then
    let stripped := lstrip sep part in
    if (String.length part - String.length stripped =? 2)%nat
    then ("//", stripped) else ("/", stripped)
  else ("", part).

(** [parse_parts] on one argument. *)
Definition parse_part (part : string) : string * list string :=
  let '(root, rel) := splitroot part in
  (root, filter (λ x, kept_part x = true) (split sep rel)).

(** [self / key]: an anchored [key] replaces [self]. *)
Definition joinpath (self : PurePath) (key : string) : PurePath :=
  let '(root2, parts2) := parse_part key in
  if String.eqb root2 "" then mkPath (p_root self) (p_parts self ++ parts2)
  else mkPath root2 parts2.

(** [self.name]: the final component, [""] when there is none. *)
Definition path_name (self : PurePath) : string :=
  List.last (p_parts self) "".

(** [self.suffix]: from the last dot of the name on, when that dot is
    neither the first nor the last character. *)
Definition path_suffix (self : PurePath) : string :=
  let n := path_name self in
  match rfind dot n with
  | Some i => if (0 <? i)%nat && (i <? String.length n - 1)%nat
              then str_drop i n else ""
  | None => ""
  end.

(** [self.with_suffix(suffix)]; [None] is the [ValueError] it raises. *)
Definition with_suffix (self : PurePath) (suf : string) : option PurePath :=
  if str_mem sep suf then None
  else if (negb (String.eqb suf "") && negb (startswith suf "."))
          || String.eqb suf "." then None
  else
    let n := path_name self in
    if String.eqb n "" then None
    else
      let old_suffix := path_suffix self in
      let n' := if String.eqb old_suffix "" then n +:+ suf
                else str_chop (String.length old_suffix) n +:+ suf in
      Some (mkPath (p_root self) (removelast (p_parts self) ++ [n'])).

(** [str(self)]. *)
Definition path_str (self : PurePath) : string :=
  match p_parts self with
  | [] => if String.eqb (p_root self) "" then "." else p_root self
  | _ => p_root self +:+ String.concat "/" (p_parts self)
  end.

(** The disabled-suffix of the host's folder convention. *)
Definition DISABLED : string := ".disabled".

(** The sibling that [install_plugin] probes:
    [install_path.with_suffix(install_path.suffix + ".disabled")]. *)
Definition install_disabled_sibling (plugin_dir : PurePath) (plugin_id : string)
  : option PurePath :=
  let install_path := joinpath plugin_dir plugin_id in
  with_suffix install_path (path_suffix install_path +:+ DISABLED).

(** The path [enable_plugin] and [disable_plugin] build, and that the
    intended rule names: [plugin_dir / f"{plugin_id}.disabled"]. *)
Definition disabled_path_of (plugin_dir : PurePath) (plugin_id : string)
  : PurePath :=
  joinpath plugin_dir (plugin_id +:+ DISABLED).

(* ===================================================================== *)
(** ** Exceptions *)
(* ===================================================================== *)

(** The error numbers the file-system model produces. *)
Inductive errno := ENOENT | ENOTDIR | EEXIST | EISDIR | ENOTEMPTY | EINVAL | EBUSY.

(** The exception classes the handlers of the module tell apart; every one
    of them is a subclass of [Exception].  [OtherError] stands for any
    class not named by a handler ([TypeError], [AttributeError],
    [RuntimeError], ...). *)
Inductive exn :=
  | RequestException (msg : string)
  | JSONDecodeError (msg : string)
  | BadZipFile (msg : string)
  | OSError (e : errno)
  | ValueError (msg : string)
  | OtherError (cls msg : string).

Definition errno_str (e : errno) : string :=
  match e with
  | ENOENT => "No such file or directory"
  | ENOTDIR => "Not a directory"
  | EEXIST => "File exists"
  | EISDIR => "Is a directory"
  | ENOTEMPTY => "Directory not empty"
  | EINVAL => "Invalid argument"
  | EBUSY => "Device or resource busy"
  end.

(** [str(e)]. *)
Definition exn_str (e : exn) : string :=
  match e with
  | RequestException m | JSONDecodeError m | BadZipFile m
  | ValueError m | OtherError _ m => m
  | OSError e => errno_str e
  end.

(* ===================================================================== *)
(** ** The file system *)
(* ===================================================================== *)

(** A regular file with its bytes, or a directory with its entries. *)
Inductive node :=
  | File (data : string)
  | Dir (children : gmap string node).

Definition is_Dir (n : node) : bool :=
  match n with Dir _ => true | File _ => false end.

(** The node at a path free of [".."], from the directory [n] down. *)
Fixpoint tree_lookup (p : list string) (n : node) : option node :=
  match p with
  | [] => Some n
  | c :: r =>
      match n with
      | Dir ch => match ch !! c with Some m => tree_lookup r m | None => None end
      | File _ => None
      end
  end.

(** Change (create, replace, delete) the entry at a path free of [".."];
    nothing happens when the directory holding it is missing. *)
Fixpoint tree_alter (f : option node → option node) (p : list string)
    (n : node) : node :=
  match p, n with
  | [], _ => n
  | [c], Dir ch => Dir (partial_alter f c ch)
  | c :: r, Dir ch =>
      match ch !! c with
      | Some m => Dir (<[c := tree_alter f r m]> ch)
      | None => n
      end
  | _ :: _, File _ => n
  end.

(** Path resolution: walk the components from [cur], every directory on
    the way has to exist; [".."] steps to the parent (the root is its own
    parent).  The result is the [".."]-free location the path denotes,
    whose last component may or may not exist. *)
Fixpoint resolve (fs : node) (cur : list string) (p : list string)
  : errno + list string :=
  match p with
  | [] => inr cur
  | c :: r =>
      match tree_lookup cur fs with
      | Some (Dir _) =>
          if String.eqb c ".." then resolve fs (removelast cur) r
          else resolve fs (cur ++ [c]) r
      | Some (File _) => inl ENOTDIR
      | None => inl ENOENT
      end
  end.

Definition locate (fs : node) (p : list string) : errno + list string :=
  resolve fs [] p.

(** [os.stat]. *)
Definition stat (fs : node) (p : list string) : errno + node :=
  match locate fs p with
  | inl e => inl e
  | inr q => match tree_lookup q fs with Some n => inr n | None => inl ENOENT end
  end.

(** [Path.exists], [Path.is_dir], [Path.is_file]. *)
Definition path_exists (fs : node) (p : list string) : bool :=
  match stat fs p with inr _ => true | inl _ => false end.

Definition is_dir (fs : node) (p : list string) : bool :=
  match stat fs p with inr (Dir _) => true | _ => false end.

Definition is_file (fs : node) (p : list string) : bool :=
  match stat fs p with inr (File _) => true | _ => false end.

(** [os.mkdir]. *)
Definition os_mkdir (fs : node) (p : list string) : errno + node :=
  match locate fs p with
  | inl e => inl e
  | inr q =>
      match tree_lookup q fs with
      | Some _ => inl EEXIST
      | None => inr (tree_alter (λ _, Some (Dir ∅)) q fs)
      end
  end.

(** [Path.mkdir(parents=False, exist_ok=...)]: one [os.mkdir]; an
    [OSError] other than [FileNotFoundError] is swallowed when [exist_ok]
    and the path is a directory. *)
Definition mkdir_once (exist_ok : bool) (fs : node) (p : list string)
  : errno + node :=
  match os_mkdir fs p with
  | inr fs' => inr fs'
  | inl ENOENT => inl ENOENT
  | inl e => if exist_ok && is_dir fs p then inr fs else inl e
  end.

(** [Path.mkdir(parents=True, exist_ok=...)], by recursion on the reversed
    path [rp]: on [FileNotFoundError] make the parent (with
    [parents=True, exist_ok=True]) and retry once without [parents]. *)
Fixpoint mkdir_parents_rev (exist_ok : bool) (rp : list string) (fs : node)
  : errno + node :=
  match os_mkdir fs (rev rp) with
  | inr fs' => inr fs'
  | inl ENOENT =>
      match rp with
      | [] => inl ENOENT
      | _ :: rp' =>
          match mkdir_parents_rev true rp' fs with
          | inl e => inl e
          | inr fs1 => mkdir_once exist_ok fs1 (rev rp)
          end
      end
  | inl e => if exist_ok && is_dir fs (rev rp) then inr fs else inl e
  end.

Definition mkdir_parents (exist_ok : bool) (fs : node) (p : list string)
  : errno + node :=
  mkdir_parents_rev exist_ok (rev p) fs.

(** [os.makedirs(name)] with [exist_ok=False], by recursion on the reversed
    path: make the head when it does not exist (a [FileExistsError] from
    that is passed over), then [os.mkdir] the path itself. *)
Fixpoint makedirs_rev (rp : list string) (fs : node) : errno + node :=
  match rp with
  | [] => os_mkdir fs []
  | _ :: rhead =>
      let made_head :=
        if path_exists fs (rev rhead) then inr fs
        else match makedirs_rev rhead fs with
             | inl EEXIST => inr fs
             | other => other
             end in
      match made_head with
      | inl e => inl e
      | inr fs1 => os_mkdir fs1 (rev rp)
      end
  end.

Definition makedirs (fs : node) (p : list string) : errno + node :=
  makedirs_rev (rev p) fs.

(** [open(p, "wb")]: create or truncate the regular file at [p]. *)
Definition open_wb (fs : node) (p : list string) : errno + node :=
  match locate fs p with
  | inl e => inl e
  | inr q =>
      match tree_lookup q fs with
      | Some (Dir _) => inl EISDIR
      | _ => inr (tree_alter (λ _, Some (File "")) q fs)
      end
  end.

(** [f.write(chunk)] on the file opened at [p]. *)
Definition file_write (fs : node) (p : list string) (chunk : string)
  : errno + node :=
  match locate fs p with
  | inl e => inl e
  | inr q =>
      match tree_lookup q fs with
      | Some (File d) => inr (tree_alter (λ _, Some (File (d +:+ chunk))) q fs)
      | Some (Dir _) => inl EISDIR
      | None => inl ENOENT
      end
  end.

(** Reading a whole file, as [zipfile.ZipFile(p, "r")] does. *)
Definition read_file (fs : node) (p : list string) : errno + string :=
  match stat fs p with
  | inl e => inl e
  | inr (File d) => inr d
  | inr (Dir _) => inl EISDIR
  end.

(** [Path.unlink]. *)
Definition unlink (fs : node) (p : list string) : errno + node :=
  match locate fs p with
  | inl e => inl e
  | inr q =>
      match tree_lookup q fs with
      | Some (File _) => inr (tree_alter (λ _, None) q fs)
      | Some (Dir _) => inl EISDIR
      | None => inl ENOENT
      end
  end.

(** Does the path end in [".."], or is it the root?  Such a path names a
    directory that can be neither removed nor renamed. *)
Definition pinned (p : list string) : bool :=
  match List.last p ".." with s => String.eqb s ".." end.

(** [shutil.rmtree(p)]: the new tree and the [OSError] raised, if any.
    On a pinned directory the entries go and the final [rmdir] fails. *)
Definition rmtree (fs : node) (p : list string) : node * option errno :=
  match locate fs p with
  | inl e => (fs, Some e)
  | inr q =>
      match tree_lookup q fs with
      | None => (fs, Some ENOENT)
      | Some (File _) => (fs, Some ENOTDIR)
      | Some (Dir _) =>
          if pinned p then
            (match q with
             | [] => Dir ∅
             | _ => tree_alter (λ _, Some (Dir ∅)) q fs
             end, Some EBUSY)
          else (tree_alter (λ _, None) q fs, None)
      end
  end.

(** Is [p] a prefix of [q]? *)
Fixpoint is_prefix (p q : list string) : bool :=
  match p, q with
  | [], _ => true
  | a :: p', b :: q' => String.eqb a b && is_prefix p' q'
  | _ :: _, [] => false
  end.

(** [os.rename(src, dst)] on one file system. *)
Definition os_rename (fs : node) (src dst : list string) : errno + node :=
  match locate fs src with
  | inl e => inl e
  | inr qs =>
      match tree_lookup qs fs with
      | None => inl ENOENT
      | Some ns =>
          match locate fs dst with
          | inl e => inl e
          | inr qd =>
              if pinned src || pinned dst then inl EBUSY
              else if is_prefix qs qd && is_prefix qd qs then inr fs
              else if is_prefix qs qd then inl EINVAL
              else if is_prefix qd qs then
                inl (if is_Dir ns then ENOTEMPTY else EISDIR)
              else
                let moved := tree_alter (λ _, Some ns) qd
                               (tree_alter (λ _, None) qs fs) in
                match tree_lookup qd fs, ns with
                | None, _ => inr moved
                | Some (File _), File _ => inr moved
                | Some (File _), Dir _ => inl ENOTDIR
                | Some (Dir _), File _ => inl EISDIR
                | Some (Dir ch), Dir _ =>
                    if decide (ch = ∅) then inr moved else inl ENOTEMPTY
                end
          end
      end
  end.

(** [shutil.move(src, dst)]: into [dst] when that is a directory, else a
    rename; when the rename fails, the copying fallback: a directory is
    re-created at the destination ([copytree], which makes missing
    parents) and removed at the source, a file is copied and unlinked. *)
Definition shutil_move (fs : node) (src dst : list string) : errno + node :=
  let same :=
    match locate fs src, locate fs dst with
    | inr qs, inr qd => is_prefix qs qd && is_prefix qd qs
    | _, _ => false
    end in
  if is_dir fs dst && same then os_rename fs src dst
  else
    let real_dst := if is_dir fs dst then (dst ++ [List.last src ""])%list else dst in
    if is_dir fs dst && path_exists fs real_dst then inl EEXIST
    else
      match os_rename fs src real_dst with
      | inr fs' => inr fs'
      | inl e =>
          match stat fs src, locate fs src with
          | inr (Dir ch), inr qs =>
              let inside :=
                match locate fs dst with
                | inr qd => is_prefix qs qd
                | inl _ => false
                end in
              if inside then inl EINVAL
              else
                match makedirs fs real_dst with
                | inl e' => inl e'
                | inr fs1 =>
                    match locate fs1 real_dst with
                    | inl e' => inl e'
                    | inr qd =>
                        inr (tree_alter (λ _, None) qs
                               (tree_alter (λ _, Some (Dir ch)) qd fs1))
                    end
                end
          | inr (File d), _ =>
              match open_wb fs real_dst with
              | inl e' => inl e'
              | inr fs1 =>
                  match file_write fs1 real_dst d with
                  | inl e' => inl e'
                  | inr fs2 => unlink fs2 src
                  end
              end
          | inl e', _ => inl e'
          | _, inl e' => inl e'
          end
      end.

(* ===================================================================== *)
(** ** JSON values, HTTP responses, ZIP archives *)
(* ===================================================================== *)

(** What [response.json()] decodes to. *)
Inductive json :=
  | JNull
  | JBool (b : bool)
  | JNum (z : Z)
  | JStr (s : string)
  | JList (items : list json)
  | JObj (fields : gmap string json).

(** What [requests.get] hands back once a response has arrived:
    [r_json] is the decoded body ([None]: the body is not JSON), the body
    streams as [r_chunks], and [r_stream_error] is the error that breaks
    the stream after them, if any. *)
Record Response := mkResponse {
  status_code : Z;
  r_json : option json;
  r_chunks : list string;
  r_stream_error : option string
}.

(** A member of an archive: what reading it yields. *)
Inductive payload :=
  | Stored (data : string)          (* reads back intact *)
  | BadCRC (data : string)          (* reads, then fails the CRC check *)
  | Encrypted.                      (* needs a password *)

Record ZipInfo := mkZipInfo { filename : string; content : payload }.

(** The host and the outside world the module runs against:
    [config.plugin_dir_path], the network behind [requests.get] ([inl] is
    the [RequestException] raised when no response arrives), the archive
    reader behind [zipfile.ZipFile] ([None]: not a ZIP file) and Python's
    [str()] on a decoded JSON value. *)
Record env := mkEnv {
  plugin_dir_path : PurePath;
  http_get : string → string + Response;
  unzip : string → option (list ZipInfo);
  py_str : json → string
}.

(* ===================================================================== *)
(** ** The monad of the operations *)
(* ===================================================================== *)

Inductive level := DEBUG | INFO | WARNING | ERROR.

(** The state an operation runs in: the file system, the records written
    to [logger], and the calls made to the status callback so far. *)
Record world := mkWorld {
  w_fs : node;
  w_log : list (level * string);
  w_calls : list (string * option string)
}.

Inductive outcome (A : Type) :=
  | Ret (a : A)
  | Raise (e : exn).
Arguments Ret {A} a.
Arguments Raise {A} e.

Definition M (A : Type) : Type := world → outcome A * world.

Definition ret {A} (a : A) : M A := λ w, (Ret a, w).
Definition raise {A} (e : exn) : M A := λ w, (Raise e, w).
Definition bind {A B} (m : M A) (k : A → M B) : M B :=
  λ w, match m w with
       | (Ret a, w1) => k a w1
       | (Raise e, w1) => (Raise e, w1)
       end.

#[export] Instance M_ret : MRet M := @ret.
#[export] Instance M_bind : MBind M := λ A B k m, bind m k.

(** [try: m  except Exception as e: h e]. *)
Definition try_except {A} (m : M A) (h : exn → M A) : M A :=
  λ w, match m w with
       | (Ret a, w1) => (Ret a, w1)
       | (Raise e, w1) => h e w1
       end.

(** [try: m  finally: fin]: [fin] runs either way, and what it raises
    replaces the outcome of [m]. *)
Definition try_finally {A} (m : M A) (fin : M unit) : M A :=
  λ w, match m w with
       | (r, w1) =>
           match fin w1 with
           | (Ret _, w2) => (r, w2)
           | (Raise e, w2) => (Raise e, w2)
           end
       end.

Definition get_fs : M node := λ w, (Ret (w_fs w), w).

Definition set_fs (fs : node) (w : world) : world :=
  mkWorld fs (w_log w) (w_calls w).

(** A file-system call: the new tree, or the [OSError] it raises. *)
Definition lift_fs (f : node → errno + node) : M unit :=
  λ w, match f (w_fs w) with
       | inr fs' => (Ret tt, set_fs fs' w)
       | inl e => (Raise (OSError e), w)
       end.

Definition lift_rmtree (p : list string) : M unit :=
  λ w, match rmtree (w_fs w) p with
       | (fs', None) => (Ret tt, set_fs fs' w)
       | (fs', Some e) => (Raise (OSError e), set_fs fs' w)
       end.

(** [logger.debug/info/warning/error(msg)]. *)
Definition logger (lv : level) (msg : string) : M unit :=
  λ w, (Ret tt, mkWorld (w_fs w) (w_log w ++ [(lv, msg)]) (w_calls w)).

(** [for x in l: body x]. *)
Fixpoint for_each {A} (l : list A) (body : A → M unit) : M unit :=
  match l with
  | [] => ret tt
  | x :: rest => bind (body x) (λ _, for_each rest body)
  end.

(** A status callback: given the calls it has received so far, the
    message and its type, it returns ([None]) or raises ([Some e]). *)
Definition callback : Type :=
  list (string * option string) → string → option string → option exn.

(* ===================================================================== *)
(** ** requests and zipfile *)
(* ===================================================================== *)

(** [requests.get(url, timeout=REQUEST_TIMEOUT)]. *)
Definition requests_get (E : env) (url : string) : M Response :=
  match http_get E url with
  | inl msg => raise (RequestException msg)
  | inr r => ret r
  end.

(** [response.raise_for_status()]: [HTTPError], a [RequestException], for
    the status codes 400 to 599. *)
Definition raise_for_status (r : Response) : M unit :=
  if ((400 <=? status_code r) && (status_code r <? 600))%Z
  then raise (RequestException "HTTPError")
  else ret tt.

(** [response.json()]. *)
Definition response_json (r : Response) : M json :=
  match r_json r with
  | Some v => ret v
  | None => raise (JSONDecodeError "Expecting value")
  end.

(** The components [zipfile] drops from a member's name when extracting. *)
Definition valid_part (x : string) : bool :=
  negb (String.eqb x "") && negb (String.eqb x ".") && negb (String.eqb x "..").

(** [ZipFile._extract_member(member, targetpath)]. *)
Definition extract_member (target : list string) (m : ZipInfo) : M unit :=
  let arcname := filter (λ x, valid_part x = true) (split sep (filename m)) in
  let targetpath := (target ++ arcname)%list in
  let upperdirs := removelast targetpath in
  fs ← get_fs;
  (if negb (path_exists fs upperdirs)
   then lift_fs (λ fs, makedirs fs upperdirs) else ret tt);;
  if endswith (filename m) "/" then
    fs ← get_fs;
    if negb (is_dir fs targetpath)
    then lift_fs (λ fs, os_mkdir fs targetpath) else ret tt
  else
    match content m with
    | Encrypted =>
        raise (OtherError "RuntimeError"
                 "File is encrypted, password required for extraction")
    | Stored d =>
        lift_fs (λ fs, open_wb fs targetpath);;
        lift_fs (λ fs, file_write fs targetpath d)
    | BadCRC d =>
        lift_fs (λ fs, open_wb fs targetpath);;
        lift_fs (λ fs, file_write fs targetpath d);;
        raise (BadZipFile "Bad CRC-32 for file")
    end.

(** [zip_ref.extractall(path)]. *)
Definition extractall (members : list ZipInfo) (path : list string) : M unit :=
  for_each members (extract_member path).

(** [zipfile.ZipFile(path, "r")]: the members of the archive. *)
Definition ZipFile (E : env) (path : list string) : M (list ZipInfo) :=
  fs ← get_fs;
  match read_file fs path with
  | inl e => raise (OSError e)
  | inr data =>
      match unzip E data with
      | Some members => ret members
      | None => raise (BadZipFile "File is not a zip file")
      end
  end.

(* ===================================================================== *)
(** ** plugin_manager_module.py *)
(* ===================================================================== *)

(** [PluginInfo]: the fields of a manifest record the operations read. *)
Record PluginInfo := mkPluginInfo {
  pi_id : string;
  pi_name : string;
  pi_downloadUrl : string
}.

(** [InstalledPluginInfo]. *)
Record InstalledPluginInfo := mkInstalled {
  ip_name : string;
  ip_status : string;
  ip_path : PurePath
}.

(** [_status_update(callback, message, msg_type)]. *)
Definition _status_update (cb : option callback) (message : string)
    (msg_type : option string) : M unit :=
  match cb with
  | Some callback =>
      λ w,
        let w1 := mkWorld (w_fs w) (w_log w)
                    (w_calls w ++ [(message, msg_type)]) in
        match callback (w_calls w) message msg_type with
        | None => (Ret tt, w1)
        | Some e => logger ERROR ("Error in status callback: " +:+ exn_str e) w1
        end
  | None =>
      if decide (msg_type = Some "error") then logger ERROR message
      else if decide (msg_type = Some "warning") then logger WARNING message
      else logger INFO message
  end.

(** *** fetch_available_plugins *)

Definition REQUIRED_KEYS : list string :=
  ["id"; "name"; "version"; "author"; "description"; "downloadUrl"].

(** [key in plugin_entry]: keys of a dict, elements of a list, substrings
    of a string; [TypeError] on anything else. *)
Definition py_in (key : string) (entry : json) : M bool :=
  match entry with
  | JObj fields => ret (bool_decide (is_Some (fields !! key)))
  | JList items =>
      ret (existsb (λ x, match x with JStr s => String.eqb s key | _ => false end)
             items)
  | JStr s => ret (str_contains s key)
  | JNum _ => raise (OtherError "TypeError" "argument of type 'int' is not iterable")
  | JBool _ => raise (OtherError "TypeError" "argument of type 'bool' is not iterable")
  | JNull =>
      raise (OtherError "TypeError" "argument of type 'NoneType' is not iterable")
  end.

(** [all(key in plugin_entry for key in keys)]. *)
Fixpoint py_all_in (keys : list string) (entry : json) : M bool :=
  match keys with
  | [] => ret true
  | k :: rest =>
      b ← py_in k entry;
      if b : bool then py_all_in rest entry else ret false
  end.

(** [plugin_entry.setdefault(key, None)]; only a dict has the method. *)
Definition setdefault (key : string) (entry : json) : M json :=
  match entry with
  | JObj fields =>
      ret (JObj (match fields !! key with
                 | Some _ => fields
                 | None => <[key := JNull]> fields
                 end))
  | _ => raise (OtherError "AttributeError" "object has no attribute 'setdefault'")
  end.

(** [plugin_entry.get(key, default)]; only a dict has the method. *)
Definition dict_get (key : string) (default : json) (entry : json) : M json :=
  match entry with
  | JObj fields => ret (match fields !! key with Some v => v | None => default end)
  | _ => raise (OtherError "AttributeError" "object has no attribute 'get'")
  end.

(** The loop over [plugins_data], with [valid_plugins] as accumulator. *)
Fixpoint validate_entries (E : env) (plugins_data : list json)
    (valid_plugins : list json) : M (list json) :=
  match plugins_data with
  | [] => ret valid_plugins
  | plugin_entry :: rest =>
      ok ← py_all_in REQUIRED_KEYS plugin_entry;
      if ok : bool then
        e1 ← setdefault "edmcCompatibility" plugin_entry;
        e2 ← setdefault "repositoryUrl" e1;
        validate_entries E rest (valid_plugins ++ [e2])%list
      else
        v ← dict_get "id" (JStr "Unknown ID") plugin_entry;
        logger WARNING
          ("Skipping invalid plugin entry in manifest: " +:+ py_str E v);;
        validate_entries E rest valid_plugins
  end.

(** The [except] clauses of [fetch_available_plugins]. *)
Definition fetch_handlers (status_callback : option callback) (e : exn)
  : M unit :=
  match e with
  | RequestException _ =>
      _status_update status_callback
        ("Network error fetching plugin manifest: " +:+ exn_str e)
        (Some "error")
  | JSONDecodeError _ =>
      _status_update status_callback
        ("Error decoding plugin manifest JSON: " +:+ exn_str e)
        (Some "error")
  | _ =>
      _status_update status_callback
        ("An unexpected error occurred while fetching plugins: "
         +:+ exn_str e) (Some "error")
  end.

(** The body of its [try]. *)
Definition fetch_body (E : env) (manifest_url : string)
    (status_callback : option callback) : M (list json) :=
  response ← requests_get E manifest_url;
  raise_for_status response;;
  plugins_data ← response_json response;
  match plugins_data with
  | JList entries =>
      valid_plugins ← validate_entries E entries [];
      _status_update status_callback
        ("Successfully fetched " +:+ str_of_nat (length valid_plugins)
         +:+ " plugins.") (Some "info");;
      ret valid_plugins
  | _ =>
      _status_update status_callback "Plugin manifest is not a valid list."
        (Some "error");;
      ret []
  end.

Definition fetch_available_plugins (E : env) (manifest_url : string)
    (status_callback : option callback) : M (list json) :=
  if String.eqb manifest_url "" then
    _status_update status_callback "Plugin manifest URL is not configured."
      (Some "error");;
    ret []
  else
    _status_update status_callback
      ("Fetching plugin manifest from " +:+ manifest_url +:+ "...") (Some "info");;
    try_except (fetch_body E manifest_url status_callback)
      (λ e, fetch_handlers status_callback e;; ret []).

(** *** get_installed_plugins *)

(** The body of the loop over [plugin_dir.iterdir()] for one [item]. *)
Definition scan_item (plugin_dir : PurePath) (item_name : string)
    (installed_plugins : list InstalledPluginInfo)
  : M (list InstalledPluginInfo) :=
  let item := mkPath (p_root plugin_dir) (p_parts plugin_dir ++ [item_name]) in
  fs ← get_fs;
  if is_dir fs (p_parts item) then
    let '(name, status) :=
      if endswith item_name DISABLED
      then (str_chop (String.length DISABLED) item_name, "disabled")
      else (item_name, "enabled") in
    if is_file fs (p_parts (joinpath item "load.py")) then
      ret (installed_plugins ++ [mkInstalled name status item])%list
    else
      logger DEBUG ("Directory '" +:+ item_name +:+
                    "' in plugins folder does not contain a load.py, skipping.");;
      ret installed_plugins
  else ret installed_plugins.

Fixpoint scan_items (plugin_dir : PurePath) (items : list string)
    (installed_plugins : list InstalledPluginInfo)
  : M (list InstalledPluginInfo) :=
  match items with
  | [] => ret installed_plugins
  | item_name :: rest =>
      acc ← scan_item plugin_dir item_name installed_plugins;
      scan_items plugin_dir rest acc
  end.

(** [plugin_dir.iterdir()]: the names of the entries of the directory. *)
Definition iterdir (fs : node) (p : list string) : list string :=
  match stat fs p with
  | inr (Dir ch) => (map_to_list ch).*1
  | _ => []
  end.

Definition get_installed_plugins (E : env) : M (list InstalledPluginInfo) :=
  let plugin_dir := plugin_dir_path E in
  fs ← get_fs;
  if negb (is_dir fs (p_parts plugin_dir)) then
    logger WARNING ("Plugin directory not found: " +:+ path_str plugin_dir);;
    ret []
  else scan_items plugin_dir (iterdir fs (p_parts plugin_dir)) [].

(** *** install_plugin *)

(** [list(set(member.split('/', 1)[0] for member in zip_ref.namelist()))]. *)
Definition top_level_members (members : list ZipInfo) : list string :=
  elements (list_to_set (split_head sep ∘ filename <$> members) : gset string).

(** The test that selects the staging branch. *)
Definition single_wrapping_entry (members : list ZipInfo) (plugin_id : string)
  : bool :=
  match top_level_members members with
  | [t] => String.eqb (rstrip sep t) plugin_id
  | _ => false
  end.

(** The existence test that opens [install_plugin]; [with_suffix] may
    raise [ValueError]. *)
Definition install_conflict (install_path : PurePath) : M bool :=
  fs ← get_fs;
  if path_exists fs (p_parts install_path) then ret true
  else
    match with_suffix install_path (path_suffix install_path +:+ DISABLED) with
    | None => raise (ValueError "empty name")
    | Some sibling => ret (path_exists fs (p_parts sibling))
    end.

(** The download: [open(temp_zip_path, "wb")] and the loop over
    [response.iter_content]. *)
Definition download_to (response : Response) (temp_zip_path : list string)
  : M unit :=
  lift_fs (λ fs, open_wb fs temp_zip_path);;
  for_each (r_chunks response)
    (λ chunk, lift_fs (λ fs, file_write fs temp_zip_path chunk));;
  match r_stream_error response with
  | Some msg => raise (RequestException msg)
  | None => ret tt
  end.

(** The body of the [try] of [install_plugin]. *)
Definition install_body (E : env) (plugin_info : PluginInfo)
    (status_callback : option callback) : M bool :=
  let plugin_dir := plugin_dir_path E in
  let plugin_id := pi_id plugin_info in
  let install_path := joinpath plugin_dir plugin_id in
  let download_url := pi_downloadUrl plugin_info in
  let temp_zip_path := joinpath plugin_dir (plugin_id +:+ "_temp.zip") in
  _status_update status_callback
    ("Downloading " +:+ download_url +:+ "...") (Some "info");;
  response ← requests_get E download_url;
  raise_for_status response;;
  download_to response (p_parts temp_zip_path);;
  _status_update status_callback "Download complete." (Some "info");;
  _status_update status_callback
    ("Extracting to " +:+ path_str install_path +:+ "...") (Some "info");;
  zip_ref ← ZipFile E (p_parts temp_zip_path);
  (if single_wrapping_entry zip_ref plugin_id then
     let temp_extract_path :=
       joinpath plugin_dir (plugin_id +:+ "_temp_extract") in
     lift_fs (λ fs, mkdir_parents true fs (p_parts temp_extract_path));;
     extractall zip_ref (p_parts temp_extract_path);;
     lift_fs (λ fs, shutil_move fs
                      (p_parts (joinpath temp_extract_path plugin_id))
                      (p_parts install_path));;
     lift_rmtree (p_parts temp_extract_path)
   else
     lift_fs (λ fs, mkdir_parents true fs (p_parts install_path));;
     extractall zip_ref (p_parts install_path));;
  _status_update status_callback
    ("Plugin '" +:+ pi_name plugin_info +:+ "' installed successfully to "
     +:+ path_str install_path +:+ ".") (Some "info");;
  _status_update status_callback
    "Please restart EDMC for the new plugin to be loaded."
    (Some "warning");;
  ret true.

(** Its [except] clauses: only the last one, for the exceptions that are
    neither [RequestException] nor [BadZipFile] nor [OSError], removes the
    install directory. *)
Definition install_handlers (E : env) (plugin_info : PluginInfo)
    (status_callback : option callback) (e : exn) : M unit :=
  let plugin_id := pi_id plugin_info in
  let install_path := joinpath (plugin_dir_path E) plugin_id in
  match e with
  | RequestException _ =>
      _status_update status_callback
        ("Network error downloading plugin: " +:+ exn_str e)
        (Some "error")
  | BadZipFile _ =>
      _status_update status_callback
        "Failed to install plugin: Downloaded file is not a valid ZIP."
        (Some "error")
  | OSError _ =>
      _status_update status_callback
        ("File system error installing plugin: " +:+ exn_str e)
        (Some "error")
  | _ =>
      _status_update status_callback
        ("An unexpected error occurred during plugin installation: "
         +:+ exn_str e) (Some "error");;
      fs ← get_fs;
      if path_exists fs (p_parts install_path) then
        try_except (lift_rmtree (p_parts install_path))
          (λ cleanup_e,
             logger ERROR
               ("Error cleaning up failed installation for "
                +:+ plugin_id +:+ ": " +:+ exn_str cleanup_e))
      else ret tt
  end.

(** Its [finally] clause. *)
Definition install_finally (temp_zip_path : PurePath) : M unit :=
  fs ← get_fs;
  if path_exists fs (p_parts temp_zip_path)
  then lift_fs (λ fs, unlink fs (p_parts temp_zip_path))
  else ret tt.

Definition install_plugin (E : env) (plugin_info : PluginInfo)
    (status_callback : option callback) : M bool :=
  let plugin_dir := plugin_dir_path E in
  let plugin_id := pi_id plugin_info in
  let install_path := joinpath plugin_dir plugin_id in
  let download_url := pi_downloadUrl plugin_info in
  _status_update status_callback
    ("Installing plugin '" +:+ pi_name plugin_info +:+ "' from "
     +:+ download_url +:+ "...") (Some "info");;
  conflict ← install_conflict install_path;
  if conflict : bool then
    _status_update status_callback
      ("Plugin '" +:+ pi_name plugin_info +:+ "' (folder: " +:+ plugin_id
       +:+ ") already exists or is disabled. Please remove it first.")
      (Some "error");;
    ret false
  else
    let temp_zip_path := joinpath plugin_dir (plugin_id +:+ "_temp.zip") in
    try_finally
      (try_except (install_body E plugin_info status_callback)
         (λ e, install_handlers E plugin_info status_callback e;; ret false))
      (install_finally temp_zip_path).

(** *** remove_plugin *)

Definition remove_plugin (E : env) (plugin_folder_name : string)
    (status_callback : option callback) : M bool :=
  let plugin_dir := plugin_dir_path E in
  let path_to_remove := joinpath plugin_dir plugin_folder_name in
  _status_update status_callback
    ("Removing plugin folder '" +:+ plugin_folder_name +:+ "'...") (Some "info");;
  fs ← get_fs;
  if negb (is_dir fs (p_parts path_to_remove)) then
    _status_update status_callback
      ("Plugin folder '" +:+ plugin_folder_name
       +:+ "' not found or is not a directory.") (Some "error");;
    ret false
  else
    try_except
      (lift_rmtree (p_parts path_to_remove);;
       _status_update status_callback
         ("Plugin '" +:+ plugin_folder_name +:+ "' removed successfully.")
         (Some "info");;
       _status_update status_callback
         "Please restart EDMC for changes to take effect." (Some "warning");;
       ret true)
      (λ e,
         match e with
         | OSError _ =>
             _status_update status_callback
               ("Error removing plugin '" +:+ plugin_folder_name +:+ "': "
                +:+ exn_str e) (Some "error")
         | _ =>
             _status_update status_callback
               ("An unexpected error occurred during plugin removal: "
                +:+ exn_str e) (Some "error")
         end;;
         ret false).

(** *** enable_plugin and disable_plugin *)

(** [try: body  except OSError as e: h e]: other exceptions pass. *)
Definition try_except_OSError {A} (m : M A) (h : exn → M A) : M A :=
  try_except m (λ e, match e with OSError _ => h e | _ => raise e end).

Definition enable_plugin (E : env) (plugin_base_name : string)
    (status_callback : option callback) : M bool :=
  let plugin_dir := plugin_dir_path E in
  let disabled_path := joinpath plugin_dir (plugin_base_name +:+ DISABLED) in
  let enabled_path := joinpath plugin_dir plugin_base_name in
  _status_update status_callback
    ("Enabling plugin '" +:+ plugin_base_name +:+ "'...") (Some "info");;
  fs ← get_fs;
  if negb (is_dir fs (p_parts disabled_path)) then
    _status_update status_callback
      ("Disabled plugin folder '" +:+ path_name disabled_path +:+ "' not found.")
      (Some "error");;
    ret false
  else if path_exists fs (p_parts enabled_path) then
    _status_update status_callback
      ("Enabled plugin folder '" +:+ path_name enabled_path
       +:+ "' already exists. Cannot enable.") (Some "error");;
    ret false
  else
    try_except_OSError
      (lift_fs (λ fs, os_rename fs (p_parts disabled_path) (p_parts enabled_path));;
       _status_update status_callback
         ("Plugin '" +:+ plugin_base_name +:+ "' enabled successfully.")
         (Some "info");;
       _status_update status_callback
         "Please restart EDMC for changes to take effect." (Some "warning");;
       ret true)
      (λ e,
         _status_update status_callback
           ("Error enabling plugin '" +:+ plugin_base_name +:+ "': "
            +:+ exn_str e) (Some "error");;
         ret false).

Definition disable_plugin (E : env) (plugin_base_name : string)
    (status_callback : option callback) : M bool :=
  let plugin_dir := plugin_dir_path E in
  let enabled_path := joinpath plugin_dir plugin_base_name in
  let disabled_path := joinpath plugin_dir (plugin_base_name +:+ DISABLED) in
  _status_update status_callback
    ("Disabling plugin '" +:+ plugin_base_name +:+ "'...") (Some "info");;
  fs ← get_fs;
  if negb (is_dir fs (p_parts enabled_path)) then
    _status_update status_callback
      ("Plugin folder '" +:+ path_name enabled_path +:+ "' not found.")
      (Some "error");;
    ret false
  else if path_exists fs (p_parts disabled_path) then
    _status_update status_callback
      ("Disabled plugin folder '" +:+ path_name disabled_path
       +:+ "' already exists. Cannot disable.") (Some "error");;
    ret false
  else
    try_except_OSError
      (lift_fs (λ fs, os_rename fs (p_parts enabled_path) (p_parts disabled_path));;
       _status_update status_callback
         ("Plugin '" +:+ plugin_base_name +:+ "' disabled successfully.")
         (Some "info");;
       _status_update status_callback
         "Please restart EDMC for changes to take effect." (Some "warning");;
       ret true)
      (λ e,
         _status_update status_callback
           ("Error disabling plugin '" +:+ plugin_base_name +:+ "': "
            +:+ exn_str e) (Some "error");;
         ret false).

(* ===================================================================== *)
(** ** Vocabulary of the specification *)
(* ===================================================================== *)

(** The last ['/']-separated segment of a plugin id, and whether path
    parsing keeps it (it is neither empty nor ["."]). *)
Definition id_tail (plugin_id : string) : string :=
  List.last (split sep plugin_id) "".

Definition plain_tail (plugin_id : string) : bool := kept_part (id_tail plugin_id).

(** A plugin id that is one safe path segment: not empty, no ['/'], and
    neither ["."] nor [".."]. *)
Definition safe_segment (plugin_id : string) : bool :=
  negb (str_mem sep plugin_id) && valid_part plugin_id.

(** The logging level [_status_update] picks for a message type. *)
Definition level_of (msg_type : option string) : level :=
  if decide (msg_type = Some "error") then ERROR
  else if decide (msg_type = Some "warning") then WARNING
  else INFO.

(** Between [w] and [w'] the status sink received notifications, the last
    of them of error severity: a call of the callback when there is one,
    a record of level [ERROR] in the log otherwise. *)
Definition error_reported (cb : option callback) (w w' : world) : Prop :=
  match cb with
  | Some _ =>
      ∃ pre msg, w_calls w' = w_calls w ++ pre ++ [(msg, Some "error")]
  | None =>
      w_calls w' = w_calls w
      ∧ ∃ pre msg, w_log w' = w_log w ++ pre ++ [(ERROR, msg)]
  end.

(** *** Sample hosts *)

(** A host whose plugin directory is [/plugins]. *)
Definition plugins_dir : PurePath := mkPath "/" ["plugins"].

(** The archives the sample network serves, keyed by their bytes. *)
Definition sample_unzip (data : string) : option (list ZipInfo) :=
  if String.eqb data "wrapped" then
    Some [mkZipInfo "P/" (Stored ""); mkZipInfo "P/load.py" (Stored "code")]
  else if String.eqb data "flat" then
    Some [mkZipInfo "load.py" (Stored "code"); mkZipInfo "lib/x.py" (Stored "x")]
  else if String.eqb data "lone-file" then
    Some [mkZipInfo "P" (Stored "text")]
  else if String.eqb data "bad-crc" then
    Some [mkZipInfo "load.py" (Stored "code"); mkZipInfo "extra.py" (BadCRC "x")]
  else if String.eqb data "clash" then
    Some [mkZipInfo "load.py" (Stored "code"); mkZipInfo "load.py/x" (Stored "x")]
  else if String.eqb data "encrypted" then
    Some [mkZipInfo "load.py" (Stored "code"); mkZipInfo "secret.py" Encrypted]
  else None.

(** A well-formed manifest record. *)
Definition sample_record : json :=
  JObj (list_to_map
          [("id", JStr "P"); ("name", JStr "Plugin P"); ("version", JStr "1.0");
           ("author", JStr "A"); ("description", JStr "D");
           ("downloadUrl", JStr "flat")]).

(** The sample network: a manifest URL per scenario; any other URL
    answers 200 with the URL itself as body, in one chunk. *)
Definition sample_http_get (url : string) : string + Response :=
  if String.eqb url "unreachable" then inl "Connection refused"
  else if String.eqb url "manifest" then
    inr (mkResponse 200 (Some (JList [sample_record])) [] None)
  else if String.eqb url "manifest-with-number" then
    inr (mkResponse 200 (Some (JList [sample_record; JNum 5])) [] None)
  else if String.eqb url "manifest-300" then
    inr (mkResponse 300 (Some (JList [sample_record])) [] None)
  else if String.eqb url "broken-stream" then
    inr (mkResponse 200 None ["fl"] (Some "Connection broken"))
  else inr (mkResponse 200 None [url] None).

Definition sample_py_str (v : json) : string :=
  match v with JStr s => s | _ => "?" end.

Definition sample_env : env :=
  mkEnv plugins_dir sample_http_get sample_unzip sample_py_str.

(** A record of the plugin ["P"] whose archive is at [url]. *)
Definition plugin_P (url : string) : PluginInfo := mkPluginInfo "P" "Plugin P" url.

(** File systems: an empty plugin directory, one with the plugin ["P"]
    installed, one with ["P"] next to a folder ["P.disabled.disabled"]. *)
Definition fs_empty : node := Dir {[ "plugins" := Dir ∅ ]}.

Definition plugin_folder : node := Dir {[ "load.py" := File "code" ]}.

Definition fs_with_P : node := Dir {[ "plugins" := Dir {[ "P" := plugin_folder ]} ]}.


Definition world_of (fs : node) : world := mkWorld fs [] [].

(** The record that the scan reports for the folder [folder] of the
    plugin directory, in the words of the specification: a name that ends
    in the disabled suffix is reported as disabled, with the suffix
    stripped; any other name as enabled, unchanged. *)
Inductive reports (plugin_dir : PurePath) (folder : string)
  : InstalledPluginInfo → Prop :=
  | reports_disabled (base : string) :
      folder = base +:+ DISABLED →
      reports plugin_dir folder
        (mkInstalled base "disabled"
           (mkPath (p_root plugin_dir) (p_parts plugin_dir ++ [folder])))
  | reports_enabled :
      (∀ base, folder ≠ base +:+ DISABLED) →
      reports plugin_dir folder
        (mkInstalled folder "enabled"
           (mkPath (p_root plugin_dir) (p_parts plugin_dir ++ [folder]))).

(** A folder qualifies as a plugin when it is a directory with a regular
    file [load.py] at its top level. *)
Definition is_plugin_folder (n : node) : bool :=
  match n with
  | Dir sub => match sub !! "load.py" with Some (File _) => true | _ => false end
  | File _ => false
  end.

(** A plugin directory with an enabled plugin, a disabled one, a folder
    that is no plugin and a stray file. *)
Definition mixed_children : gmap string node :=
  <["P" := plugin_folder]>
    (<["Q.disabled" := plugin_folder]>
       (<["cache" := Dir ∅]> {[ "notes.txt" := File "n" ]})).

Definition fs_mixed : node := Dir {[ "plugins" := Dir mixed_children ]}.

(** A file system without the plugin directory. *)
Definition fs_no_plugins : node := Dir ∅.

(** Is the entry [c] of the directory [ch] a plugin folder? *)
Definition plugin_child (ch : gmap string node) (c : string) : bool :=
  match ch !! c with Some n => is_plugin_folder n | None => false end.

(** [sample_record] after validation: the optional fields default to null. *)
Definition sample_record_filled : json :=
  JObj (list_to_map
          [("id", JStr "P"); ("name", JStr "Plugin P"); ("version", JStr "1.0");
           ("author", JStr "A"); ("description", JStr "D");
           ("downloadUrl", JStr "flat");
           ("edmcCompatibility", JNull); ("repositoryUrl", JNull)]).

(** A manifest object is well-formed when it has all the required keys. *)
Definition well_formed (fields : gmap string json) : bool :=
  forallb (λ k, bool_decide (is_Some (fields !! k))) REQUIRED_KEYS.

(** The optional keys of a record, defaulted to null. *)
Definition with_defaults (fields : gmap string json) : gmap string json :=
  let f1 := match fields !! "edmcCompatibility" with
            | Some _ => fields
            | None => <["edmcCompatibility" := JNull]> fields
            end in
  match f1 !! "repositoryUrl" with
  | Some _ => f1
  | None => <["repositoryUrl" := JNull]> f1
  end.

(** The failures of a fetch that the handlers of [fetch_available_plugins]
    turn into an empty result: no URL, no response, a response with a
    status from 400 to 599, a body that is not JSON, a JSON root that is
    not a list. *)
Definition fetch_failure (E : env) (manifest_url : string) : Prop :=
  manifest_url = ""
  ∨ match http_get E manifest_url with
    | inl _ => True
    | inr r =>
        (400 ≤ status_code r < 600)%Z
        ∨ match r_json r with
          | None => True
          | Some (JList _) => False
          | Some _ => True
          end
    end.

(** Two runs agree on what the caller and the disk see: the same value
    returned (or exception raised) and the same file system. *)
Definition same_result {A} (r r' : outcome A * world) : Prop :=
  r.1 = r'.1 ∧ w_fs r.2 = w_fs r'.2.

(** Two computations agree, in that sense, from any two states with the
    same file system: what they do depends on neither the log nor the
    callback trace. *)
Definition fs_sim {A} (m m' : M A) : Prop :=
  ∀ w w', w_fs w = w_fs w' → same_result (m w) (m' w').

(** At most one of [{plugin_dir}/{name}] and [{plugin_dir}/{name}.disabled]
    exists. *)
Definition at_most_one (fs : node) (plugin_dir : PurePath) (name : string) : Prop :=
  ¬ (path_exists fs (p_parts (joinpath plugin_dir name)) = true
     ∧ path_exists fs (p_parts (disabled_path_of plugin_dir name)) = true).

(** Everything at and below the entries of the directory [pd] other than
    those named in [xs] is the same in [fs] and [fs']. *)
Definition untouched_outside (pd xs : list string) (fs fs' : node) : Prop :=
  ∀ y t, y ∉ xs → tree_lookup (pd ++ y :: t) fs' = tree_lookup (pd ++ y :: t) fs.

(** The path [p] lies at or below the entry [x] of [pd]. *)
Definition under (pd : list string) (x : string) (p : list string) : Prop :=
  ∃ s, p = pd ++ x :: s.

(** The path [p] lies at or below the entry [x] of [pd], or is [pd] or one
    of its ancestors. *)
Definition near (pd : list string) (x : string) (p : list string) : Prop :=
  under pd x p ∨ ∃ rest, pd = p ++ rest.

(** The file system changes of a computation are all related by [T]. *)
Definition fs_rel {A} (T : node → node → Prop) (m : M A) : Prop :=
  ∀ w, T (w_fs w) (w_fs (m w).2).

(** The entry at [p] is not a directory: there is none, or a file. *)
Definition not_a_dir (p : list string) (fs : node) : Prop :=
  match tree_lookup p fs with Some (Dir _) => False | _ => True end.

(** An entry at [p] that is not a directory stays one. *)
Definition keeps_not_a_dir (p : list string) (fs fs' : node) : Prop :=
  not_a_dir p fs → not_a_dir p fs'.

(** The three entries of the plugin directory that an install of the
    plugin [plugin_id] works on: the install directory, the downloaded
    archive and the staging directory. *)
Definition install_names (plugin_id : string) : list string :=
  [plugin_id; plugin_id +:+ "_temp.zip"; plugin_id +:+ "_temp_extract"].

(** From [fs] to [fs'] nothing happened, or the entry at [p] went away. *)
Definition same_or_gone (p : list string) (fs fs' : node) : Prop :=
  fs' = fs ∨ tree_lookup p fs' = None.

(** Every entry of the directory [pd] found in [fs'] was in [fs]. *)
Definition no_new_entries (pd : list string) (fs fs' : node) : Prop :=
  ∀ y, is_Some (tree_lookup (pd ++ [y]) fs') → is_Some (tree_lookup (pd ++ [y]) fs).

(** A path without [".."] components. *)
Definition dotdot_free (p : list string) : bool :=
  forallb (λ c, negb (String.eqb c "..")) p.

(* ===================================================================== *)
(** ** Further vocabulary *)
(* ===================================================================== *)

(** Between [w] and [w'] the status sink received notifications, the last
    of them the message [msg] with the type [msg_type]. *)
Definition last_status (cb : option callback) (w w' : world) (msg : string)
    (msg_type : option string) : Prop :=
  match cb with
  | Some _ => ∃ pre, w_calls w' = w_calls w ++ pre ++ [(msg, msg_type)]
  | None =>
      w_calls w' = w_calls w
      ∧ ∃ pre, w_log w' = w_log w ++ pre ++ [(level_of msg_type, msg)]
  end.

(** A manifest of two records, the second of which lacks its version. *)
Definition sample_objects : list (gmap string json) :=
  [list_to_map
     [("id", JStr "P"); ("name", JStr "Plugin P"); ("version", JStr "1.0");
      ("author", JStr "A"); ("description", JStr "D");
      ("downloadUrl", JStr "flat"); ("repositoryUrl", JStr "repo")];
   list_to_map
     [("id", JStr "Q"); ("name", JStr "Plugin Q");
      ("author", JStr "A"); ("description", JStr "D");
      ("downloadUrl", JStr "flat")]].

(** A host like [sample_env] whose network answers every URL with the
    JSON document [body]. *)
Definition json_env (body : json) : env :=
  mkEnv plugins_dir (λ _, inr (mkResponse 200 (Some body) [] None))
    sample_unzip sample_py_str.

(** Change the entries of the directory at [pd] by [h]; nothing changes
    when there is no directory at [pd]. *)
Fixpoint dir_alter (h : gmap string node → gmap string node)
    (pd : list string) (n : node) : node :=
  match n with
  | File _ => n
  | Dir ch =>
      match pd with
      | [] => Dir (h ch)
      | c :: r =>
          match ch !! c with
          | Some m => Dir (<[c := dir_alter h r m]> ch)
          | None => n
          end
      end
  end.

(** The body of a response: its chunks, one after the other. *)
Definition response_content (r : Response) : string :=
  foldr String.append "" (r_chunks r).

(** What the scan reports for [fs_mixed]. *)
Definition mixed_records : list InstalledPluginInfo :=
  [mkInstalled "Q" "disabled" (mkPath "/" ["plugins"; "Q.disabled"]);
   mkInstalled "P" "enabled" (mkPath "/" ["plugins"; "P"])].

(* ===================================================================== *)
(** ** load.py: what the settings tab asks of the manager *)
(* ===================================================================== *)

(** [_remove_selected_plugin]: the folder behind the row
    [(plugin_folder_name, plugin_status)] of the installed-plugins list,
    [f"{plugin_folder_name}.disabled" if plugin_status == "disabled"
     else plugin_folder_name]. *)
Definition actual_folder_name_to_delete (plugin_folder_name plugin_status : string)
  : string :=
  if String.eqb plugin_status "disabled"
  then plugin_folder_name +:+ ".disabled" else plugin_folder_name.

(** [do_remove], the task it starts once the removal is confirmed: the
    call of the manager, whose result is [success]. *)
Definition do_remove (E : env) (plugin_folder_name plugin_status : string)
    (status_callback : option callback) : M bool :=
  remove_plugin E
    (actual_folder_name_to_delete plugin_folder_name plugin_status)
    status_callback.

(** [do_toggle] of [_toggle_selected_plugin_status]: enable a row shown
    as disabled, disable any other; the result is [success]. *)
Definition do_toggle (E : env) (plugin_name current_status : string)
    (status_callback : option callback) : M bool :=
  if String.eqb current_status "disabled"
  then enable_plugin E plugin_name status_callback
  else disable_plugin E plugin_name status_callback.

(** The status a successful toggle turns [current_status] into. *)
Definition toggled (current_status : string) : string :=
  if String.eqb current_status "disabled" then "enabled" else "disabled".

(** The ways the download phase of an install fails: no response, a
    status from 400 to 599, a stream that breaks, a body that is not a
    ZIP file. *)
Definition download_fails (E : env) (plugin_info : PluginInfo) : Prop :=
  match http_get E (pi_downloadUrl plugin_info) with
  | inl _ => True
  | inr r =>
      (400 ≤ status_code r < 600)%Z
      ∨ is_Some (r_stream_error r)
      ∨ unzip E (response_content r) = None
  end.

(** The downloaded archive [tmp] of the directory [pd] while an install
    is under way: not there, as in the file system [fs0] before the
    install, or a file the install has put in [fs0]. *)
Definition archive_state (pd : list string) (tmp : string) (fs0 fs : node) : Prop :=
  (fs = fs0 ∧ path_exists fs0 (pd ++ [tmp]) = false)
  ∨ ∃ ch d, tree_lookup pd fs0 = Some (Dir ch) ∧ ch !! tmp = None
            ∧ fs = dir_alter (<[tmp := File d]>) pd fs0.

(** A plugin directory that holds the plugin ["Q"] only. *)
Definition fs_with_Q : node :=
  Dir {[ "plugins" := Dir {[ "Q" := plugin_folder ]} ]}.


(** A directory at [p] stays a directory. *)
Definition keeps_dir (p : list string) (fs fs' : node) : Prop :=
  (∃ sub, tree_lookup p fs = Some (Dir sub)) →
  ∃ sub', tree_lookup p fs' = Some (Dir sub').


(* ===================================================================== *)
(** * Properties *)
(* ===================================================================== *)

(** ** Strings *)

#[local] Arguments String.append !s1 s2 : simpl nomatch.

Lemma length_app_str (a b : string) :
  String.length (a +:+ b) = String.length a + String.length b.
Proof. induction a as [|c a IH]; simpl; [done | by rewrite IH]. Qed.

Lemma app_str_assoc (a b c : string) : (a +:+ b) +:+ c = a +:+ (b +:+ c).
Proof. induction a as [|x a IH]; simpl; [done | by rewrite IH]. Qed.

Lemma app_str_nil_r (a : string) : a +:+ "" = a.
Proof. induction a as [|x a IH]; simpl; [done | by rewrite IH]. Qed.

Lemma app_str_inv_r (a b c : string) : a +:+ c = b +:+ c → a = b.
Proof.
  revert b. induction a as [|x a IH]; intros [|y b] H; simpl in *.
  - done.
  - apply (f_equal String.length) in H. simpl in H.
    rewrite length_app_str in H. lia.
  - apply (f_equal String.length) in H. simpl in H.
    rewrite length_app_str in H. lia.
  - injection H as -> H. f_equal. by apply IH.
Qed.

Lemma str_take_drop (n : nat) (s : string) : str_take n s +:+ str_drop n s = s.
Proof.
  revert s. induction n as [|n IH]; intros [|c s]; simpl; try done.
  by rewrite IH.
Qed.

Lemma length_str_drop (n : nat) (s : string) :
  String.length (str_drop n s) = String.length s - n.
Proof. revert s. induction n as [|n IH]; intros [|c s]; simpl; auto. Qed.

Lemma str_drop_app_length (a b : string) : str_drop (String.length a) (a +:+ b) = b.
Proof. induction a as [|c a IH]; simpl; [by destruct b | done]. Qed.

Lemma str_take_app_length (a b : string) : str_take (String.length a) (a +:+ b) = a.
Proof. induction a as [|c a IH]; simpl; [by destruct b | by rewrite IH]. Qed.

(** [endswith] is "has the form [base + p]", and chopping [len(p)]
    characters off such a string gives [base]. *)
Lemma endswith_spec (s p : string) :
  endswith s p = true ↔ ∃ base, s = base +:+ p.
Proof.
  unfold endswith. rewrite andb_true_iff, Nat.leb_le, String.eqb_eq. split.
  - intros [Hle Hd]. exists (str_take (String.length s - String.length p) s).
    pose proof (str_take_drop (String.length s - String.length p) s) as Ht.
    by rewrite Hd in Ht.
  - intros [base ->]. rewrite length_app_str. split; [lia |].
    replace (String.length base + String.length p - String.length p)
      with (String.length base) by lia.
    apply str_drop_app_length.
Qed.

Lemma str_chop_app (base p : string) : str_chop (String.length p) (base +:+ p) = base.
Proof.
  unfold str_chop. rewrite length_app_str.
  replace (String.length base + String.length p - String.length p)
    with (String.length base) by lia.
  apply str_take_app_length.
Qed.

Lemma str_mem_app (c : ascii) (a b : string) :
  str_mem c (a +:+ b) = str_mem c a || str_mem c b.
Proof. induction a as [|x a IH]; simpl; [done | by rewrite IH, orb_assoc]. Qed.

Lemma str_mem_drop (c : ascii) (n : nat) (s : string) :
  str_mem c s = false → str_mem c (str_drop n s) = false.
Proof.
  revert s. induction n as [|n IH]; intros [|x s]; simpl; try done.
  rewrite orb_false_iff. intros [_ H]. by apply IH.
Qed.

Lemma rfind_lt (c : ascii) (s : string) (i : nat) :
  rfind c s = Some i → i < String.length s.
Proof.
  revert i. induction s as [|a s IH]; intros i; simpl; [done |].
  destruct (rfind c s) as [j|].
  - intros [= <-]. specialize (IH j eq_refl). lia.
  - destruct (Ascii.eqb a c); intros [= <-]. lia.
Qed.

Lemma rfind_drop (c : ascii) (s : string) (i : nat) :
  rfind c s = Some i → ∃ r, str_drop i s = String c r.
Proof.
  revert i. induction s as [|a s IH]; intros i; simpl; [done |].
  destruct (rfind c s) as [j|].
  - intros [= <-]. simpl. by apply IH.
  - destruct (Ascii.eqb_spec a c) as [->|]; intros [= <-]. simpl. eauto.
Qed.

Lemma split_nonempty (c : ascii) (s : string) : split c s ≠ [].
Proof.
  induction s as [|a s IH]; simpl; [done |].
  destruct (Ascii.eqb a c); [done |]. by destruct (split c s).
Qed.

Lemma split_no_sep (c : ascii) (s : string) :
  Forall (λ x, str_mem c x = false) (split c s).
Proof.
  induction s as [|a s IH]; simpl.
  - by repeat constructor.
  - destruct (Ascii.eqb a c) eqn:Hac.
    + by constructor.
    + destruct (split c s) as [|h t].
      * constructor; [simpl; by rewrite Hac | constructor].
      * inversion IH; subst. constructor; [|done]. simpl. by rewrite Hac.
Qed.

Lemma split_without_sep (c : ascii) (s : string) :
  str_mem c s = false → split c s = [s].
Proof.
  induction s as [|a s IH]; simpl; [done |].
  rewrite orb_false_iff. intros [-> H]. by rewrite (IH H).
Qed.

(** Appending text without separators to a string only extends the last
    segment of its split. *)
Lemma split_app_no_sep (c : ascii) (a b : string) :
  str_mem c b = false →
  ∃ front lst, split c a = front ++ [lst] ∧ split c (a +:+ b) = front ++ [lst +:+ b].
Proof.
  intros Hb. induction a as [|x a (front & lst & H1 & H2)]; simpl.
  - exists [], "". by rewrite (split_without_sep _ _ Hb).
  - rewrite H1, H2. destruct (Ascii.eqb x c).
    + by exists ("" :: front), lst.
    + destruct front as [|h t]; simpl.
      * by exists [], (String x lst).
      * by exists (String x h :: t), lst.
Qed.

Lemma lstrip_app (c : ascii) (a b : string) :
  startswith b (String c "") = false → lstrip c (a +:+ b) = lstrip c a +:+ b.
Proof.
  intros Hb. induction a as [|x a IH]; simpl.
  - destruct b as [|y b]; [done |]. simpl in *.
    rewrite Ascii.eqb_sym. destruct (Ascii.eqb c y); [by destruct b | done].
  - destruct (Ascii.eqb x c); simpl; done.
Qed.

Lemma length_lstrip (c : ascii) (a : string) :
  String.length (lstrip c a) ≤ String.length a.
Proof.
  induction a as [|x a IH]; simpl; [done |].
  destruct (Ascii.eqb x c); simpl; lia.
Qed.

(** ** Paths *)

Lemma startswith_nil (s : string) : startswith s "" = true.
Proof. by destruct s. Qed.

Lemma startswith_char (c x : ascii) (s : string) :
  startswith (String x s) (String c "") = Ascii.eqb c x.
Proof. simpl. rewrite startswith_nil. by destruct (Ascii.eqb c x). Qed.

Lemma splitroot_app_disabled (plugin_id : string) :
  splitroot (plugin_id +:+ DISABLED)
  = ((splitroot plugin_id).1, (splitroot plugin_id).2 +:+ DISABLED).
Proof.
  destruct plugin_id as [|x s]; [done |].
  unfold splitroot.
  change (String x s +:+ DISABLED) with (String x (s +:+ DISABLED)).
  rewrite !startswith_char. destruct (Ascii.eqb "/" x) eqn:Hx; [|done].
  change (String x (s +:+ DISABLED)) with (String x s +:+ DISABLED).
  rewrite (lstrip_app sep (String x s) DISABLED) by done.
  rewrite !length_app_str.
  pose proof (length_lstrip sep (String x s)) as Hle.
  replace (String.length (String x s) + String.length DISABLED
           - (String.length (lstrip sep (String x s)) + String.length DISABLED))
    with (String.length (String x s) - String.length (lstrip sep (String x s)))
    by lia.
  by destruct (_ =? 2).
Qed.

Lemma last_split_lstrip (s : string) :
  List.last (split sep (lstrip sep s)) "" = List.last (split sep s) "".
Proof.
  induction s as [|a s IH]; [done |]. simpl.
  destruct (Ascii.eqb a sep) eqn:Ha; [|by simpl; rewrite Ha].
  rewrite IH. pose proof (split_nonempty sep s). by destruct (split sep s).
Qed.

Lemma id_tail_splitroot (plugin_id : string) :
  List.last (split sep (splitroot plugin_id).2) "" = id_tail plugin_id.
Proof.
  unfold splitroot, id_tail.
  destruct (startswith plugin_id "/"); [|done].
  destruct (_ =? 2); simpl; apply last_split_lstrip.
Qed.

Lemma id_tail_no_sep (plugin_id : string) : str_mem sep (id_tail plugin_id) = false.
Proof.
  unfold id_tail. pose proof (split_no_sep sep plugin_id) as HF.
  pose proof (split_nonempty sep plugin_id) as Hne.
  rewrite (app_removelast_last "" Hne) in HF.
  apply Forall_app in HF as [_ HF]. by inversion HF.
Qed.

Lemma kept_part_app_disabled (s : string) : kept_part (s +:+ DISABLED) = true.
Proof.
  unfold kept_part. rewrite andb_true_iff, !negb_true_iff, !String.eqb_neq.
  split; intros H; apply (f_equal String.length) in H;
    rewrite length_app_str in H; simpl in H; lia.
Qed.

Lemma filter_kept_single (x : string) :
  filter (λ x, kept_part x = true) [x] = if kept_part x then [x] else [].
Proof.
  rewrite filter_cons, filter_nil.
  destruct (kept_part x); by case_decide.
Qed.

(** How a plugin id and the same id with [".disabled"] appended parse. *)
Lemma parse_part_shape (plugin_id : string) :
  ∃ front,
    parse_part plugin_id
    = ((splitroot plugin_id).1,
       front ++ (if plain_tail plugin_id then [id_tail plugin_id] else []))
    ∧ parse_part (plugin_id +:+ DISABLED)
      = ((splitroot plugin_id).1, front ++ [id_tail plugin_id +:+ DISABLED]).
Proof.
  unfold parse_part. rewrite splitroot_app_disabled.
  pose proof (id_tail_splitroot plugin_id) as Ht.
  destruct (splitroot plugin_id) as [root rel]. simpl in *.
  destruct (split_app_no_sep sep rel DISABLED eq_refl)
    as (front & lst & H1 & H2).
  rewrite H1, last_last in Ht. subst lst.
  exists (filter (λ x, kept_part x = true) front).
  rewrite H1, H2, !filter_app, !filter_kept_single, kept_part_app_disabled.
  done.
Qed.

(** The install path and the intended disabled path of an id share their
    root and all components but the last. *)
Lemma joinpath_shape (plugin_dir : PurePath) (plugin_id : string) :
  ∃ r X,
    joinpath plugin_dir plugin_id
    = mkPath r (X ++ (if plain_tail plugin_id then [id_tail plugin_id] else []))
    ∧ disabled_path_of plugin_dir plugin_id
      = mkPath r (X ++ [id_tail plugin_id +:+ DISABLED]).
Proof.
  unfold disabled_path_of, joinpath.
  destruct (parse_part_shape plugin_id) as (front & -> & ->).
  destruct (String.eqb _ ""); eexists _, _; split; try reflexivity.
  all: by rewrite app_assoc.
Qed.

Lemma path_suffix_checks (suf : string) :
  suf = "" ∨ (∃ r, suf = String dot r) →
  str_mem sep suf = false →
  str_mem sep (suf +:+ DISABLED) = false
  ∧ ((negb (String.eqb (suf +:+ DISABLED) "")
      && negb (startswith (suf +:+ DISABLED) "."))
     || String.eqb (suf +:+ DISABLED) ".") = false.
Proof.
  intros Hsuf Hsep. split; [by rewrite str_mem_app, Hsep |].
  destruct Hsuf as [-> | [r ->]]; [done |].
  change (String dot r +:+ DISABLED) with (String dot (r +:+ DISABLED)).
  rewrite startswith_char. simpl.
  destruct r; done.
Qed.

(** On a name without separators, appending [".disabled"] through
    [with_suffix] is appending it to the name. *)
Lemma with_suffix_disabled (r : string) (X : list string) (n : string) :
  n ≠ "" → str_mem sep n = false →
  with_suffix (mkPath r (X ++ [n])) (path_suffix (mkPath r (X ++ [n])) +:+ DISABLED)
  = Some (mkPath r (X ++ [n +:+ DISABLED])).
Proof.
  intros Hn Hsep.
  assert (Hsuf : (path_suffix (mkPath r (X ++ [n])) = ""
                  ∨ ∃ t, path_suffix (mkPath r (X ++ [n])) = String dot t)
                 ∧ str_mem sep (path_suffix (mkPath r (X ++ [n]))) = false
                 ∧ (path_suffix (mkPath r (X ++ [n])) ≠ "" →
                    str_chop (String.length (path_suffix (mkPath r (X ++ [n])))) n
                    +:+ path_suffix (mkPath r (X ++ [n])) = n)).
  { unfold path_suffix, path_name. simpl. rewrite last_last.
    destruct (rfind dot n) as [i|] eqn:Hi; [|naive_solver].
    destruct (_ && _); [|naive_solver].
    destruct (rfind_drop _ _ _ Hi) as [t Ht]. apply rfind_lt in Hi.
    split; [eauto |]. split; [by apply str_mem_drop |]. intros _.
    unfold str_chop. rewrite length_str_drop.
    replace (String.length n - (String.length n - i)) with i by lia.
    apply str_take_drop. }
  destruct Hsuf as (Hshape & Hnosep & Hchop).
  destruct (path_suffix_checks _ Hshape Hnosep) as [Hc1 Hc2].
  unfold with_suffix. rewrite Hc1, Hc2.
  unfold path_name. simpl. rewrite last_last, removelast_last.
  apply String.eqb_neq in Hn. rewrite Hn.
  destruct (String.eqb_spec (path_suffix (mkPath r (X ++ [n]))) "") as [->|Hne].
  - done.
  - by rewrite <- app_str_assoc, (Hchop Hne).
Qed.

Lemma kept_part_nonempty (x : string) : kept_part x = true → x ≠ "".
Proof. by intros H ->. Qed.

(** The sibling [install_plugin] probes is the intended disabled path
    exactly for the ids whose last segment survives path parsing. *)
Lemma install_disabled_sibling_plain (plugin_dir : PurePath) (plugin_id : string) :
  plain_tail plugin_id = true →
  install_disabled_sibling plugin_dir plugin_id
  = Some (disabled_path_of plugin_dir plugin_id).
Proof.
  intros Hpl. unfold install_disabled_sibling.
  destruct (joinpath_shape plugin_dir plugin_id) as (r & X & -> & ->).
  rewrite Hpl. apply with_suffix_disabled.
  - by apply kept_part_nonempty.
  - apply id_tail_no_sep.
Qed.

(** For the other ids, the intended disabled path lies directly inside
    the install path. *)
Lemma disabled_path_inside (plugin_dir : PurePath) (plugin_id : string) :
  plain_tail plugin_id = false →
  p_parts (disabled_path_of plugin_dir plugin_id)
  = p_parts (joinpath plugin_dir plugin_id) ++ [id_tail plugin_id +:+ DISABLED].
Proof.
  intros Hpl.
  destruct (joinpath_shape plugin_dir plugin_id) as (r & X & -> & ->).
  rewrite Hpl. simpl. by rewrite app_nil_r.
Qed.

Lemma with_suffix_length (p q : PurePath) (suf : string) :
  with_suffix p suf = Some q → length (p_parts q) = length (p_parts p).
Proof.
  unfold with_suffix. destruct (str_mem sep suf); [done |].
  destruct (_ || _); [done |].
  destruct (String.eqb_spec (path_name p) "") as [|Hn]; [done |].
  intros [= <-]. simpl. rewrite length_app. simpl.
  destruct (p_parts p) as [|a l] eqn:Hp.
  - unfold path_name in Hn. by rewrite Hp in Hn.
  - rewrite (app_removelast_last "" (l:=a :: l)) at 2 by done.
    by rewrite length_app.
Qed.

(** C4 (amended): for every plugin directory and plugin id, the sibling
    that the conflict check of [install_plugin] builds with [with_suffix]
    is the path [plugin_dir / (id + ".disabled")] if and only if the last
    ['/']-separated segment of the id is neither empty nor ["."]; this
    covers every id that is a single safe path segment. *)
Theorem install_disabled_sibling_refines (plugin_dir : PurePath) (plugin_id : string) :
  install_disabled_sibling plugin_dir plugin_id
  = Some (disabled_path_of plugin_dir plugin_id)
  ↔ plain_tail plugin_id = true.
Proof.
  split; [|apply install_disabled_sibling_plain].
  intros Heq. destruct (plain_tail plugin_id) eqn:Hpl; [done |].
  apply with_suffix_length in Heq.
  rewrite (disabled_path_inside _ _ Hpl), length_app in Heq. simpl in Heq. lia.
Qed.

(** C4 (as stated) fails: for the ids [""] and ["P/"] the path built by
    the conflict check is not [plugin_dir / (id + ".disabled")]. *)
Lemma install_disabled_sibling_differs :
  install_disabled_sibling plugins_dir "" = Some (mkPath "/" ["plugins.disabled"])
  ∧ disabled_path_of plugins_dir "" = mkPath "/" ["plugins"; ".disabled"]
  ∧ install_disabled_sibling plugins_dir "P/" = Some (mkPath "/" ["plugins"; "P.disabled"])
  ∧ disabled_path_of plugins_dir "P/" = mkPath "/" ["plugins"; "P"; ".disabled"]
  ∧ ¬ (∀ plugin_id,
         install_disabled_sibling plugins_dir plugin_id
         = Some (disabled_path_of plugins_dir plugin_id)).
Proof.
  repeat split; try by vm_compute.
  intros H. specialize (H ""). by vm_compute in H.
Qed.

(** ** Path resolution *)

(** Resolving [p ++ [c]] passes through [p], which must be a directory. *)
Lemma resolve_snoc (fs : node) (p : list string) :
  ∀ cur c q, resolve fs cur (p ++ [c]) = inr q →
    ∃ q0 ch, resolve fs cur p = inr q0 ∧ tree_lookup q0 fs = Some (Dir ch).
Proof.
  induction p as [|x p IH]; intros cur c q; simpl.
  - destruct (tree_lookup cur fs) as [[|ch]|] eqn:Hcur; try done. eauto.
  - destruct (tree_lookup cur fs) as [[|ch]|]; try done.
    destruct (String.eqb x ".."); apply IH.
Qed.

(** What exists has an existing parent directory. *)
Lemma path_exists_parent (fs : node) (p : list string) (c : string) :
  path_exists fs (p ++ [c]) = true → path_exists fs p = true.
Proof.
  unfold path_exists, stat, locate.
  destruct (resolve fs [] (p ++ [c])) as [|q] eqn:Hq; [done |]. intros _.
  destruct (resolve_snoc _ _ _ _ _ Hq) as (q0 & ch & -> & ->). done.
Qed.

(** ** Running the operations *)

Lemma bind_run {A B} (m : M A) (k : A → M B) (w : world) :
  (m ≫= k) w = match m w with
               | (Ret a, w1) => k a w1
               | (Raise e, w1) => (Raise e, w1)
               end.
Proof. done. Qed.

Lemma logger_run (lv : level) (msg : string) (w : world) :
  logger lv msg w = (Ret tt, mkWorld (w_fs w) (w_log w ++ [(lv, msg)]) (w_calls w)).
Proof. done. Qed.

(** [_status_update] always returns: a raising callback is logged, not
    propagated; the file system is not touched; the callback, when there
    is one, receives the message, and the logger receives it at the level
    of its type otherwise. *)
Lemma status_update_run (cb : option callback) (msg : string)
    (ty : option string) (w : world) :
  ∃ w', _status_update cb msg ty w = (Ret tt, w')
        ∧ w_fs w' = w_fs w
        ∧ match cb with
          | Some f =>
              w_calls w' = w_calls w ++ [(msg, ty)]
              ∧ w_log w' = w_log w ++
                  match f (w_calls w) msg ty with
                  | Some e => [(ERROR, "Error in status callback: " +:+ exn_str e)]
                  | None => []
                  end
          | None =>
              w_calls w' = w_calls w
              ∧ w_log w' = w_log w ++ [(level_of ty, msg)]
          end.
Proof.
  destruct cb as [f|]; simpl.
  - destruct (f (w_calls w) msg ty); eexists; split; try done; simpl.
    by rewrite app_nil_r.
  - unfold level_of. repeat case_decide; eexists; done.
Qed.

(** A status update of error severity leaves an error report behind,
    whatever was reported before it. *)
Lemma error_reported_step (cb : option callback) (msg : string) (w0 w w' : world) :
  (∃ pre, w_calls w = w_calls w0 ++ pre) →
  (∃ pre, w_log w = w_log w0 ++ pre) →
  (cb = None → w_calls w = w_calls w0) →
  _status_update cb msg (Some "error") w = (Ret tt, w') →
  error_reported cb w0 w'.
Proof.
  intros [prec Hc] [prel Hl] Hn Hrun.
  destruct (status_update_run cb msg (Some "error") w) as (w'' & Hrun' & _ & H).
  rewrite Hrun in Hrun'. injection Hrun' as <-.
  destruct cb as [f|]; simpl.
  - destruct H as [H _]. exists prec, msg. by rewrite H, Hc, <- app_assoc.
  - destruct H as [H1 H2]. split; [by rewrite H1, Hn |].
    exists prel, msg. by rewrite H2, Hl, <- app_assoc.
Qed.

(** ** The conflict check of install *)

(** When the install path or the intended disabled path exists, the
    check of [install_plugin] finds a conflict, for every id. *)
Lemma install_conflict_found (plugin_dir : PurePath) (plugin_id : string) (w : world) :
  path_exists (w_fs w) (p_parts (joinpath plugin_dir plugin_id)) = true
  ∨ path_exists (w_fs w) (p_parts (disabled_path_of plugin_dir plugin_id)) = true →
  install_conflict (joinpath plugin_dir plugin_id) w = (Ret true, w).
Proof.
  intros H. unfold install_conflict. rewrite bind_run. simpl.
  destruct (path_exists (w_fs w) (p_parts (joinpath plugin_dir plugin_id)))
    eqn:Hinst; [done |].
  destruct H as [H|H]; [done |].
  destruct (plain_tail plugin_id) eqn:Hpl.
  - pose proof (install_disabled_sibling_plain plugin_dir plugin_id Hpl) as Hs.
    unfold install_disabled_sibling in Hs. rewrite Hs. unfold ret. by rewrite H.
  - rewrite (disabled_path_inside _ _ Hpl) in H.
    apply path_exists_parent in H. congruence.
Qed.

(** C1: for every plugin record, when [{plugin_root}/{id}] or
    [{plugin_root}/{id}.disabled] exists, [install_plugin] returns false,
    the last status notification it issues is an error, and the file
    system is left as it was. *)
Theorem install_refuses_existing (E : env) (plugin_info : PluginInfo)
    (cb : option callback) (w : world) :
  path_exists (w_fs w)
    (p_parts (joinpath (plugin_dir_path E) (pi_id plugin_info))) = true
  ∨ path_exists (w_fs w)
      (p_parts (disabled_path_of (plugin_dir_path E) (pi_id plugin_info))) = true →
  ∃ w', install_plugin E plugin_info cb w = (Ret false, w')
        ∧ w_fs w' = w_fs w
        ∧ error_reported cb w w'.
Proof.
  intros Hex. unfold install_plugin. rewrite bind_run.
  destruct (status_update_run cb
    ("Installing plugin '" +:+ pi_name plugin_info +:+ "' from "
     +:+ pi_downloadUrl plugin_info +:+ "...") (Some "info") w)
    as (w1 & -> & Hfs1 & H1).
  rewrite bind_run, install_conflict_found by by rewrite Hfs1.
  rewrite bind_run.
  match goal with |- context [_status_update cb ?m (Some "error") w1] =>
    destruct (status_update_run cb m (Some "error") w1) as (w2 & Hrun & Hfs2 & H2)
  end.
  rewrite Hrun. exists w2. split; [done |]. split; [congruence |].
  eapply error_reported_step; [| | |exact Hrun].
  - destruct cb; [destruct H1 as [-> _] | destruct H1 as [-> _]]; eauto.
    exists []. by rewrite app_nil_r.
  - destruct cb; destruct H1 as [_ ->]; eauto.
  - by intros ->; destruct H1.
Qed.

Lemma install_refuses_existing_witness :
  ∃ w', install_plugin sample_env (plugin_P "flat") None (world_of fs_with_P)
        = (Ret false, w')
        ∧ w_fs w' = fs_with_P
        ∧ error_reported None (world_of fs_with_P) w'.
Proof.
  apply (install_refuses_existing sample_env (plugin_P "flat") None
           (world_of fs_with_P)).
  left. vm_compute. reflexivity.
Defined.

(** ** Lookups below a resolved directory *)

Lemma tree_lookup_app (p p' : list string) (n : node) :
  tree_lookup (p ++ p') n = tree_lookup p n ≫= tree_lookup p'.
Proof.
  revert n. induction p as [|c p IH]; intros n; simpl; [done |].
  destruct n as [|ch]; [done |]. destruct (ch !! c); [apply IH | done].
Qed.

Lemma tree_lookup_snoc (p : list string) (c : string) (n : node)
    (ch : gmap string node) :
  tree_lookup p n = Some (Dir ch) → tree_lookup (p ++ [c]) n = ch !! c.
Proof.
  intros H. rewrite tree_lookup_app, H. simpl. by destruct (ch !! c).
Qed.

Lemma resolve_app (fs : node) (p p' : list string) :
  ∀ cur, resolve fs cur (p ++ p')
         = match resolve fs cur p with
           | inr q => resolve fs q p'
           | inl e => inl e
           end.
Proof.
  induction p as [|c p IH]; intros cur; simpl; [done |].
  destruct (tree_lookup cur fs) as [[|ch]|]; try done.
  destruct (String.eqb c ".."); apply IH.
Qed.

(** A component other than [".."] below a resolved directory resolves to
    the entry of that name. *)
Lemma resolve_child (fs : node) (p q : list string) (c : string)
    (ch : gmap string node) :
  resolve fs [] p = inr q → tree_lookup q fs = Some (Dir ch) → c ≠ ".." →
  resolve fs [] (p ++ [c]) = inr (q ++ [c]).
Proof.
  intros Hp Hq Hc. rewrite resolve_app, Hp. simpl. rewrite Hq.
  apply String.eqb_neq in Hc. by rewrite Hc.
Qed.

Lemma stat_child (fs : node) (p q : list string) (c : string)
    (ch : gmap string node) :
  resolve fs [] p = inr q → tree_lookup q fs = Some (Dir ch) → c ≠ ".." →
  stat fs (p ++ [c]) = match ch !! c with Some n => inr n | None => inl ENOENT end.
Proof.
  intros Hp Hq Hc. unfold stat, locate.
  rewrite (resolve_child _ _ _ _ _ Hp Hq Hc).
  by rewrite (tree_lookup_snoc _ _ _ _ Hq).
Qed.

Lemma stat_dir_inv (fs : node) (p : list string) (ch : gmap string node) :
  stat fs p = inr (Dir ch) →
  ∃ q, resolve fs [] p = inr q ∧ tree_lookup q fs = Some (Dir ch).
Proof.
  unfold stat, locate. destruct (resolve fs [] p) as [|q]; [done |].
  destruct (tree_lookup q fs) eqn:Hq; [|done]. intros [= ->]. eauto.
Qed.

(** ** The installed-set scanner *)

Lemma endswith_reports (plugin_dir : PurePath) (folder : string) :
  reports plugin_dir folder
    (mkInstalled
       (if endswith folder DISABLED
        then str_chop (String.length DISABLED) folder else folder)
       (if endswith folder DISABLED then "disabled" else "enabled")
       (mkPath (p_root plugin_dir) (p_parts plugin_dir ++ [folder]))).
Proof.
  destruct (endswith folder DISABLED) eqn:He.
  - apply endswith_spec in He as [base ->]. rewrite str_chop_app.
    by apply reports_disabled.
  - apply reports_enabled. intros base ->.
    assert (endswith (base +:+ DISABLED) DISABLED = true) as Ht
      by (apply endswith_spec; eauto).
    congruence.
Qed.

Lemma reports_functional (plugin_dir : PurePath) (folder : string)
    (e1 e2 : InstalledPluginInfo) :
  reports plugin_dir folder e1 → reports plugin_dir folder e2 → e1 = e2.
Proof.
  intros [b1 H1|H1] [b2 H2|H2]; try done.
  - rewrite H1 in H2. apply app_str_inv_r in H2. by subst.
  - by destruct (H2 b1).
  - by destruct (H1 b2).
Qed.

Lemma joinpath_load_py (item : PurePath) :
  p_parts (joinpath item "load.py") = p_parts item ++ ["load.py"].
Proof. done. Qed.

(** One iteration of the scan: a qualifying folder adds its record. *)
Lemma scan_item_run (plugin_dir : PurePath) (c : string)
    (acc : list InstalledPluginInfo) (w : world) (ch : gmap string node) :
  stat (w_fs w) (p_parts plugin_dir) = inr (Dir ch) → c ≠ ".." →
  ∃ e w', reports plugin_dir c e
          ∧ scan_item plugin_dir c acc w
            = (Ret (acc ++ match ch !! c with
                           | Some n => if is_plugin_folder n then [e] else []
                           | None => []
                           end), w')
          ∧ w_fs w' = w_fs w.
Proof.
  intros Hst Hc. apply stat_dir_inv in Hst as (q & Hq & Hch).
  eexists. unfold scan_item. rewrite bind_run. unfold get_fs.
  cbv beta iota zeta. rewrite joinpath_load_py. cbn [p_parts].
  unfold is_dir. rewrite (stat_child _ _ _ _ _ Hq Hch Hc).
  pose proof (endswith_reports plugin_dir c) as Hrep.
  destruct (ch !! c) as [[d|sub]|] eqn:Hcc.
  1,3: eexists; split; [exact Hrep |];
       split; [by rewrite app_nil_r | done].
  pose proof (resolve_child _ _ _ _ _ Hq Hch Hc) as Hq'.
  pose proof (tree_lookup_snoc _ c _ _ Hch) as Hsub. rewrite Hcc in Hsub.
  unfold is_file. rewrite (stat_child _ _ _ _ _ Hq' Hsub) by done.
  unfold is_plugin_folder.
  destruct (endswith c DISABLED) eqn:He;
    destruct (sub !! "load.py") as [[|]|];
    eexists; (split; [exact Hrep |]);
    (split; [rewrite ?app_nil_r; reflexivity | done]).
Qed.

Lemma reports_path (plugin_dir : PurePath) (c : string) (e : InstalledPluginInfo) :
  reports plugin_dir c e →
  ip_path e = mkPath (p_root plugin_dir) (p_parts plugin_dir ++ [c]).
Proof. by intros []. Qed.

(** The whole loop: the records of the qualifying folders, in order. *)
Lemma scan_items_run (plugin_dir : PurePath) (ch : gmap string node)
    (items : list string) :
  ".." ∉ items →
  ∀ acc w, stat (w_fs w) (p_parts plugin_dir) = inr (Dir ch) →
    ∃ l w', scan_items plugin_dir items acc w = (Ret (acc ++ l), w')
            ∧ w_fs w' = w_fs w
            ∧ Forall2 (reports plugin_dir)
                (filter (λ c, plugin_child ch c = true) items) l.
Proof.
  induction items as [|c items IH]; intros Hdd acc w Hst.
  - exists [], w. rewrite app_nil_r. by repeat split.
  - apply not_elem_of_cons in Hdd as [Hc Hdd].
    destruct (scan_item_run plugin_dir c acc w ch Hst) as (e & w1 & Hrep & Hrun & Hfs);
      [done |].
    simpl. rewrite bind_run, Hrun.
    destruct (IH Hdd (acc ++ match ch !! c with
                             | Some n => if is_plugin_folder n then [e] else []
                             | None => []
                             end) w1) as (l & w2 & -> & Hfs2 & HF);
      [by rewrite Hfs |].
    eexists _, w2. rewrite <- app_assoc. split; [done |].
    split; [congruence |].
    rewrite filter_cons.
    assert (Hm : match ch !! c with
                 | Some n => if is_plugin_folder n then [e] else []
                 | None => []
                 end = if plugin_child ch c then [e] else [])
      by (unfold plugin_child; by destruct (ch !! c)).
    rewrite Hm. destruct (plugin_child ch c) eqn:Hp.
    + rewrite decide_True by done. by constructor.
    + by rewrite decide_False.
Qed.

Lemma plugin_child_spec (ch : gmap string node) (c : string) :
  plugin_child ch c = true ↔ ∃ n, ch !! c = Some n ∧ is_plugin_folder n = true.
Proof.
  unfold plugin_child. destruct (ch !! c) as [n|].
  - split; [eauto | by intros (? & [= <-] & ?)].
  - split; [done | by intros (? & ? & ?)].
Qed.

(** C8: the scan returns one record per direct child directory of the
    plugin root that holds [load.py] at its top level, disabled with the
    suffix stripped when the folder name ends in [".disabled"], enabled
    with the name unchanged otherwise; nothing else is reported; a missing
    plugin root gives the empty list and a warning in the log. *)
Theorem scan_reports_plugin_folders (E : env) (w : world) :
  (is_dir (w_fs w) (p_parts (plugin_dir_path E)) = false →
   get_installed_plugins E w
   = (Ret [],
      mkWorld (w_fs w)
        (w_log w ++ [(WARNING, "Plugin directory not found: "
                               +:+ path_str (plugin_dir_path E))])
        (w_calls w)))
  ∧ (∀ ch, stat (w_fs w) (p_parts (plugin_dir_path E)) = inr (Dir ch) →
           ch !! ".." = None →
     ∃ l w', get_installed_plugins E w = (Ret l, w')
             ∧ w_fs w' = w_fs w
             ∧ (∀ e, e ∈ l ↔
                     ∃ c n, ch !! c = Some n ∧ is_plugin_folder n = true
                            ∧ reports (plugin_dir_path E) c e)
             ∧ NoDup (ip_path <$> l)).
Proof.
  split.
  - intros Hd. unfold get_installed_plugins. rewrite bind_run. unfold get_fs.
    cbv beta iota zeta. by rewrite Hd.
  - intros ch Hst Hdd. unfold get_installed_plugins. rewrite bind_run.
    unfold get_fs. cbv beta iota zeta. unfold is_dir at 1, iterdir. rewrite Hst.
    cbn [negb].
    destruct (scan_items_run (plugin_dir_path E) ch (map_to_list ch).*1)
      with (acc := @nil InstalledPluginInfo) (w := w) as (l & w' & Hrun & Hfs & HF).
    { intros [[c n] [Hc Hin]]%list_elem_of_fmap. simpl in Hc. subst c.
      apply elem_of_map_to_list in Hin. congruence. }
    { done. }
    exists l, w'. split; [done |]. split; [done |]. split.
    + intros e. split.
      * intros He. destruct (proj1 (list_elem_of_lookup _ _) He) as [i Hi].
        destruct (Forall2_lookup_r _ _ _ _ _ HF Hi) as (c & Hc & Hrep).
        apply list_elem_of_lookup_2, list_elem_of_filter in Hc as [Hq _].
        apply plugin_child_spec in Hq as (n & Hn & Hq). eauto.
      * intros (c & n & Hn & Hq & Hrep).
        assert (Hc : c ∈ filter (λ c, plugin_child ch c = true)
                            (map_to_list ch).*1).
        { apply list_elem_of_filter. split; [apply plugin_child_spec; eauto |].
          apply list_elem_of_fmap. exists (c, n). split; [done |].
          by apply elem_of_map_to_list. }
        destruct (proj1 (list_elem_of_lookup _ _) Hc) as [i Hi].
        destruct (Forall2_lookup_l _ _ _ _ _ HF Hi) as (e' & He' & Hrep').
        rewrite (reports_functional _ _ _ _ Hrep Hrep').
        by eapply list_elem_of_lookup_2.
    + assert (Hpaths : ip_path <$> l
               = (λ c, mkPath (p_root (plugin_dir_path E))
                         (p_parts (plugin_dir_path E) ++ [c]))
                 <$> filter (λ c, plugin_child ch c = true)
                       (map_to_list ch).*1).
      { clear -HF. induction HF as [|c e cs l Hrep _ IH]; [done |].
        rewrite !fmap_cons. by rewrite IH, (reports_path _ _ _ Hrep). }
      rewrite Hpaths. apply NoDup_fmap_2.
      * intros c1 c2 [= H]. by apply app_inv_head in H as [= ->].
      * apply NoDup_filter, NoDup_fst_map_to_list.
Qed.

Lemma scan_reports_plugin_folders_witness :
  get_installed_plugins sample_env (world_of fs_no_plugins)
  = (Ret [], mkWorld fs_no_plugins
               [(WARNING, "Plugin directory not found: /plugins")] [])
  ∧ ∃ l w', get_installed_plugins sample_env (world_of fs_mixed) = (Ret l, w')
            ∧ w_fs w' = fs_mixed
            ∧ (∀ e, e ∈ l ↔
                    ∃ c n,
                      mixed_children !! c = Some n
                      ∧ is_plugin_folder n = true
                      ∧ reports plugins_dir c e)
            ∧ NoDup (ip_path <$> l).
Proof.
  split.
  - apply (proj1 (scan_reports_plugin_folders sample_env (world_of fs_no_plugins))).
    vm_compute. reflexivity.
  - apply (proj2 (scan_reports_plugin_folders sample_env (world_of fs_mixed))).
    + vm_compute. reflexivity.
    + vm_compute. reflexivity.
Defined.

(** ** The manifest fetcher *)

(** Run the next [_status_update] of the goal. *)
Ltac step_status w' Hrun Hfs Hnote :=
  rewrite ?bind_run;
  match goal with
  | |- context [_status_update ?cb ?m ?ty ?w] =>
      destruct (status_update_run cb m ty w) as (w' & Hrun & Hfs & Hnote);
      rewrite Hrun
  end.

(** What a status update adds to the two traces. *)
Lemma status_update_extends (cb : option callback) (msg : string)
    (ty : option string) (w w' : world) :
  _status_update cb msg ty w = (Ret tt, w') →
  (∃ pre, w_calls w' = w_calls w ++ pre)
  ∧ (∃ pre, w_log w' = w_log w ++ pre)
  ∧ (cb = None → w_calls w' = w_calls w).
Proof.
  intros Hrun.
  destruct (status_update_run cb msg ty w) as (w'' & Hrun' & _ & H).
  rewrite Hrun in Hrun'. injection Hrun' as <-.
  destruct cb; destruct H as [-> ->].
  - split; [eauto |]. split; [eauto | done].
  - split; [exists []; by rewrite app_nil_r |]. split; [eauto | done].
Qed.

Lemma py_in_pure (k : string) (e : json) (w : world) :
  ∃ r, py_in k e w = (r, w).
Proof. destruct e; simpl; eauto. Qed.

Lemma py_all_in_pure (ks : list string) (e : json) (w : world) :
  ∃ r, py_all_in ks e w = (r, w).
Proof.
  induction ks as [|k ks IH]; simpl; [by eexists |].
  rewrite bind_run. destruct (py_in_pure k e w) as [[[|]|] ->]; eauto.
Qed.

Lemma setdefault_pure (k : string) (e : json) (w : world) :
  ∃ r, setdefault k e w = (r, w).
Proof. destruct e; simpl; eauto. Qed.

Lemma dict_get_pure (k : string) (d e : json) (w : world) :
  ∃ r, dict_get k d e w = (r, w).
Proof. destruct e; simpl; eauto. Qed.

Lemma validate_entries_cons (E : env) (e : json) (rest acc : list json) :
  validate_entries E (e :: rest) acc
  = (ok ← py_all_in REQUIRED_KEYS e;
     if ok : bool then
       e1 ← setdefault "edmcCompatibility" e;
       e2 ← setdefault "repositoryUrl" e1;
       validate_entries E rest (acc ++ [e2])
     else
       v ← dict_get "id" (JStr "Unknown ID") e;
       logger WARNING
         ("Skipping invalid plugin entry in manifest: " +:+ py_str E v);;
       validate_entries E rest acc).
Proof. done. Qed.

(** The validation loop only writes to the log. *)
Lemma validate_entries_frame (E : env) (entries : list json) :
  ∀ acc w, ∃ r w', validate_entries E entries acc w = (r, w')
                   ∧ w_fs w' = w_fs w
                   ∧ w_calls w' = w_calls w
                   ∧ ∃ pre, w_log w' = w_log w ++ pre.
Proof.
  induction entries as [|e entries IH]; intros acc w.
  - eexists _, w. repeat split. exists []. by rewrite app_nil_r.
  - rewrite validate_entries_cons, bind_run.
    destruct (py_all_in_pure REQUIRED_KEYS e w) as [[[|]|ex] ->].
    + rewrite bind_run.
      destruct (setdefault_pure "edmcCompatibility" e w) as [[e1|ex] ->].
      * rewrite bind_run.
        destruct (setdefault_pure "repositoryUrl" e1 w) as [[e2|ex] ->].
        -- apply IH.
        -- eexists _, w. repeat split. exists []. by rewrite app_nil_r.
      * eexists _, w. repeat split. exists []. by rewrite app_nil_r.
    + rewrite bind_run.
      destruct (dict_get_pure "id" (JStr "Unknown ID") e w) as [[v|ex] ->].
      * rewrite bind_run, logger_run.
        match goal with |- context [validate_entries E entries acc ?w1] =>
          destruct (IH acc w1) as (r & w' & -> & Hfs & Hc & pre & Hl) end.
        eexists _, w'. repeat split; try done.
        simpl in Hl. rewrite Hl, <- app_assoc. eauto.
      * eexists _, w. repeat split. exists []. by rewrite app_nil_r.
    + eexists _, w. repeat split. exists []. by rewrite app_nil_r.
Qed.

Lemma py_all_in_object (ks : list string) (fields : gmap string json) (w : world) :
  py_all_in ks (JObj fields) w
  = (Ret (forallb (λ k, bool_decide (is_Some (fields !! k))) ks), w).
Proof.
  induction ks as [|k ks IH]; simpl; [done |].
  rewrite bind_run. simpl. unfold ret at 1.
  destruct (bool_decide (is_Some (fields !! k))); [apply IH | done].
Qed.

Lemma setdefault_object (k : string) (m : gmap string json) (w : world) :
  setdefault k (JObj m) w
  = (Ret (JObj (match m !! k with Some _ => m | None => <[k := JNull]> m end)), w).
Proof. done. Qed.

Lemma dict_get_object (k : string) (d : json) (m : gmap string json) (w : world) :
  dict_get k d (JObj m) w
  = (Ret (match m !! k with Some v => v | None => d end), w).
Proof. done. Qed.

(** On a list of objects the loop keeps the well-formed ones, in order,
    with their optional keys defaulted. *)
Lemma validate_entries_objects (E : env) (objs : list (gmap string json)) :
  ∀ acc w, ∃ w', validate_entries E (JObj <$> objs) acc w
                 = (Ret (acc ++ (JObj ∘ with_defaults <$> filter (λ m, well_formed m = true) objs)), w')
                 ∧ w_fs w' = w_fs w ∧ w_calls w' = w_calls w.
Proof.
  induction objs as [|m objs IH]; intros acc w.
  - exists w. simpl. by rewrite app_nil_r.
  - rewrite fmap_cons, validate_entries_cons, bind_run, py_all_in_object.
    fold (well_formed m).
    rewrite filter_cons. destruct (well_formed m) eqn:Hwf.
    + rewrite decide_True by done.
      rewrite bind_run, setdefault_object, bind_run, setdefault_object.
      fold (with_defaults m).
      destruct (IH (acc ++ [JObj (with_defaults m)]) w) as (w' & Hrun & H).
      exists w'. split; [|done].
      rewrite <- app_assoc in Hrun. rewrite fmap_cons. exact Hrun.
    + rewrite decide_False by done.
      rewrite bind_run, dict_get_object, bind_run, logger_run.
      match goal with |- context [validate_entries E _ acc ?w1] =>
        destruct (IH acc w1) as (w' & Hrun & Hfs & Hc) end.
      exists w'. by split.
Qed.

Lemma trace_refl (w : world) :
  (∃ pre, w_calls w = w_calls w ++ pre) ∧ (∃ pre, w_log w = w_log w ++ pre).
Proof. split; exists []; by rewrite app_nil_r. Qed.

Lemma trace_trans (w0 w1 w2 : world) :
  (∃ pre, w_calls w1 = w_calls w0 ++ pre) → (∃ pre, w_calls w2 = w_calls w1 ++ pre) →
  ∃ pre, w_calls w2 = w_calls w0 ++ pre.
Proof. intros [p1 H1] [p2 H2]. exists (p1 ++ p2). by rewrite H2, H1, app_assoc. Qed.

Lemma log_trans (w0 w1 w2 : world) :
  (∃ pre, w_log w1 = w_log w0 ++ pre) → (∃ pre, w_log w2 = w_log w1 ++ pre) →
  ∃ pre, w_log w2 = w_log w0 ++ pre.
Proof. intros [p1 H1] [p2 H2]. exists (p1 ++ p2). by rewrite H2, H1, app_assoc. Qed.

(** Every handler of the fetch reports an error and returns. *)
Lemma fetch_handlers_run (cb : option callback) (e : exn) (w0 w : world) :
  (∃ pre, w_calls w = w_calls w0 ++ pre) →
  (∃ pre, w_log w = w_log w0 ++ pre) →
  (cb = None → w_calls w = w_calls w0) →
  ∃ w', fetch_handlers cb e w = (Ret tt, w')
        ∧ w_fs w' = w_fs w ∧ error_reported cb w0 w'.
Proof.
  intros Hc Hl Hn.
  destruct e; unfold fetch_handlers;
    match goal with |- context [_status_update cb ?m (Some "error") w] =>
      destruct (status_update_run cb m (Some "error") w) as (w' & Hrun & Hfs & _)
    end;
    exists w'; (split; [exact Hrun |]); (split; [exact Hfs |]);
    by eapply error_reported_step.
Qed.

(** The fetch always returns, leaves the file system alone, and answers
    each of the listed failures with the empty list and an error. *)
Lemma fetch_run (E : env) (url : string) (cb : option callback) (w : world) :
  ∃ l w', fetch_available_plugins E url cb w = (Ret l, w')
          ∧ w_fs w' = w_fs w
          ∧ (fetch_failure E url → l = [] ∧ error_reported cb w w').
Proof.
  unfold fetch_available_plugins, fetch_failure.
  destruct (String.eqb_spec url "") as [->|Hurl].
  { step_status w1 Hrun Hfs Hnote. exists [], w1. split; [done |].
    split; [done |]. intros _. split; [done |].
    destruct (trace_refl w) as [Hc Hl]. by eapply error_reported_step. }
  step_status w1 Hrun Hfs Hnote.
  destruct (status_update_extends _ _ _ _ _ Hrun) as (Hc1 & Hl1 & Hn1).
  unfold try_except, fetch_body. rewrite bind_run. unfold requests_get.
  destruct (http_get E url) as [msg|r].
  { (* no response *)
    unfold raise at 1. rewrite bind_run.
    destruct (fetch_handlers_run cb (RequestException msg) w w1)
      as (w2 & -> & Hfs2 & Herr); try done.
    exists [], w2. split; [done |]. split; [congruence | done]. }
  unfold ret at 1. rewrite bind_run. unfold raise_for_status.
  destruct ((400 <=? status_code r)%Z && (status_code r <? 600)%Z) eqn:Hst.
  { (* HTTP error status *)
    unfold raise at 1. rewrite bind_run.
    destruct (fetch_handlers_run cb (RequestException "HTTPError") w w1)
      as (w2 & -> & Hfs2 & Herr); try done.
    exists [], w2. split; [done |]. split; [congruence | done]. }
  assert (Hst' : ¬ (400 ≤ status_code r < 600)%Z).
  { apply andb_false_iff in Hst as [H%Z.leb_gt | H%Z.ltb_ge]; lia. }
  unfold ret at 1. rewrite bind_run. unfold response_json.
  destruct (r_json r) as [v|].
  2:{ (* the body is not JSON *)
    unfold raise at 1. rewrite bind_run.
    destruct (fetch_handlers_run cb (JSONDecodeError "Expecting value") w w1)
      as (w2 & -> & Hfs2 & Herr); try done.
    exists [], w2. split; [done |]. split; [congruence | done]. }
  unfold ret at 1.
  destruct v as [| | | |entries|].
  5:{ (* a list: validate it *)
    rewrite bind_run.
    destruct (validate_entries_frame E entries [] w1)
      as ([valid|e] & w2 & -> & Hfs2 & Hc2 & Hl2).
    - step_status w3 Hrun3 Hfs3 Hnote3. exists valid, w3.
      split; [done |]. split; [congruence |]. intros [? | [? | []]]; done.
    - rewrite bind_run.
      destruct (fetch_handlers_run cb e w w2) as (w3 & -> & Hfs3 & Herr).
      + rewrite Hc2. exact Hc1.
      + by eapply log_trans.
      + intros Hcb. rewrite Hc2. by apply Hn1.
      + exists [], w3. split; [done |]. split; [congruence | done]. }
  all: step_status w2 Hrun2 Hfs2 Hnote2; exists [], w2;
    (split; [done |]); (split; [congruence |]); intros _; (split; [done |]);
    by eapply error_reported_step.
Qed.

(** C6 (amended): for every input, [fetch_available_plugins] returns (no
    exception escapes) and leaves the file system alone; a missing URL, a
    network error, a response with a status from 400 to 599, a body that
    is not JSON and a JSON root that is not a list each give the empty
    list, and the last status notification is an error. *)
Theorem fetch_fails_soft (E : env) (url : string) (cb : option callback)
    (w : world) :
  (∃ l w', fetch_available_plugins E url cb w = (Ret l, w') ∧ w_fs w' = w_fs w)
  ∧ (fetch_failure E url →
     ∃ w', fetch_available_plugins E url cb w = (Ret [], w')
           ∧ error_reported cb w w').
Proof.
  destruct (fetch_run E url cb w) as (l & w' & Hrun & Hfs & Hfail).
  split; [eauto |]. intros Hf. destruct (Hfail Hf) as [-> Herr]. eauto.
Qed.

Lemma fetch_fails_soft_witness :
  ∃ w', fetch_available_plugins sample_env "unreachable" None (world_of fs_empty)
        = (Ret [], w')
        ∧ error_reported None (world_of fs_empty) w'.
Proof.
  apply (proj2 (fetch_fails_soft sample_env "unreachable" None (world_of fs_empty))).
  right. vm_compute. exact I.
Defined.

(** C6 (as stated) fails: a response with the status 300, which is not a
    2xx status, and a manifest as its body is fetched like a 200 one; the
    result is not empty and no error is reported. *)
Lemma fetch_accepts_status_300 :
  (∃ r, http_get sample_env "manifest-300" = inr r ∧ status_code r = 300%Z)
  ∧ fetch_available_plugins sample_env "manifest-300" None (world_of fs_empty)
    = (Ret [sample_record_filled],
       mkWorld fs_empty
         [(INFO, "Fetching plugin manifest from manifest-300...");
          (INFO, "Successfully fetched 1 plugins.")] []).
Proof. split; [by eexists | by vm_compute]. Qed.

(** A manifest that is a list of objects: the fetch returns its
    well-formed records, in order, with the optional keys defaulted. *)
Lemma fetch_keeps_well_formed_objects (E : env) (url : string)
    (cb : option callback) (w : world) (r : Response)
    (objs : list (gmap string json)) :
  url ≠ "" → http_get E url = inr r →
  ¬ (400 ≤ status_code r < 600)%Z →
  r_json r = Some (JList (JObj <$> objs)) →
  ∃ w', fetch_available_plugins E url cb w
        = (Ret (JObj ∘ with_defaults <$> filter (λ m, well_formed m = true) objs), w').
Proof.
  intros Hurl Hget Hst Hjson. unfold fetch_available_plugins.
  apply String.eqb_neq in Hurl. rewrite Hurl.
  step_status w1 Hrun Hfs Hnote.
  unfold try_except, fetch_body. rewrite bind_run. unfold requests_get.
  rewrite Hget. unfold ret at 1. rewrite bind_run. unfold raise_for_status.
  assert (((400 <=? status_code r)%Z && (status_code r <? 600)%Z) = false) as ->.
  { apply andb_false_iff.
    destruct (Z.leb_spec 400 (status_code r)); [|by left].
    right. apply Z.ltb_ge. lia. }
  unfold ret at 1. rewrite bind_run. unfold response_json. rewrite Hjson.
  unfold ret at 1. rewrite bind_run.
  destruct (validate_entries_objects E objs [] w1) as (w2 & -> & _).
  step_status w3 Hrun3 Hfs3 Hnote3. by exists w3.
Qed.

(** C5, at the failing input: a manifest with one well-formed record is
    fetched as that record; the same manifest with the number 5 as a
    second entry is fetched as the empty list, with an error status: the
    entry that is no object is not skipped, it fails the whole fetch. *)
Theorem fetch_fails_on_non_object_entry :
  fetch_available_plugins sample_env "manifest" None (world_of fs_empty)
  = (Ret [sample_record_filled],
     mkWorld fs_empty
       [(INFO, "Fetching plugin manifest from manifest...");
        (INFO, "Successfully fetched 1 plugins.")] [])
  ∧ fetch_available_plugins sample_env "manifest-with-number" None
      (world_of fs_empty)
    = (Ret [],
       mkWorld fs_empty
         [(INFO, "Fetching plugin manifest from manifest-with-number...");
          (ERROR, "An unexpected error occurred while fetching plugins: "
                  +:+ "argument of type 'int' is not iterable")] []).
Proof. split; by vm_compute. Qed.

(** ** The status callback cannot steer an operation *)

Lemma fs_sim_ret {A} (a : A) : fs_sim (ret a) (ret a).
Proof. by intros w w' H. Qed.

Lemma fs_sim_raise {A} (e : exn) : fs_sim (@raise A e) (raise e).
Proof. by intros w w' H. Qed.

Lemma fs_sim_bind {A B} (m m' : M A) (k k' : A → M B) :
  fs_sim m m' → (∀ a, fs_sim (k a) (k' a)) → fs_sim (m ≫= k) (m' ≫= k').
Proof.
  intros Hm Hk w w' H. rewrite !bind_run. specialize (Hm w w' H).
  destruct (m w) as [[a|e] w1], (m' w') as [[a'|e'] w1']; destruct Hm as [Hr Hf];
    simpl in *; try done.
  - injection Hr as <-. by apply Hk.
  - by injection Hr as <-.
Qed.

Lemma fs_sim_try_except {A} (m m' : M A) (h h' : exn → M A) :
  fs_sim m m' → (∀ e, fs_sim (h e) (h' e)) →
  fs_sim (try_except m h) (try_except m' h').
Proof.
  intros Hm Hh w w' H. unfold try_except. specialize (Hm w w' H).
  destruct (m w) as [[a|e] w1], (m' w') as [[a'|e'] w1']; destruct Hm as [Hr Hf];
    simpl in *; try done.
  injection Hr as <-. by apply Hh.
Qed.

Lemma fs_sim_try_finally {A} (m m' : M A) (fin fin' : M unit) :
  fs_sim m m' → fs_sim fin fin' → fs_sim (try_finally m fin) (try_finally m' fin').
Proof.
  intros Hm Hfin w w' H. unfold try_finally. specialize (Hm w w' H).
  destruct (m w) as [r w1], (m' w') as [r' w1']. destruct Hm as [Hr Hf].
  simpl in *. specialize (Hfin w1 w1' Hf).
  destruct (fin w1) as [[[]|e] w2], (fin' w1') as [[[]|e'] w2'];
    destruct Hfin as [Hr2 Hf2]; simpl in *; try done;
    split; simpl; congruence.
Qed.

Lemma fs_sim_status (cb cb' : option callback) (msg : string) (ty : option string) :
  fs_sim (_status_update cb msg ty) (_status_update cb' msg ty).
Proof.
  intros w w' H.
  destruct (status_update_run cb msg ty w) as (w1 & -> & Hf & _).
  destruct (status_update_run cb' msg ty w') as (w1' & -> & Hf' & _).
  split; simpl; congruence.
Qed.

Lemma fs_sim_logger (lv : level) (msg : string) : fs_sim (logger lv msg) (logger lv msg).
Proof. by intros w w' H. Qed.

Lemma fs_sim_get_fs : fs_sim get_fs get_fs.
Proof. intros w w' H. split; simpl; [by rewrite H | done]. Qed.

Lemma fs_sim_lift_fs (f : node → errno + node) : fs_sim (lift_fs f) (lift_fs f).
Proof.
  intros w w' H. unfold lift_fs. rewrite H. by destruct (f (w_fs w')).
Qed.

Lemma fs_sim_lift_rmtree (p : list string) : fs_sim (lift_rmtree p) (lift_rmtree p).
Proof.
  intros w w' H. unfold lift_rmtree. rewrite H.
  by destruct (rmtree (w_fs w') p) as [fs' [e|]].
Qed.

Lemma fs_sim_for_each {A} (l : list A) (body : A → M unit) :
  (∀ x, fs_sim (body x) (body x)) → fs_sim (for_each l body) (for_each l body).
Proof.
  intros Hb. induction l as [|x l IH]; simpl; [apply fs_sim_ret |].
  apply (fs_sim_bind (body x) (body x)); [apply Hb | by intros _].
Qed.

(** Decompose a goal [fs_sim m m'] along the structure of [m]. *)
Ltac sim_step :=
  first
    [ apply fs_sim_ret | apply fs_sim_raise | apply fs_sim_status
    | apply fs_sim_logger | apply fs_sim_get_fs | apply fs_sim_lift_fs
    | apply fs_sim_lift_rmtree
    | apply fs_sim_for_each; intros ?
    | apply fs_sim_try_finally
    | apply fs_sim_try_except; [|intros ?]
    | apply fs_sim_bind; [|intros ?]
    | match goal with
      | |- fs_sim (if ?b then _ else _) _ => destruct b
      | |- fs_sim (match ?x with _ => _ end) _ => destruct x
      | |- fs_sim (let '(_, _) := ?x in _) _ => destruct x
      end ].

Ltac sim := repeat sim_step.

Lemma fs_sim_validate_entries (E : env) (entries : list json) :
  ∀ acc, fs_sim (validate_entries E entries acc) (validate_entries E entries acc).
Proof.
  induction entries as [|e entries IH]; intros acc; [apply fs_sim_ret |].
  rewrite validate_entries_cons.
  assert (Hall : ∀ ks, fs_sim (py_all_in ks e) (py_all_in ks e)).
  { induction ks as [|k ks IHk]; simpl; [apply fs_sim_ret |].
    apply fs_sim_bind; [unfold py_in; sim | intros []; [done | apply fs_sim_ret]]. }
  apply fs_sim_bind; [apply Hall |]. intros [|].
  - unfold setdefault. sim; apply IH.
  - unfold dict_get. sim; apply IH.
Qed.

Lemma fs_sim_fetch (E : env) (url : string) (cb cb' : option callback) :
  fs_sim (fetch_available_plugins E url cb) (fetch_available_plugins E url cb').
Proof.
  unfold fetch_available_plugins, fetch_body, fetch_handlers, requests_get,
    raise_for_status, response_json.
  sim; apply fs_sim_validate_entries.
Qed.

Lemma fs_sim_extractall (members : list ZipInfo) (p : list string) :
  fs_sim (extractall members p) (extractall members p).
Proof. unfold extractall, extract_member. sim. Qed.

Lemma fs_sim_install (E : env) (info : PluginInfo) (cb cb' : option callback) :
  fs_sim (install_plugin E info cb) (install_plugin E info cb').
Proof.
  unfold install_plugin, install_body, install_handlers, install_finally,
    install_conflict, download_to, requests_get, raise_for_status, ZipFile.
  sim; apply fs_sim_extractall.
Qed.

Lemma fs_sim_remove (E : env) (folder : string) (cb cb' : option callback) :
  fs_sim (remove_plugin E folder cb) (remove_plugin E folder cb').
Proof. unfold remove_plugin. sim. Qed.

Lemma fs_sim_enable (E : env) (base : string) (cb cb' : option callback) :
  fs_sim (enable_plugin E base cb) (enable_plugin E base cb').
Proof. unfold enable_plugin, try_except_OSError. sim. Qed.

Lemma fs_sim_disable (E : env) (base : string) (cb cb' : option callback) :
  fs_sim (disable_plugin E base cb) (disable_plugin E base cb').
Proof. unfold disable_plugin, try_except_OSError. sim. Qed.

(** C10: whatever the status callback does, [_status_update] returns
    without touching the file system; an exception raised by the callback
    is caught and logged as an error; without a callback the message goes
    to the logger at the level of its type; and for each of fetch,
    install, remove, enable and disable the value returned and the file
    system left behind are the same under any two callbacks (a raising
    one and a silent one, or none at all). *)
Theorem status_callback_isolated :
  (∀ cb msg ty w,
     ∃ w', _status_update cb msg ty w = (Ret tt, w') ∧ w_fs w' = w_fs w)
  ∧ (∀ (f : callback) msg ty w e,
       f (w_calls w) msg ty = Some e →
       _status_update (Some f) msg ty w
       = (Ret tt,
          mkWorld (w_fs w)
            (w_log w ++ [(ERROR, "Error in status callback: " +:+ exn_str e)])
            (w_calls w ++ [(msg, ty)])))
  ∧ (∀ msg w,
       _status_update None msg (Some "error") w
       = (Ret tt, mkWorld (w_fs w) (w_log w ++ [(ERROR, msg)]) (w_calls w))
       ∧ _status_update None msg (Some "warning") w
         = (Ret tt, mkWorld (w_fs w) (w_log w ++ [(WARNING, msg)]) (w_calls w))
       ∧ _status_update None msg (Some "info") w
         = (Ret tt, mkWorld (w_fs w) (w_log w ++ [(INFO, msg)]) (w_calls w)))
  ∧ (∀ E cb cb' w,
       (∀ url, same_result (fetch_available_plugins E url cb w)
                 (fetch_available_plugins E url cb' w))
       ∧ (∀ info, same_result (install_plugin E info cb w)
                    (install_plugin E info cb' w))
       ∧ (∀ folder, same_result (remove_plugin E folder cb w)
                      (remove_plugin E folder cb' w))
       ∧ (∀ base, same_result (enable_plugin E base cb w)
                    (enable_plugin E base cb' w))
       ∧ (∀ base, same_result (disable_plugin E base cb w)
                    (disable_plugin E base cb' w))).
Proof.
  split; [|split; [|split]].
  - intros cb msg ty w.
    destruct (status_update_run cb msg ty w) as (w' & H & Hfs & _). eauto.
  - intros f msg ty w e He. simpl. by rewrite He.
  - intros msg w. by repeat split.
  - intros E cb cb' w. split; [|split; [|split; [|split]]]; intros x.
    + by apply fs_sim_fetch.
    + by apply fs_sim_install.
    + by apply fs_sim_remove.
    + by apply fs_sim_enable.
    + by apply fs_sim_disable.
Qed.

(** ** Install, on the sample host *)

(** C2, at the failing input: an archive that wraps its content in a
    folder ["P/"] is installed as [/plugins/P/load.py], and an archive
    without wrapping folder as [/plugins/P/...]: no double nesting.  But
    an archive whose only entry is a regular file named ["P"] has no
    top-level directory at all, and is still taken for a wrapped one:
    install returns true and [/plugins/P] is that regular file, not a
    directory holding the content of the archive. *)
Theorem install_moves_lone_file_into_place :
  (let r := install_plugin sample_env (plugin_P "wrapped") None (world_of fs_empty) in
   r.1 = Ret true
   ∧ w_fs r.2 = Dir {[ "plugins" := Dir {[ "P" := Dir {[ "load.py" := File "code" ]} ]} ]})
  ∧ (let r := install_plugin sample_env (plugin_P "flat") None (world_of fs_empty) in
     r.1 = Ret true
     ∧ w_fs r.2
       = Dir {[ "plugins" :=
                  Dir {[ "P" := Dir (<["load.py" := File "code"]>
                                        {[ "lib" := Dir {[ "x.py" := File "x" ]} ]}) ]} ]})
  ∧ (let r := install_plugin sample_env (plugin_P "lone-file") None (world_of fs_empty) in
     sample_unzip "lone-file" = Some [mkZipInfo "P" (Stored "text")]
     ∧ r.1 = Ret true
     ∧ w_fs r.2 = Dir {[ "plugins" := Dir {[ "P" := File "text" ]} ]}
     ∧ is_dir (w_fs r.2) ["plugins"; "P"] = false).
Proof. repeat split; by vm_compute. Qed.


(** ** Paths without [".."] *)

(** Such a path resolves to itself when the directories on the way
    exist, and names nothing otherwise. *)
Lemma resolve_plain (fs : node) (p : list string) :
  ".." ∉ p →
  ∀ cur, match resolve fs cur p with
         | inr q => q = cur ++ p
         | inl _ => tree_lookup (cur ++ p) fs = None
         end.
Proof.
  induction p as [|c p IH]; intros Hp cur; simpl.
  - by rewrite app_nil_r.
  - apply not_elem_of_cons in Hp as [Hc Hp].
    destruct (tree_lookup cur fs) as [[d|ch]|] eqn:Hcur.
    + by rewrite tree_lookup_app, Hcur.
    + apply not_eq_sym, String.eqb_neq in Hc. rewrite Hc.
      specialize (IH Hp (cur ++ [c])). by rewrite <- app_assoc in IH.
    + by rewrite tree_lookup_app, Hcur.
Qed.

Lemma locate_plain (fs : node) (p q : list string) :
  ".." ∉ p → locate fs p = inr q → q = p.
Proof.
  intros Hp Hq. pose proof (resolve_plain fs p Hp []) as H.
  unfold locate in Hq. by rewrite Hq in H.
Qed.

Lemma stat_plain (fs : node) (p : list string) :
  ".." ∉ p →
  match stat fs p with
  | inr n => tree_lookup p fs = Some n
  | inl _ => tree_lookup p fs = None
  end.
Proof.
  intros Hp. unfold stat, locate. pose proof (resolve_plain fs p Hp []) as H.
  destruct (resolve fs [] p) as [e|q]; simpl in H; [done |]. subst q.
  by destruct (tree_lookup p fs).
Qed.

Lemma path_exists_plain (fs : node) (p : list string) :
  ".." ∉ p → path_exists fs p = true ↔ is_Some (tree_lookup p fs).
Proof.
  intros Hp. unfold path_exists. pose proof (stat_plain fs p Hp) as H.
  destruct (stat fs p); rewrite H; split; try done; by intros [].
Qed.

Lemma path_exists_plain_false (fs : node) (p : list string) :
  ".." ∉ p → path_exists fs p = false ↔ tree_lookup p fs = None.
Proof.
  intros Hp. pose proof (path_exists_plain fs p Hp) as H.
  destruct (path_exists fs p), (tree_lookup p fs) as [n|]; split; try done.
  - intros _. by destruct (proj1 H eq_refl).
  - intros _. assert (is_Some (Some n)) as Hs by eauto. by apply H in Hs.
Qed.

Lemma is_dir_plain (fs : node) (p : list string) :
  ".." ∉ p → is_dir fs p = true ↔ ∃ ch, tree_lookup p fs = Some (Dir ch).
Proof.
  intros Hp. unfold is_dir. pose proof (stat_plain fs p Hp) as H.
  destruct (stat fs p) as [|[d|ch]]; rewrite H; split; try done; eauto.
  - by intros [? ?].
  - by intros [? ?].
Qed.

(** When the entry exists, the path resolves. *)
Lemma locate_plain_exists (fs : node) (p : list string) :
  ".." ∉ p → is_Some (tree_lookup p fs) → locate fs p = inr p.
Proof.
  intros Hp [n Hn]. pose proof (resolve_plain fs p Hp []) as H. unfold locate.
  destruct (resolve fs [] p); simpl in H; [congruence | by subst].
Qed.

(** A new entry in an existing directory resolves as well. *)
Lemma locate_plain_child (fs : node) (p : list string) (c : string)
    (ch : gmap string node) :
  ".." ∉ p → c ≠ ".." → tree_lookup p fs = Some (Dir ch) →
  locate fs (p ++ [c]) = inr (p ++ [c]).
Proof.
  intros Hp Hc Hdir.
  assert (locate fs p = inr p) as Hl by (apply locate_plain_exists; eauto).
  by apply (resolve_child _ _ _ _ _ Hl Hdir).
Qed.

(** ** Changing one entry of the tree *)

Lemma tree_alter_cons2 (f : option node → option node) (c c' : string)
    (r : list string) (ch : gmap string node) :
  tree_alter f (c :: c' :: r) (Dir ch)
  = match ch !! c with
    | Some m => Dir (<[c := tree_alter f (c' :: r) m]> ch)
    | None => Dir ch
    end.
Proof. done. Qed.

Lemma tree_alter_cons_ne (f : option node → option node) (c : string)
    (r : list string) (ch : gmap string node) :
  r ≠ [] →
  tree_alter f (c :: r) (Dir ch)
  = match ch !! c with
    | Some m => Dir (<[c := tree_alter f r m]> ch)
    | None => Dir ch
    end.
Proof. by destruct r. Qed.

Lemma tree_alter_cons1 (f : option node → option node) (c : string)
    (ch : gmap string node) :
  tree_alter f [c] (Dir ch) = Dir (partial_alter f c ch).
Proof. done. Qed.

Lemma tree_alter_file (f : option node → option node) (q : list string)
    (d : string) :
  tree_alter f q (File d) = File d.
Proof. by destruct q as [|? [|]]. Qed.

Lemma tree_lookup_cons (c : string) (r : list string) (ch : gmap string node) :
  tree_lookup (c :: r) (Dir ch)
  = match ch !! c with Some m => tree_lookup r m | None => None end.
Proof. done. Qed.

(** The entries next to the changed one are as before. *)
Lemma tree_alter_frame (f : option node → option node) (pd : list string)
    (x y : string) (s t : list string) :
  x ≠ y →
  ∀ fs, tree_lookup (pd ++ y :: t) (tree_alter f (pd ++ x :: s) fs)
        = tree_lookup (pd ++ y :: t) fs.
Proof.
  intros Hxy. induction pd as [|c pd IH]; intros [d|ch];
    rewrite ?tree_alter_file; try done.
  - rewrite !app_nil_l. destruct s as [|c' s].
    + by rewrite tree_alter_cons1, !tree_lookup_cons, lookup_partial_alter_ne.
    + rewrite tree_alter_cons2. destruct (ch !! x) as [m|]; [|done].
      by rewrite !tree_lookup_cons, lookup_insert_ne.
  - rewrite <- !app_comm_cons.
    rewrite tree_alter_cons_ne by by destruct pd.
    destruct (ch !! c) as [m|] eqn:Hc; [|done].
    rewrite !tree_lookup_cons, lookup_insert_eq, Hc. apply IH.
Qed.

(** The changed entry itself, when it existed. *)
Lemma tree_alter_self (f : option node → option node) (q : list string) :
  q ≠ [] →
  ∀ fs, is_Some (tree_lookup q fs) →
        tree_lookup q (tree_alter f q fs) = f (tree_lookup q fs).
Proof.
  induction q as [|c q IH]; [done |]. intros _ [d|ch] [n Hn]; [done |].
  rewrite tree_lookup_cons in Hn. rewrite (tree_lookup_cons c q ch).
  destruct (ch !! c) as [m|] eqn:Hc; [|done].
  destruct q as [|c' q].
  - rewrite tree_alter_cons1, tree_lookup_cons, lookup_partial_alter_eq, Hc.
    simpl. by destruct (f (Some m)).
  - rewrite tree_alter_cons2, Hc, tree_lookup_cons, lookup_insert_eq.
    apply IH; [done | eauto].
Qed.

(** A new entry in an existing directory. *)
Lemma tree_alter_new (f : option node → option node) (p : list string)
    (c : string) (ch : gmap string node) (fs : node) :
  tree_lookup p fs = Some (Dir ch) →
  tree_lookup (p ++ [c]) (tree_alter f (p ++ [c]) fs) = f (ch !! c).
Proof.
  revert fs. induction p as [|a p IH]; intros fs Hp.
  - injection Hp as ->. rewrite app_nil_l, tree_alter_cons1, tree_lookup_cons.
    rewrite lookup_partial_alter_eq. by destruct (f (ch !! c)).
  - destruct fs as [d|ch0]; [done |]. rewrite tree_lookup_cons in Hp.
    destruct (ch0 !! a) as [m|] eqn:Ha; [|done].
    rewrite <- !app_comm_cons.
    rewrite tree_alter_cons_ne, Ha, tree_lookup_cons, lookup_insert_eq
      by by destruct p.
    by apply IH.
Qed.

(** A change at [q] happens only when the directory holding [q] exists. *)
Lemma tree_alter_chain (f : option node → option node) (q : list string) :
  ∀ fs, tree_alter f q fs = fs
        ∨ (∃ ch, tree_lookup (removelast q) fs = Some (Dir ch)) ∧ q ≠ [].
Proof.
  induction q as [|c q IH]; intros fs; [by left |].
  destruct fs as [d|ch]; [left; apply tree_alter_file |].
  destruct q as [|c' q]; [right; simpl; eauto |].
  rewrite tree_alter_cons2. destruct (ch !! c) as [m|] eqn:Hc; [|by left].
  destruct (IH m) as [->|[[ch' Hch'] _]].
  - left. by rewrite insert_id.
  - right. split; [|done]. exists ch'.
    change (removelast (c :: c' :: q)) with (c :: removelast (c' :: q)).
    by rewrite tree_lookup_cons, Hc.
Qed.

(** Making a directory where nothing was leaves what lies below the
    longer path [q ++ rest] as it was: nothing. *)
Lemma tree_alter_mkdir_above (q rest : list string) (y : string)
    (t : list string) (fs : node) :
  tree_lookup q fs = None →
  tree_lookup ((q ++ rest) ++ y :: t) (tree_alter (λ _, Some (Dir ∅)) q fs)
  = tree_lookup ((q ++ rest) ++ y :: t) fs.
Proof.
  intros Hq. rewrite <- !app_assoc, !tree_lookup_app, Hq.
  destruct (tree_alter_chain (λ _, Some (Dir ∅)) q fs) as [->|[[ch Hch] Hne]].
  - by rewrite Hq.
  - rewrite (app_removelast_last "" Hne) at 1 2.
    rewrite (tree_alter_new _ _ _ _ _ Hch). simpl.
    by destruct (rest ++ y :: t) eqn:Hr; [destruct rest |].
Qed.

(** ** What an operation on an entry of the plugin directory can touch *)

Lemma untouched_refl (pd xs : list string) (fs : node) :
  untouched_outside pd xs fs fs.
Proof. by intros y t Hy. Qed.

Lemma untouched_trans (pd xs : list string) (fs1 fs2 fs3 : node) :
  untouched_outside pd xs fs1 fs2 → untouched_outside pd xs fs2 fs3 →
  untouched_outside pd xs fs1 fs3.
Proof. intros H1 H2 y t Hy. by rewrite H2, H1. Qed.

Lemma untouched_mono (pd xs xs' : list string) (fs fs' : node) :
  xs ⊆ xs' → untouched_outside pd xs fs fs' → untouched_outside pd xs' fs fs'.
Proof. intros Hsub H y t Hy. apply H. intros Hin. by apply Hy, Hsub. Qed.

#[export] Instance untouched_preorder (pd xs : list string) :
  PreOrder (untouched_outside pd xs).
Proof.
  split; [intros fs; apply untouched_refl |].
  intros fs1 fs2 fs3. apply untouched_trans.
Qed.

Lemma alter_under_untouched (f : option node → option node)
    (pd : list string) (x : string) (p : list string) (fs : node) :
  under pd x p → untouched_outside pd [x] fs (tree_alter f p fs).
Proof.
  intros [s ->] y t Hy. apply tree_alter_frame. intros ->. apply Hy. by left.
Qed.

Lemma mkdir_near_untouched (pd : list string) (x : string) (p : list string)
    (fs : node) :
  near pd x p → tree_lookup p fs = None →
  untouched_outside pd [x] fs (tree_alter (λ _, Some (Dir ∅)) p fs).
Proof.
  intros [Hu|[rest ->]] Hp; [by apply alter_under_untouched |].
  intros y t _. by apply tree_alter_mkdir_above.
Qed.

Lemma under_near (pd : list string) (x : string) (p : list string) :
  under pd x p → near pd x p.
Proof. by left. Qed.

Lemma near_removelast (pd : list string) (x : string) (p : list string) :
  near pd x p → near pd x (removelast p).
Proof.
  intros [[s ->]|[rest ->]].
  - destruct s as [|b s] using rev_ind.
    + right. exists []. by rewrite removelast_last, app_nil_r.
    + left. exists s. by rewrite app_comm_cons, app_assoc, removelast_last.
  - right. destruct p as [|a p] using rev_ind; [by exists rest |].
    exists (a :: rest). by rewrite removelast_last, <- app_assoc.
Qed.

Lemma under_app (pd : list string) (x : string) (p s : list string) :
  under pd x p → under pd x (p ++ s).
Proof. intros [s0 ->]. exists (s0 ++ s). by rewrite <- app_assoc. Qed.

Lemma plain_removelast (p : list string) : ".." ∉ p → ".." ∉ removelast p.
Proof.
  intros Hp. destruct p as [|a p] using rev_ind; [done |].
  rewrite removelast_last. intros Hin. apply Hp, elem_of_app. by left.
Qed.

(** Split on the condition of an [if] that decides an equation. *)
Ltac case_if :=
  match goal with
  | |- (if ?b then _ else _) = _ → _ => destruct b
  end.

Lemma os_mkdir_frame (pd : list string) (x : string) (p : list string)
    (fs fs' : node) :
  ".." ∉ p → near pd x p → os_mkdir fs p = inr fs' →
  untouched_outside pd [x] fs fs'.
Proof.
  intros Hp Hn. unfold os_mkdir.
  destruct (locate fs p) as [|q] eqn:Hq; [done |].
  apply locate_plain in Hq as ->; [|done].
  destruct (tree_lookup p fs) eqn:Hl; [done |]. intros [= <-].
  by apply mkdir_near_untouched.
Qed.

Lemma mkdir_once_frame (pd : list string) (x : string) (p : list string)
    (eo : bool) (fs fs' : node) :
  ".." ∉ p → near pd x p → mkdir_once eo fs p = inr fs' →
  untouched_outside pd [x] fs fs'.
Proof.
  intros Hp Hn. unfold mkdir_once.
  destruct (os_mkdir fs p) as [e|fs1] eqn:Hm.
  - destruct e; try done; case_if; try done;
      intros [= <-]; apply untouched_refl.
  - intros [= <-]. by eapply os_mkdir_frame.
Qed.

Lemma mkdir_parents_rev_cons (eo : bool) (a : string) (rp : list string)
    (fs : node) :
  mkdir_parents_rev eo (a :: rp) fs
  = match os_mkdir fs (rev (a :: rp)) with
    | inr fs' => inr fs'
    | inl ENOENT =>
        match mkdir_parents_rev true rp fs with
        | inl e => inl e
        | inr fs1 => mkdir_once eo fs1 (rev (a :: rp))
        end
    | inl e => if eo && is_dir fs (rev (a :: rp)) then inr fs else inl e
    end.
Proof. done. Qed.

Lemma makedirs_rev_cons (a : string) (rp : list string) (fs : node) :
  makedirs_rev (a :: rp) fs
  = match (if path_exists fs (rev rp) then inr fs
           else match makedirs_rev rp fs with
                | inl EEXIST => inr fs
                | other => other
                end) with
    | inl e => inl e
    | inr fs1 => os_mkdir fs1 (rev (a :: rp))
    end.
Proof. done. Qed.

Lemma mkdir_parents_rev_frame (pd : list string) (x : string) (rp : list string) :
  ∀ eo fs fs', ".." ∉ rev rp → near pd x (rev rp) →
    mkdir_parents_rev eo rp fs = inr fs' → untouched_outside pd [x] fs fs'.
Proof.
  induction rp as [|a rp IH]; intros eo fs fs' Hp Hn.
  - simpl. case_if; [intros [= <-]; apply untouched_refl | done].
  - rewrite mkdir_parents_rev_cons.
    destruct (os_mkdir fs (rev (a :: rp))) as [e|fs1] eqn:Hm.
    + assert (Hp' : ".." ∉ rev rp).
      { intros Hin. apply Hp. simpl. apply elem_of_app. by left. }
      assert (Hn' : near pd x (rev rp)).
      { apply near_removelast in Hn. simpl in Hn.
        by rewrite removelast_last in Hn. }
      destruct e;
        try (case_if; try done; intros [= <-]; apply untouched_refl).
      destruct (mkdir_parents_rev true rp fs) as [e1|fs1] eqn:Hrec; [done |].
      intros Honce. etrans; [exact (IH true fs fs1 Hp' Hn' Hrec) |].
      exact (mkdir_once_frame pd x _ eo fs1 fs' Hp Hn Honce).
    + intros [= <-]. exact (os_mkdir_frame pd x _ fs fs1 Hp Hn Hm).
Qed.

Lemma mkdir_parents_frame (pd : list string) (x : string) (p : list string)
    (eo : bool) (fs fs' : node) :
  ".." ∉ p → near pd x p → mkdir_parents eo fs p = inr fs' →
  untouched_outside pd [x] fs fs'.
Proof.
  intros Hp Hn. unfold mkdir_parents.
  apply mkdir_parents_rev_frame; by rewrite rev_involutive.
Qed.

Lemma makedirs_rev_frame (pd : list string) (x : string) (rp : list string) :
  ∀ fs fs', ".." ∉ rev rp → near pd x (rev rp) →
    makedirs_rev rp fs = inr fs' → untouched_outside pd [x] fs fs'.
Proof.
  induction rp as [|a rp IH]; intros fs fs' Hp Hn.
  - intros Hm. exact (os_mkdir_frame pd x [] fs fs' Hp Hn Hm).
  - rewrite makedirs_rev_cons. assert (Hp' : ".." ∉ rev rp).
    { intros Hin. apply Hp. simpl. apply elem_of_app. by left. }
    assert (Hn' : near pd x (rev rp)).
    { apply near_removelast in Hn. simpl in Hn.
      by rewrite removelast_last in Hn. }
    destruct (path_exists fs (rev rp)).
    + intros Hm. exact (os_mkdir_frame pd x _ fs fs' Hp Hn Hm).
    + destruct (makedirs_rev rp fs) as [e|fs1] eqn:Hrec.
      * destruct e; try done. intros Hm.
        exact (os_mkdir_frame pd x _ fs fs' Hp Hn Hm).
      * intros Hm. etrans; [exact (IH fs fs1 Hp' Hn' Hrec) |].
        exact (os_mkdir_frame pd x _ fs1 fs' Hp Hn Hm).
Qed.

Lemma makedirs_frame (pd : list string) (x : string) (p : list string)
    (fs fs' : node) :
  ".." ∉ p → near pd x p → makedirs fs p = inr fs' →
  untouched_outside pd [x] fs fs'.
Proof.
  intros Hp Hn. unfold makedirs.
  apply makedirs_rev_frame; by rewrite rev_involutive.
Qed.

Lemma open_wb_frame (pd : list string) (x : string) (p : list string)
    (fs fs' : node) :
  ".." ∉ p → under pd x p → open_wb fs p = inr fs' →
  untouched_outside pd [x] fs fs'.
Proof.
  intros Hp Hu. unfold open_wb.
  destruct (locate fs p) as [|q] eqn:Hq; [done |].
  apply locate_plain in Hq as ->; [|done].
  destruct (tree_lookup p fs) as [[|]|]; try done;
    intros [= <-]; by apply alter_under_untouched.
Qed.

Lemma file_write_frame (pd : list string) (x : string) (p : list string)
    (chunk : string) (fs fs' : node) :
  ".." ∉ p → under pd x p → file_write fs p chunk = inr fs' →
  untouched_outside pd [x] fs fs'.
Proof.
  intros Hp Hu. unfold file_write.
  destruct (locate fs p) as [|q] eqn:Hq; [done |].
  apply locate_plain in Hq as ->; [|done].
  destruct (tree_lookup p fs) as [[|]|]; try done;
    intros [= <-]; by apply alter_under_untouched.
Qed.

Lemma unlink_frame (pd : list string) (x : string) (p : list string)
    (fs fs' : node) :
  ".." ∉ p → under pd x p → unlink fs p = inr fs' →
  untouched_outside pd [x] fs fs'.
Proof.
  intros Hp Hu. unfold unlink.
  destruct (locate fs p) as [|q] eqn:Hq; [done |].
  apply locate_plain in Hq as ->; [|done].
  destruct (tree_lookup p fs) as [[|]|]; try done;
    intros [= <-]; by apply alter_under_untouched.
Qed.

Lemma rmtree_frame (pd : list string) (x : string) (p : list string)
    (fs : node) :
  ".." ∉ p → under pd x p → untouched_outside pd [x] fs (rmtree fs p).1.
Proof.
  intros Hp Hu. unfold rmtree.
  destruct (locate fs p) as [|q] eqn:Hq; [apply untouched_refl |].
  apply locate_plain in Hq as ->; [|done].
  destruct (tree_lookup p fs) as [[|]|]; try apply untouched_refl.
  destruct (pinned p); simpl; [|by apply alter_under_untouched].
  destruct Hu as [s ->]. destruct (pd ++ x :: s) eqn:Hr; [by destruct pd |].
  rewrite <- Hr. apply alter_under_untouched. by exists s.
Qed.

Lemma untouched_one_of (pd : list string) (x : string) (xs : list string)
    (fs fs' : node) :
  x ∈ xs → untouched_outside pd [x] fs fs' → untouched_outside pd xs fs fs'.
Proof.
  intros Hx. apply untouched_mono. intros y Hy.
  apply list_elem_of_singleton in Hy. by subst.
Qed.

Lemma os_rename_frame (pd : list string) (x1 x2 : string)
    (src dst : list string) (fs fs' : node) :
  ".." ∉ src → ".." ∉ dst → under pd x1 src → under pd x2 dst →
  os_rename fs src dst = inr fs' → untouched_outside pd [x1; x2] fs fs'.
Proof.
  intros Hs Hd Hus Hud. unfold os_rename.
  destruct (locate fs src) as [|qs] eqn:Hqs; [done |].
  apply locate_plain in Hqs as ->; [|done].
  destruct (tree_lookup src fs) as [ns|]; [|done].
  destruct (locate fs dst) as [|qd] eqn:Hqd; [done |].
  apply locate_plain in Hqd as ->; [|done].
  assert (Hmoved : untouched_outside pd [x1; x2] fs
            (tree_alter (λ _, Some ns) dst (tree_alter (λ _, None) src fs))).
  { etrans.
    - apply (untouched_one_of pd x1); [set_solver |].
      by apply alter_under_untouched.
    - apply (untouched_one_of pd x2); [set_solver |].
      by apply alter_under_untouched. }
  repeat case_if; try done; try (intros [= <-]; apply untouched_refl).
  destruct (tree_lookup dst fs) as [[d|ch]|], ns as [d'|ch']; try done;
    try (by intros [= <-]).
  case_if; [by intros [= <-] | done].
Qed.

Lemma last_plain (p : list string) (d : string) :
  p ≠ [] → ".." ∉ p → List.last p d ≠ "..".
Proof.
  intros Hne Hp Hl. apply Hp. rewrite (app_removelast_last d Hne), Hl.
  apply elem_of_app. right. by left.
Qed.

Lemma under_nonempty (pd : list string) (x : string) (p : list string) :
  under pd x p → p ≠ [].
Proof. intros [s ->]. by destruct pd. Qed.

Lemma plain_snoc (p : list string) (c : string) :
  ".." ∉ p → c ≠ ".." → ".." ∉ p ++ [c].
Proof.
  intros Hp Hc [H|H]%elem_of_app; [done |].
  apply list_elem_of_singleton in H. by subst.
Qed.

Lemma shutil_move_frame (pd : list string) (x1 x2 : string)
    (src dst : list string) (fs fs' : node) :
  ".." ∉ src → ".." ∉ dst → under pd x1 src → under pd x2 dst →
  shutil_move fs src dst = inr fs' → untouched_outside pd [x1; x2] fs fs'.
Proof.
  intros Hs Hd Hus Hud. unfold shutil_move.
  set (real_dst := if is_dir fs dst then dst ++ [List.last src ""] else dst).
  assert ((".." ∉ real_dst) ∧ under pd x2 real_dst) as [Hrp Hru].
  { unfold real_dst. destruct (is_dir fs dst); [|done]. split.
    - apply plain_snoc; [done |]. apply last_plain; [|done].
      by eapply under_nonempty.
    - by apply under_app. }
  case_if; [by apply os_rename_frame |].
  case_if; [done |].
  destruct (os_rename fs src real_dst) as [e|fs1] eqn:Hren.
  2:{ intros [= <-].
      exact (os_rename_frame pd x1 x2 _ _ fs fs1 Hs Hrp Hus Hru Hren). }
  destruct (stat fs src) as [e1|[d|ch]]; [done | |].
  - (* a file: copy and unlink *)
    destruct (open_wb fs real_dst) as [e2|fs1] eqn:Ho; [done |].
    destruct (file_write fs1 real_dst d) as [e3|fs2] eqn:Hw; [done |].
    intros Hu. etrans; [|etrans].
    + apply (untouched_one_of pd x2); [set_solver |].
      exact (open_wb_frame pd x2 _ fs fs1 Hrp Hru Ho).
    + apply (untouched_one_of pd x2); [set_solver |].
      exact (file_write_frame pd x2 _ _ fs1 fs2 Hrp Hru Hw).
    + apply (untouched_one_of pd x1); [set_solver |].
      exact (unlink_frame pd x1 _ fs2 fs' Hs Hus Hu).
  - (* a directory: copy the tree, remove the source *)
    destruct (locate fs src) as [e2|qs] eqn:Hqs; [done |].
    apply locate_plain in Hqs as ->; [|done].
    case_if; [done |].
    destruct (makedirs fs real_dst) as [e3|fs1] eqn:Hmk; [done |].
    destruct (locate fs1 real_dst) as [e4|qd] eqn:Hqd; [done |].
    apply locate_plain in Hqd as ->; [|done].
    intros [= <-]. etrans; [|etrans].
    + apply (untouched_one_of pd x2); [set_solver |].
      exact (makedirs_frame pd x2 _ fs fs1 Hrp (under_near _ _ _ Hru) Hmk).
    + apply (untouched_one_of pd x2); [set_solver |].
      by apply alter_under_untouched.
    + apply (untouched_one_of pd x1); [set_solver |].
      by apply alter_under_untouched.
Qed.

(** ** Relating the file system before and after a computation *)

Section fs_rel.
Context (T : node → node → Prop) `{!PreOrder T}.

Lemma fs_rel_ret {A} (a : A) : fs_rel T (ret a).
Proof. intros w. simpl. reflexivity. Qed.

Lemma fs_rel_raise {A} (e : exn) : fs_rel T (@raise A e).
Proof. intros w. simpl. reflexivity. Qed.

Lemma fs_rel_status (cb : option callback) (msg : string) (ty : option string) :
  fs_rel T (_status_update cb msg ty).
Proof.
  intros w. destruct (status_update_run cb msg ty w) as (w' & -> & Hfs & _).
  simpl. rewrite Hfs. reflexivity.
Qed.

Lemma fs_rel_logger (lv : level) (msg : string) : fs_rel T (logger lv msg).
Proof. intros w. simpl. reflexivity. Qed.

Lemma fs_rel_get_fs : fs_rel T get_fs.
Proof. intros w. simpl. reflexivity. Qed.

Lemma fs_rel_bind {A B} (m : M A) (k : A → M B) :
  fs_rel T m → (∀ a, fs_rel T (k a)) → fs_rel T (m ≫= k).
Proof.
  intros Hm Hk w. rewrite bind_run. specialize (Hm w).
  destruct (m w) as [[a|e] w1]; simpl in *; [|done].
  etrans; [exact Hm | apply Hk].
Qed.

Lemma fs_rel_try_except {A} (m : M A) (h : exn → M A) :
  fs_rel T m → (∀ e, fs_rel T (h e)) → fs_rel T (try_except m h).
Proof.
  intros Hm Hh w. unfold try_except. specialize (Hm w).
  destruct (m w) as [[a|e] w1]; simpl in *; [done |].
  etrans; [exact Hm | apply Hh].
Qed.

Lemma fs_rel_try_finally {A} (m : M A) (fin : M unit) :
  fs_rel T m → fs_rel T fin → fs_rel T (try_finally m fin).
Proof.
  intros Hm Hfin w. unfold try_finally. specialize (Hm w).
  destruct (m w) as [r w1]. specialize (Hfin w1).
  destruct (fin w1) as [[[]|e] w2]; simpl in *; by etrans.
Qed.

Lemma fs_rel_for_each {A} (l : list A) (body : A → M unit) :
  (∀ x, fs_rel T (body x)) → fs_rel T (for_each l body).
Proof.
  intros Hb. induction l as [|x l IH]; simpl; [apply fs_rel_ret |].
  apply (fs_rel_bind (body x)); [apply Hb | by intros _].
Qed.

Lemma fs_rel_lift_fs (f : node → errno + node) :
  (∀ fs fs', f fs = inr fs' → T fs fs') → fs_rel T (lift_fs f).
Proof.
  intros Hf w. unfold lift_fs. destruct (f (w_fs w)) eqn:Hr; simpl.
  - reflexivity.
  - by apply Hf.
Qed.

Lemma fs_rel_lift_rmtree (p : list string) :
  (∀ fs, T fs (rmtree fs p).1) → fs_rel T (lift_rmtree p).
Proof.
  intros Hf w. unfold lift_rmtree. specialize (Hf (w_fs w)).
  by destruct (rmtree (w_fs w) p) as [fs' [e|]].
Qed.
End fs_rel.

Lemma fs_rel_weaken {A} (T T' : node → node → Prop) (m : M A) :
  (∀ fs fs', T fs fs' → T' fs fs') → fs_rel T m → fs_rel T' m.
Proof. intros HT Hm w. apply HT, Hm. Qed.

(** Decompose a goal [fs_rel T m] along the structure of [m], down to the
    file-system calls. *)
Ltac rel_step :=
  lazymatch goal with
  | |- fs_rel _ (extractall _ _) => fail
  | |- fs_rel _ (lift_fs _) => fail
  | |- fs_rel _ (lift_rmtree _) => fail
  | |- fs_rel _ (download_to _ _) => fail
  | |- fs_rel _ (if single_wrapping_entry _ _ then _ else _) => fail
  | |- _ =>
    first
      [ apply fs_rel_ret; apply _ | apply fs_rel_raise; apply _
      | apply fs_rel_status; apply _
      | apply fs_rel_logger; apply _ | apply fs_rel_get_fs; apply _
      | apply fs_rel_for_each; [apply _ | intros ?]
      | apply fs_rel_try_finally; [apply _ | |]
      | apply fs_rel_try_except; [apply _ | | intros ?]
      | apply fs_rel_bind; [apply _ | | intros ?]
      | match goal with
        | |- fs_rel _ (if ?b then _ else _) => destruct b
        | |- fs_rel _ (match ?x with _ => _ end) => destruct x
        end ]
  end.

Ltac rel := repeat rel_step.

(** ** Extraction stays below its target *)

Lemma arcname_plain (s : string) :
  ".." ∉ filter (λ x, valid_part x = true) (split sep s).
Proof. intros [Hv _]%list_elem_of_filter. done. Qed.

Lemma plain_app (p q : list string) : ".." ∉ p → ".." ∉ q → ".." ∉ p ++ q.
Proof. intros Hp Hq [H|H]%elem_of_app; done. Qed.

Lemma extract_member_frame (pd : list string) (x : string)
    (target : list string) (m : ZipInfo) :
  ".." ∉ target → under pd x target →
  fs_rel (untouched_outside pd [x]) (extract_member target m).
Proof.
  intros Hp Hu. unfold extract_member. cbv zeta.
  set (arc := filter (λ x, valid_part x = true) (split sep (filename m))).
  assert (Hpt : ".." ∉ target ++ arc) by (apply plain_app; [done | apply arcname_plain]).
  assert (Hut : under pd x (target ++ arc)) by by apply under_app.
  assert (Hpu : ".." ∉ removelast (target ++ arc)) by by apply plain_removelast.
  assert (Hnu : near pd x (removelast (target ++ arc)))
    by by apply near_removelast, under_near.
  rel; (apply fs_rel_lift_fs; [apply _ |]); intros fs1 fs2 Hrun.
  all: first [ exact (makedirs_frame pd x _ fs1 fs2 Hpu Hnu Hrun)
             | exact (os_mkdir_frame pd x _ fs1 fs2 Hpt (under_near _ _ _ Hut) Hrun)
             | exact (open_wb_frame pd x _ fs1 fs2 Hpt Hut Hrun)
             | exact (file_write_frame pd x _ _ fs1 fs2 Hpt Hut Hrun) ].
Qed.

Lemma extractall_frame (pd : list string) (x : string) (target : list string)
    (members : list ZipInfo) :
  ".." ∉ target → under pd x target →
  fs_rel (untouched_outside pd [x]) (extractall members target).
Proof.
  intros Hp Hu. unfold extractall. apply fs_rel_for_each; [apply _ |].
  intros m. by apply extract_member_frame.
Qed.

(** ** Safe plugin ids *)

Lemma safe_segment_inv (n : string) :
  safe_segment n = true →
  str_mem sep n = false ∧ n ≠ "" ∧ n ≠ "." ∧ n ≠ "..".
Proof.
  unfold safe_segment, valid_part.
  rewrite !andb_true_iff, !negb_true_iff, !String.eqb_neq.
  intros (? & (? & ?) & ?). auto.
Qed.

Lemma safe_segment_app (n t : string) :
  str_mem sep n = false → str_mem sep t = false → 3 ≤ String.length t →
  safe_segment (n +:+ t) = true.
Proof.
  intros Hn Ht Hlen. unfold safe_segment, valid_part.
  rewrite str_mem_app, Hn, Ht. simpl.
  rewrite !andb_true_iff, !negb_true_iff, !String.eqb_neq.
  repeat split; intros H; apply (f_equal String.length) in H;
    rewrite length_app_str in H; simpl in H; lia.
Qed.

Lemma joinpath_safe (pd : PurePath) (n : string) :
  safe_segment n = true →
  joinpath pd n = mkPath (p_root pd) (p_parts pd ++ [n]).
Proof.
  intros Hs. pose proof (safe_segment_inv n Hs) as (Hsep & Hne & Hd & Hdd).
  unfold joinpath, parse_part, splitroot.
  assert (startswith n "/" = false) as ->.
  { destruct n as [|c r]; [done |]. rewrite startswith_char.
    simpl in Hsep. apply orb_false_iff in Hsep as [Hc _].
    by rewrite Ascii.eqb_sym. }
  rewrite (split_without_sep _ _ Hsep), filter_kept_single.
  unfold kept_part. apply String.eqb_neq in Hne, Hd. by rewrite Hne, Hd.
Qed.

Lemma app_str_inv_l (a b c : string) : a +:+ b = a +:+ c → b = c.
Proof. induction a as [|x a IH]; simpl; [done |]. intros [= H]. by apply IH. Qed.

Lemma app_str_ne_self (a t : string) : t ≠ "" → a ≠ a +:+ t.
Proof.
  intros Ht H. apply (f_equal String.length) in H.
  rewrite length_app_str in H. destruct t; [done |]. simpl in H. lia.
Qed.

(** The names an install works on, and the disabled folder, are safe and
    pairwise distinct. *)
Lemma install_names_facts (n : string) :
  safe_segment n = true →
  safe_segment (n +:+ "_temp.zip") = true
  ∧ safe_segment (n +:+ "_temp_extract") = true
  ∧ safe_segment (n +:+ DISABLED) = true
  ∧ ((n +:+ DISABLED) ∉ install_names n)
  ∧ n ≠ n +:+ "_temp.zip" ∧ n ≠ n +:+ "_temp_extract"
  ∧ n +:+ "_temp.zip" ≠ n +:+ "_temp_extract".
Proof.
  intros Hs. pose proof (safe_segment_inv n Hs) as (Hsep & _).
  repeat split; try (apply safe_segment_app; [done | done | simpl; lia]).
  - unfold install_names. rewrite !elem_of_cons, elem_of_nil.
    intros [H|[H|[H|[]]]].
    + symmetry in H. by apply app_str_ne_self in H.
    + by apply app_str_inv_l in H.
    + by apply app_str_inv_l in H.
  - by apply app_str_ne_self.
  - by apply app_str_ne_self.
  - intros H. by apply app_str_inv_l in H.
Qed.

Lemma safe_not_dotdot (n : string) : safe_segment n = true → n ≠ "..".
Proof. intros Hs. by apply safe_segment_inv in Hs as (_ & _ & _ & ?). Qed.

(** ** What an install can touch *)

(** Membership and inclusion between explicit lists of names. *)
Ltac names :=
  first
    [ by (rewrite ?elem_of_cons; auto)
    | let z := fresh in
      intros z; rewrite ?elem_of_cons, ?elem_of_nil; tauto ].

Lemma download_to_frame (pd : list string) (x : string) (p : list string)
    (r : Response) :
  ".." ∉ p → under pd x p →
  fs_rel (untouched_outside pd [x]) (download_to r p).
Proof.
  intros Hp Hu. unfold download_to.
  apply fs_rel_bind; [apply _ | | intros _].
  - apply fs_rel_lift_fs; [apply _ |]. intros fs fs' H.
    exact (open_wb_frame pd x _ fs fs' Hp Hu H).
  - apply fs_rel_bind; [apply _ | | intros _].
    + apply fs_rel_for_each; [apply _ |]. intros chunk.
      apply fs_rel_lift_fs; [apply _ |]. intros fs fs' H.
      exact (file_write_frame pd x _ _ fs fs' Hp Hu H).
    + destruct (r_stream_error r); [apply fs_rel_raise | apply fs_rel_ret];
        apply _.
Qed.

(** The staging or direct extraction of the archive touches the install
    directory and the staging directory only. *)
Lemma install_extraction_frame (pd : PurePath) (plugin_id : string)
    (zip_ref : list ZipInfo) :
  safe_segment plugin_id = true → ".." ∉ p_parts pd →
  fs_rel (untouched_outside (p_parts pd)
            [plugin_id; plugin_id +:+ "_temp_extract"])
    (if single_wrapping_entry zip_ref plugin_id then
       let temp_extract_path := joinpath pd (plugin_id +:+ "_temp_extract") in
       lift_fs (λ fs, mkdir_parents true fs (p_parts temp_extract_path));;
       extractall zip_ref (p_parts temp_extract_path);;
       lift_fs (λ fs, shutil_move fs
                        (p_parts (joinpath temp_extract_path plugin_id))
                        (p_parts (joinpath pd plugin_id)));;
       lift_rmtree (p_parts temp_extract_path)
     else
       lift_fs (λ fs, mkdir_parents true fs (p_parts (joinpath pd plugin_id)));;
       extractall zip_ref (p_parts (joinpath pd plugin_id))).
Proof.
  intros Hs Hpd.
  destruct (install_names_facts plugin_id Hs) as (_ & Hse & _).
  pose proof (safe_not_dotdot _ Hs) as Hdd.
  pose proof (safe_not_dotdot _ Hse) as Hdde.
  cbv zeta. rewrite (joinpath_safe pd _ Hse), (joinpath_safe _ _ Hs),
    (joinpath_safe pd _ Hs). cbn [p_parts p_root].
  set (stg := plugin_id +:+ "_temp_extract") in *.
  set (PD := p_parts pd) in *.
  assert (Hp1 : ".." ∉ PD ++ [plugin_id]) by by apply plain_snoc.
  assert (Hp2 : ".." ∉ PD ++ [stg]) by by apply plain_snoc.
  assert (Hp3 : ".." ∉ (PD ++ [stg]) ++ [plugin_id]) by by apply plain_snoc.
  assert (Hu1 : under PD plugin_id (PD ++ [plugin_id])) by by exists [].
  assert (Hu2 : under PD stg (PD ++ [stg])) by by exists [].
  assert (Hu3 : under PD stg ((PD ++ [stg]) ++ [plugin_id]))
    by (exists [plugin_id]; by rewrite <- app_assoc).
  destruct (single_wrapping_entry zip_ref plugin_id).
  - apply fs_rel_bind; [apply _ | | intros _].
    { apply fs_rel_lift_fs; [apply _ |]. intros fs fs' H.
      apply (untouched_one_of PD stg); [names |].
      exact (mkdir_parents_frame PD stg _ true fs fs' Hp2 (under_near _ _ _ Hu2) H). }
    apply fs_rel_bind; [apply _ | | intros _].
    { eapply fs_rel_weaken; [|by apply (extractall_frame PD stg)].
      intros fs fs'. apply untouched_one_of. names. }
    apply fs_rel_bind; [apply _ | | intros _].
    { apply fs_rel_lift_fs; [apply _ |]. intros fs fs' H.
      eapply untouched_mono;
        [|exact (shutil_move_frame PD stg plugin_id _ _ fs fs' Hp3 Hp1 Hu3 Hu1 H)].
      names. }
    apply fs_rel_lift_rmtree. intros fs.
    apply (untouched_one_of PD stg); [names |].
    by apply rmtree_frame.
  - apply fs_rel_bind; [apply _ | | intros _].
    { apply fs_rel_lift_fs; [apply _ |]. intros fs fs' H.
      apply (untouched_one_of PD plugin_id); [names |].
      exact (mkdir_parents_frame PD plugin_id _ true fs fs' Hp1
               (under_near _ _ _ Hu1) H). }
    eapply fs_rel_weaken; [|by apply (extractall_frame PD plugin_id)].
    intros fs fs'. apply untouched_one_of. names.
Qed.

#[export] Instance keeps_not_a_dir_preorder (p : list string) :
  PreOrder (keeps_not_a_dir p).
Proof. split; [by intros fs H | intros fs1 fs2 fs3 H1 H2 H; by apply H2, H1]. Qed.






(** The attempt of an install (the [try] with its [except] clauses),
    for any relation that holds across the download and across changes
    to the install and staging directories. *)
Section install_attempt.
Context (T : node → node → Prop) `{!PreOrder T}.
Context (E : env) (plugin_info : PluginInfo) (cb : option callback).
Local Abbreviation pd := (plugin_dir_path E).
Local Abbreviation plugin_id := (pi_id plugin_info).
Hypothesis Hsafe : safe_segment plugin_id = true.
Hypothesis Hplain : ".." ∉ p_parts pd.
Hypothesis Hdownload :
  ∀ r, fs_rel T (download_to r (p_parts pd ++ [plugin_id +:+ "_temp.zip"])).
Hypothesis Hdirs :
  ∀ fs fs', untouched_outside (p_parts pd)
              [plugin_id; plugin_id +:+ "_temp_extract"] fs fs' →
            T fs fs'.

Lemma install_attempt_rel :
  fs_rel T
    (try_except (install_body E plugin_info cb)
       (λ e, install_handlers E plugin_info cb e;; ret false)).
Proof.
  destruct (install_names_facts plugin_id Hsafe) as (Hsz & _).
  unfold install_body, install_handlers, requests_get, raise_for_status, ZipFile.
  cbv zeta.
  rewrite (joinpath_safe pd _ Hsz). cbn [p_parts].
  rel.
  1: apply Hdownload.
  1: eapply fs_rel_weaken; [exact Hdirs |];
     by apply (install_extraction_frame pd plugin_id).
  all: apply fs_rel_lift_rmtree; intros fs; apply Hdirs;
    apply (untouched_one_of _ plugin_id); [names |];
    rewrite (joinpath_safe pd _ Hsafe); cbn [p_parts];
    (apply rmtree_frame; [|by exists []]);
    (apply plain_snoc; [done | by apply safe_not_dotdot]).
Qed.
End install_attempt.

(** ** Enable, disable and remove *)

#[export] Instance same_or_gone_preorder (p : list string) :
  PreOrder (same_or_gone p).
Proof.
  split; [by left |].
  intros fs1 fs2 fs3 [->|H1] [->|H2]; unfold same_or_gone; auto.
Qed.

#[export] Instance no_new_entries_preorder (pd : list string) :
  PreOrder (no_new_entries pd).
Proof.
  split; [by intros fs y |].
  intros fs1 fs2 fs3 H1 H2 y H. by apply H1, H2.
Qed.

Lemma is_prefix_app (pd a b : list string) :
  is_prefix (pd ++ a) (pd ++ b) = is_prefix a b.
Proof. induction pd as [|c pd IH]; simpl; [done |]. by rewrite String.eqb_refl. Qed.



Section lifecycle.
Context (E : env) (cb : option callback) (name : string).
Local Abbreviation pd := (plugin_dir_path E).
Hypothesis Hsafe : safe_segment name = true.
Hypothesis Hplain : ".." ∉ p_parts pd.

Lemma enabled_path_parts :
  p_parts (joinpath pd name) = p_parts pd ++ [name].
Proof. by rewrite (joinpath_safe pd _ Hsafe). Qed.

Lemma disabled_path_parts :
  p_parts (joinpath pd (name +:+ DISABLED)) = p_parts pd ++ [name +:+ DISABLED].
Proof.
  destruct (install_names_facts name Hsafe) as (_ & _ & Hsd & _).
  by rewrite (joinpath_safe pd _ Hsd).
Qed.

Lemma name_ne_disabled : name ≠ name +:+ DISABLED.
Proof. by apply app_str_ne_self. Qed.

Lemma disabled_not_dotdot : name +:+ DISABLED ≠ "..".
Proof.
  destruct (install_names_facts name Hsafe) as (_ & _ & Hsd & _).
  by apply safe_not_dotdot.
Qed.




(** Existence of the two folders of a plugin, as lookups in the tree. *)
Lemma at_most_one_lookup (fs : node) :
  at_most_one fs pd name
  ↔ ¬ (is_Some (tree_lookup (p_parts pd ++ [name]) fs)
       ∧ is_Some (tree_lookup (p_parts pd ++ [name +:+ DISABLED]) fs)).
Proof.
  unfold at_most_one, disabled_path_of.
  rewrite enabled_path_parts, disabled_path_parts.
  rewrite !path_exists_plain; [done | |];
    apply plain_snoc; auto using disabled_not_dotdot, safe_not_dotdot.
Qed.
End lifecycle.

Lemma dotdot_free_spec (p : list string) : dotdot_free p = true ↔ ".." ∉ p.
Proof.
  unfold dotdot_free. rewrite forallb_forall. split.
  - intros H Hin. apply list_elem_of_In in Hin. by specialize (H _ Hin).
  - intros H c Hc. apply negb_true_iff, String.eqb_neq. intros ->.
    by apply H, list_elem_of_In.
Qed.

(** ** Install as a whole *)


Lemma install_frame (E : env) (plugin_info : PluginInfo) (cb : option callback) :
  safe_segment (pi_id plugin_info) = true →
  ".." ∉ p_parts (plugin_dir_path E) →
  fs_rel (untouched_outside (p_parts (plugin_dir_path E))
            (install_names (pi_id plugin_info)))
    (install_plugin E plugin_info cb).
Proof.
  intros Hs Hpd.
  destruct (install_names_facts _ Hs) as (Hsz & _).
  assert (Hpz : ".." ∉ p_parts (plugin_dir_path E) ++ [pi_id plugin_info +:+ "_temp.zip"])
    by (apply plain_snoc; [done | by apply safe_not_dotdot]).
  assert (Huz : under (p_parts (plugin_dir_path E)) (pi_id plugin_info +:+ "_temp.zip")
                  (p_parts (plugin_dir_path E) ++ [pi_id plugin_info +:+ "_temp.zip"]))
    by by exists [].
  unfold install_plugin. cbv zeta.
  apply fs_rel_bind; [apply _ | apply fs_rel_status; apply _ | intros _].
  apply fs_rel_bind; [apply _ | unfold install_conflict; rel | intros conflict].
  destruct conflict; [rel |].
  apply fs_rel_try_finally; [apply _ | |].
  - apply install_attempt_rel; try done.
    + apply _.
    + intros r. eapply fs_rel_weaken; [|by apply download_to_frame].
      intros fs fs'. apply untouched_one_of. unfold install_names. names.
    + intros fs fs'. apply untouched_mono. unfold install_names. names.
  - unfold install_finally. rewrite (joinpath_safe _ _ Hsz). cbn [p_parts].
    rel. apply fs_rel_lift_fs; [apply _ |]. intros fs fs' H.
    apply (untouched_one_of _ (pi_id plugin_info +:+ "_temp.zip"));
      [unfold install_names; names |].
    exact (unlink_frame _ _ _ fs fs' Hpz Huz H).
Qed.

(** ** At most one of a plugin's two folders *)



Section keeps_at_most_one.
Context (E : env) (cb : option callback) (name : string) (w : world).
Local Abbreviation pd := (plugin_dir_path E).
Hypothesis Hsafe : safe_segment name = true.
Hypothesis Hplain : ".." ∉ p_parts pd.
Hypothesis Hone : at_most_one (w_fs w) pd name.




End keeps_at_most_one.





(** ** The downloaded archive does not outlive the install *)

Lemma safe_plain_tail (n : string) : safe_segment n = true → plain_tail n = true.
Proof.
  intros Hs. pose proof (safe_segment_inv n Hs) as (Hsep & Hne & Hd & _).
  unfold plain_tail, id_tail. rewrite (split_without_sep _ _ Hsep). simpl.
  unfold kept_part. apply String.eqb_neq in Hne, Hd. by rewrite Hne, Hd.
Qed.

(** For a safe id the conflict check returns: it is the disjunction of
    the two existence tests. *)
Lemma install_conflict_run (pd : PurePath) (plugin_id : string) (w : world) :
  safe_segment plugin_id = true →
  install_conflict (joinpath pd plugin_id) w
  = (Ret (path_exists (w_fs w) (p_parts (joinpath pd plugin_id))
          || path_exists (w_fs w) (p_parts (disabled_path_of pd plugin_id))), w).
Proof.
  intros Hs. unfold install_conflict. rewrite bind_run. unfold get_fs.
  cbv beta iota.
  destruct (path_exists (w_fs w) (p_parts (joinpath pd plugin_id))); [done |].
  pose proof (install_disabled_sibling_plain pd plugin_id (safe_plain_tail _ Hs))
    as Hsib.
  unfold install_disabled_sibling in Hsib. by rewrite Hsib.
Qed.

(** Every handler of the install returns. *)
Lemma install_handlers_return (E : env) (plugin_info : PluginInfo)
    (cb : option callback) (e : exn) (w : world) :
  ∃ w', install_handlers E plugin_info cb e w = (Ret tt, w').
Proof.
  assert (Hclean : ∀ msg w0,
    ∃ w', (_status_update cb msg (Some "error");;
           fs ← get_fs;
           if path_exists fs
                (p_parts (joinpath (plugin_dir_path E) (pi_id plugin_info)))
           then try_except
                  (lift_rmtree
                     (p_parts (joinpath (plugin_dir_path E) (pi_id plugin_info))))
                  (λ cleanup_e,
                     logger ERROR
                       ("Error cleaning up failed installation for "
                        +:+ pi_id plugin_info +:+ ": " +:+ exn_str cleanup_e))
           else ret tt) w0 = (Ret tt, w')).
  { intros msg w0. step_status w1 Hrun Hfs Hnote.
    rewrite bind_run. unfold get_fs. cbv beta iota.
    destruct (path_exists _ _); [|by eexists].
    unfold try_except, lift_rmtree.
    destruct (rmtree (w_fs w1) _) as [fs' [err|]]; by eexists. }
  destruct e; unfold install_handlers; cbv zeta;
    first [ apply Hclean
          | match goal with
            | |- context [_status_update cb ?m ?ty w] =>
                destruct (status_update_run cb m ty w) as (w' & Hrun & _);
                by exists w'
            end ].
Qed.





(* ===================================================================== *)
(** * Further properties of the code *)
(* ===================================================================== *)

(** ** The manifest fetcher on lists of objects *)

Lemma last_status_step (cb : option callback) (msg : string)
    (ty : option string) (w0 w w' : world) :
  (∃ pre, w_calls w = w_calls w0 ++ pre) →
  (∃ pre, w_log w = w_log w0 ++ pre) →
  (cb = None → w_calls w = w_calls w0) →
  _status_update cb msg ty w = (Ret tt, w') →
  last_status cb w0 w' msg ty.
Proof.
  intros [prec Hc] [prel Hl] Hn Hrun.
  destruct (status_update_run cb msg ty w) as (w'' & Hrun' & _ & H).
  rewrite Hrun in Hrun'. injection Hrun' as <-.
  destruct cb as [f|]; simpl.
  - destruct H as [H _]. exists prec. by rewrite H, Hc, <- app_assoc.
  - destruct H as [H1 H2]. split; [by rewrite H1, Hn |].
    exists prel. by rewrite H2, Hl, <- app_assoc.
Qed.

(** The validation loop on objects, with what it leaves in the traces. *)
Lemma validate_entries_objects_trace (E : env) (objs : list (gmap string json)) :
  ∀ acc w, ∃ w', validate_entries E (JObj <$> objs) acc w
                 = (Ret (acc ++ (JObj ∘ with_defaults
                                   <$> filter (λ m, well_formed m = true) objs)), w')
                 ∧ w_fs w' = w_fs w ∧ w_calls w' = w_calls w
                 ∧ ∃ pre, w_log w' = w_log w ++ pre.
Proof.
  intros acc w.
  destruct (validate_entries_objects E objs acc w) as (w' & Hrun & Hfs & Hc).
  destruct (validate_entries_frame E (JObj <$> objs) acc w)
    as (r & w'' & Hrun' & _ & _ & Hl).
  rewrite Hrun in Hrun'. injection Hrun' as <- <-. by exists w'.
Qed.

(** X1: when the manifest URL answers with a status outside 400..599 and
    a JSON list all of whose entries are objects, the fetch returns
    exactly the entries that have the six required keys, in the order of
    the manifest, each with its missing optional keys set to null; the
    file system is unchanged and the last status notification is the
    info message that counts the returned records. *)
Theorem fetch_returns_well_formed_records (E : env) (url : string)
    (cb : option callback) (w : world) (r : Response)
    (objs : list (gmap string json)) :
  url ≠ "" → http_get E url = inr r →
  ¬ (400 ≤ status_code r < 600)%Z →
  r_json r = Some (JList (JObj <$> objs)) →
  let valid := JObj ∘ with_defaults <$> filter (λ m, well_formed m = true) objs in
  ∃ w', fetch_available_plugins E url cb w = (Ret valid, w')
        ∧ w_fs w' = w_fs w
        ∧ last_status cb w w'
            ("Successfully fetched " +:+ str_of_nat (length valid) +:+ " plugins.")
            (Some "info").
Proof.
  intros Hurl Hget Hst Hjson valid. unfold fetch_available_plugins.
  apply String.eqb_neq in Hurl. rewrite Hurl.
  step_status w1 Hrun Hfs Hnote.
  destruct (status_update_extends _ _ _ _ _ Hrun) as (Hc1 & Hl1 & Hn1).
  unfold try_except, fetch_body. rewrite bind_run. unfold requests_get.
  rewrite Hget. unfold ret at 1. rewrite bind_run. unfold raise_for_status.
  assert (((400 <=? status_code r)%Z && (status_code r <? 600)%Z) = false) as ->.
  { apply andb_false_iff.
    destruct (Z.leb_spec 400 (status_code r)); [|by left].
    right. apply Z.ltb_ge. lia. }
  unfold ret at 1. rewrite bind_run. unfold response_json. rewrite Hjson.
  unfold ret at 1. rewrite bind_run.
  destruct (validate_entries_objects_trace E objs [] w1)
    as (w2 & -> & Hfs2 & Hc2 & Hl2).
  rewrite app_nil_l. fold valid.
  step_status w3 Hrun3 Hfs3 Hnote3. exists w3.
  split; [done |]. split; [congruence |].
  eapply last_status_step; [| | | exact Hrun3].
  - rewrite Hc2. exact Hc1.
  - by eapply log_trans.
  - intros Hcb. rewrite Hc2. by apply Hn1.
Qed.

Lemma fetch_returns_well_formed_records_witness :
  ∃ w', fetch_available_plugins (json_env (JList (JObj <$> sample_objects)))
          "manifest" None (world_of fs_empty)
        = (Ret [JObj (<["edmcCompatibility" := JNull]> (sample_objects !!! 0%nat))], w')
        ∧ w_fs w' = fs_empty
        ∧ last_status None (world_of fs_empty) w'
            "Successfully fetched 1 plugins." (Some "info").
Proof.
  apply (fetch_returns_well_formed_records
           (json_env (JList (JObj <$> sample_objects))) "manifest" None
           (world_of fs_empty)
           (mkResponse 200 (Some (JList (JObj <$> sample_objects))) [] None)
           sample_objects).
  - done.
  - reflexivity.
  - simpl. lia.
  - reflexivity.
Defined.

(** ** A manifest entry that is no object *)

(** An entry that is no object stops the validation loop with an
    exception, whatever comes before it. *)
Lemma validate_entries_non_object (E : env) (entries : list json) (e : json) :
  e ∈ entries → (∀ m, e ≠ JObj m) →
  ∀ acc w r w', validate_entries E entries acc w = (r, w') → ∃ ex, r = Raise ex.
Proof.
  intros Hin Hobj. induction entries as [|a entries IH]; [by apply elem_of_nil in Hin |].
  intros acc w r w'. rewrite validate_entries_cons, bind_run.
  destruct a as [| | |s|items|m]; try (intros [= <- _]; by eexists).
  - (* a string: the key test answers, the next dictionary method raises *)
    destruct (py_all_in_pure REQUIRED_KEYS (JStr s) w) as [[[|]|ex] ->];
      rewrite ?bind_run; simpl; intros [= <- _]; by eexists.
  - (* a list: likewise *)
    destruct (py_all_in_pure REQUIRED_KEYS (JList items) w) as [[[|]|ex] ->];
      rewrite ?bind_run; simpl; intros [= <- _]; by eexists.
  - (* an object: the loop goes on *)
    assert (He : e ∈ entries).
    { apply elem_of_cons in Hin as [->|]; [by destruct (Hobj m) | done]. }
    rewrite py_all_in_object.
    destruct (forallb _ REQUIRED_KEYS).
    + rewrite bind_run, setdefault_object, bind_run, setdefault_object.
      by apply IH.
    + rewrite bind_run, dict_get_object, bind_run, logger_run. by apply IH.
Qed.

(** X2: a manifest list with an entry that is not a JSON object (a number,
    a string, a list, a boolean, null) is never fetched in part: whatever
    the other entries are, the fetch returns the empty list and the last
    status notification is an error. *)
Theorem fetch_fails_on_any_non_object_entry (E : env) (url : string)
    (cb : option callback) (w : world) (r : Response) (entries : list json)
    (e : json) :
  http_get E url = inr r → r_json r = Some (JList entries) →
  e ∈ entries → (∀ m, e ≠ JObj m) →
  ∃ w', fetch_available_plugins E url cb w = (Ret [], w')
        ∧ w_fs w' = w_fs w
        ∧ error_reported cb w w'.
Proof.
  intros Hget Hjson Hin Hobj.
  destruct (fetch_run E url cb w) as (l & w' & Hrun & Hfs & Hfail).
  exists w'.
  destruct (String.eqb_spec url "") as [->|Hurl].
  { destruct Hfail as [-> Herr]; [by left | done]. }
  destruct ((400 <=? status_code r)%Z && (status_code r <? 600)%Z) eqn:Hst.
  { destruct Hfail as [-> Herr]; [|done].
    right. rewrite Hget. left.
    apply andb_true_iff in Hst as [H1%Z.leb_le H2%Z.ltb_lt]. lia. }
  clear Hfail. rewrite Hrun. revert Hrun. unfold fetch_available_plugins.
  apply String.eqb_neq in Hurl. rewrite Hurl.
  step_status w1 Hrun1 Hfs1 Hnote1.
  destruct (status_update_extends _ _ _ _ _ Hrun1) as (Hc1 & Hl1 & Hn1).
  unfold try_except, fetch_body. rewrite bind_run. unfold requests_get.
  rewrite Hget. unfold ret at 1. rewrite bind_run. unfold raise_for_status.
  rewrite Hst. unfold ret at 1. rewrite bind_run. unfold response_json.
  rewrite Hjson. unfold ret at 1. rewrite bind_run.
  destruct (validate_entries_frame E entries [] w1)
    as (res & w2 & Hval & Hfs2 & Hc2 & Hl2).
  destruct (validate_entries_non_object E entries e Hin Hobj _ _ _ _ Hval)
    as [ex ->].
  rewrite Hval.
  destruct (fetch_handlers_run cb ex w w2) as (w3 & Hh & Hfs3 & Herr).
  { rewrite Hc2. exact Hc1. }
  { by eapply log_trans. }
  { intros Hcb. rewrite Hc2. by apply Hn1. }
  rewrite bind_run, Hh. intros [= <- <-]. split; [done |]. split; [congruence | done].
Qed.

Lemma fetch_fails_on_any_non_object_entry_witness :
  ∃ w', fetch_available_plugins
          (json_env (JList [sample_record; JStr "id name"])) "manifest" None
          (world_of fs_empty)
        = (Ret [], w')
        ∧ w_fs w' = w_fs (world_of fs_empty)
        ∧ error_reported None (world_of fs_empty) w'.
Proof.
  apply (fetch_fails_on_any_non_object_entry
           (json_env (JList [sample_record; JStr "id name"])) "manifest" None
           (world_of fs_empty)
           (mkResponse 200 (Some (JList [sample_record; JStr "id name"])) [] None)
           [sample_record; JStr "id name"] (JStr "id name")).
  - reflexivity.
  - reflexivity.
  - apply elem_of_cons. right. apply elem_of_cons. by left.
  - done.
Defined.

(** ** The test for a wrapping folder *)

Lemma split_head_no_sep (c : ascii) (s : string) : str_mem c (split_head c s) = false.
Proof.
  induction s as [|a s IH]; [done |]. simpl.
  destruct (Ascii.eqb a c) eqn:Hac; [done |]. simpl. by rewrite Hac.
Qed.

Lemma rstrip_no_sep (c : ascii) (s : string) : str_mem c s = false → rstrip c s = s.
Proof.
  induction s as [|a s IH]; [done |]. simpl.
  intros [Hac Hs]%orb_false_iff. rewrite (IH Hs), Hac. by destruct s.
Qed.

(** X3: the staging branch of install is selected exactly when the
    archive is not empty and the text before the first ['/'] of every
    member name is the plugin id; the [rstrip('/')] of the test changes
    nothing, and whether that entry is a directory is not looked at. *)
Theorem single_wrapping_entry_spec (members : list ZipInfo) (plugin_id : string) :
  single_wrapping_entry members plugin_id = true
  ↔ members ≠ []
    ∧ ∀ m, m ∈ members → split_head sep (filename m) = plugin_id.
Proof.
  unfold single_wrapping_entry, top_level_members.
  set (heads := split_head sep ∘ filename <$> members).
  assert (Hheads : ∀ x, x ∈ heads ↔ ∃ m, m ∈ members ∧ x = split_head sep (filename m)).
  { intros x. unfold heads. rewrite list_elem_of_fmap. split; intros (m & H1 & H2); exists m; done. }
  split.
  - destruct (elements (list_to_set heads : gset string)) as [|t [|]] eqn:Hel;
      try done.
    intros Heq%String.eqb_eq.
    assert (Hone : ∀ x, x ∈ heads ↔ x = t).
    { intros x. rewrite <- (elem_of_list_to_set (C := gset string)),
        <- elem_of_elements, Hel, list_elem_of_singleton. done. }
    assert (Ht : rstrip sep t = t).
    { assert (t ∈ heads) as (m & _ & ->)%Hheads by by apply Hone.
      apply rstrip_no_sep, split_head_no_sep. }
    rewrite Ht in Heq. subst t. split.
    + intros ->. by apply (elem_of_nil plugin_id), Hone.
    + intros m Hm. apply Hone, Hheads. eauto.
  - intros [Hne Hall].
    assert (Hset : (list_to_set heads : gset string) = {[ plugin_id ]}).
    { apply set_eq. intros x. rewrite elem_of_list_to_set, elem_of_singleton, Hheads.
      split.
      - intros (m & Hm & ->). by apply Hall.
      - intros ->. destruct members as [|m ms]; [done |].
        exists m. split; [by left |]. symmetry. apply Hall. by left. }
    rewrite Hset, elements_singleton. apply String.eqb_eq.
    destruct members as [|m ms]; [done |].
    rewrite <- (Hall m) by by left.
    apply rstrip_no_sep, split_head_no_sep.
Qed.

(** ** Changes to the entries of one directory *)

Lemma tree_alter_dir (f : option node → option node) (x : string)
    (pd : list string) :
  ∀ n, tree_alter f (pd ++ [x]) n = dir_alter (partial_alter f x) pd n.
Proof.
  induction pd as [|c pd IH]; intros [d|ch]; try done.
  - by destruct pd.
  - rewrite <- app_comm_cons, tree_alter_cons_ne by by destruct pd.
    simpl. destruct (ch !! c); [by rewrite IH | done].
Qed.

Lemma dir_alter_compose (h g : gmap string node → gmap string node)
    (pd : list string) :
  ∀ n, dir_alter h pd (dir_alter g pd n) = dir_alter (h ∘ g) pd n.
Proof.
  induction pd as [|c pd IH]; intros [d|ch]; try done.
  simpl. destruct (ch !! c) as [m|] eqn:Hc; simpl; [|by rewrite Hc].
  by rewrite lookup_insert_eq, insert_insert_eq, IH.
Qed.

Lemma dir_alter_ext (h g : gmap string node → gmap string node)
    (pd : list string) :
  ∀ n, (∀ ch, tree_lookup pd n = Some (Dir ch) → h ch = g ch) →
       dir_alter h pd n = dir_alter g pd n.
Proof.
  induction pd as [|c pd IH]; intros [d|ch] H; try done.
  - simpl. by rewrite (H ch).
  - simpl. destruct (ch !! c) as [m|] eqn:Hc; [|done].
    rewrite (IH m); [done |]. intros ch' Hl. apply H.
    by rewrite tree_lookup_cons, Hc.
Qed.

Lemma dir_alter_same (pd : list string) :
  ∀ n, dir_alter (λ ch, ch) pd n = n.
Proof.
  induction pd as [|c pd IH]; intros [d|ch]; try done.
  simpl. destruct (ch !! c) as [m|] eqn:Hc; [|done].
  by rewrite IH, insert_id.
Qed.

Lemma dir_alter_id (h : gmap string node → gmap string node)
    (pd : list string) (n : node) :
  (∀ ch, tree_lookup pd n = Some (Dir ch) → h ch = ch) → dir_alter h pd n = n.
Proof. intros H. rewrite (dir_alter_ext h (λ ch, ch)); [apply dir_alter_same | done]. Qed.

Lemma lookup_dir_alter (h : gmap string node → gmap string node)
    (pd : list string) :
  ∀ n ch, tree_lookup pd n = Some (Dir ch) →
          tree_lookup pd (dir_alter h pd n) = Some (Dir (h ch)).
Proof.
  induction pd as [|c pd IH]; intros [d|ch0] ch; try done.
  - by intros [= ->].
  - simpl. destruct (ch0 !! c) as [m|] eqn:Hc; [|done].
    intros Hl. simpl. rewrite lookup_insert_eq. by apply IH.
Qed.

(** ** File-system calls on an entry of a directory *)

Section child.
Context (pd : list string) (x : string) (fs : node) (ch : gmap string node).
Hypothesis Hpd : ".." ∉ pd.
Hypothesis Hx : x ≠ "..".
Hypothesis Hdir : tree_lookup pd fs = Some (Dir ch).

Lemma child_plain : ".." ∉ pd ++ [x].
Proof. by apply plain_snoc. Qed.

Lemma locate_child : locate fs (pd ++ [x]) = inr (pd ++ [x]).
Proof. by eapply locate_plain_child. Qed.

Lemma lookup_child : tree_lookup (pd ++ [x]) fs = ch !! x.
Proof. by apply tree_lookup_snoc. Qed.

Lemma stat_of_child :
  stat fs (pd ++ [x]) = match ch !! x with Some n => inr n | None => inl ENOENT end.
Proof. unfold stat. by rewrite locate_child, lookup_child. Qed.

Lemma path_exists_child :
  path_exists fs (pd ++ [x]) = bool_decide (is_Some (ch !! x)).
Proof.
  unfold path_exists. rewrite stat_of_child.
  destruct (ch !! x); [by rewrite bool_decide_eq_true_2 |].
  rewrite bool_decide_eq_false_2; [done | by intros []].
Qed.

Lemma is_dir_child :
  is_dir fs (pd ++ [x]) = match ch !! x with Some (Dir _) => true | _ => false end.
Proof. unfold is_dir. rewrite stat_of_child. by destruct (ch !! x) as [[]|]. Qed.

Lemma read_file_child (d : string) :
  ch !! x = Some (File d) → read_file fs (pd ++ [x]) = inr d.
Proof. intros H. unfold read_file. by rewrite stat_of_child, H. Qed.

Lemma open_wb_child :
  (∀ sub, ch !! x ≠ Some (Dir sub)) →
  open_wb fs (pd ++ [x]) = inr (dir_alter (<[x := File ""]>) pd fs).
Proof.
  intros H. unfold open_wb. rewrite locate_child, lookup_child, tree_alter_dir.
  destruct (ch !! x) as [[d|sub]|]; try done. by destruct (H sub).
Qed.

Lemma file_write_child (d chunk : string) :
  ch !! x = Some (File d) →
  file_write fs (pd ++ [x]) chunk
  = inr (dir_alter (<[x := File (d +:+ chunk)]>) pd fs).
Proof.
  intros H. unfold file_write.
  by rewrite locate_child, lookup_child, H, tree_alter_dir.
Qed.

Lemma unlink_child (d : string) :
  ch !! x = Some (File d) →
  unlink fs (pd ++ [x]) = inr (dir_alter (delete x) pd fs).
Proof.
  intros H. unfold unlink.
  by rewrite locate_child, lookup_child, H, tree_alter_dir.
Qed.

Lemma pinned_child : pinned (pd ++ [x]) = false.
Proof. unfold pinned. rewrite List.last_last. by apply String.eqb_neq. Qed.

Lemma rmtree_child (sub : gmap string node) :
  ch !! x = Some (Dir sub) →
  rmtree fs (pd ++ [x]) = (dir_alter (delete x) pd fs, None).
Proof.
  intros H. unfold rmtree.
  by rewrite locate_child, lookup_child, H, pinned_child, tree_alter_dir.
Qed.
End child.

(** A rename between two entries of one directory, the second of which
    does not exist. *)
Lemma os_rename_child (pd : list string) (x1 x2 : string) (fs : node)
    (ch : gmap string node) (n : node) :
  ".." ∉ pd → x1 ≠ ".." → x2 ≠ ".." → x1 ≠ x2 →
  tree_lookup pd fs = Some (Dir ch) →
  ch !! x1 = Some n → ch !! x2 = None →
  os_rename fs (pd ++ [x1]) (pd ++ [x2])
  = inr (dir_alter (λ ch, <[x2 := n]> (delete x1 ch)) pd fs).
Proof.
  intros Hpd H1 H2 Hne Hdir Hn Hnone. unfold os_rename.
  rewrite (locate_child pd x1 fs ch), (locate_child pd x2 fs ch) by done.
  rewrite (lookup_child pd x1 fs ch), (lookup_child pd x2 fs ch), Hn, Hnone by done.
  rewrite !pinned_child by done.
  rewrite !is_prefix_app. simpl is_prefix.
  apply String.eqb_neq in Hne as Hne1. rewrite Hne1.
  rewrite String.eqb_sym in Hne1. rewrite Hne1. simpl.
  by rewrite !tree_alter_dir, dir_alter_compose.
Qed.

Lemma child_inv (pd : list string) (x : string) (fs n : node) :
  tree_lookup (pd ++ [x]) fs = Some n →
  ∃ ch, tree_lookup pd fs = Some (Dir ch) ∧ ch !! x = Some n.
Proof.
  rewrite tree_lookup_app.
  destruct (tree_lookup pd fs) as [[d|ch]|]; simpl; try done.
  destruct (ch !! x) eqn:Hx; [|done]. intros [= ->]. eauto.
Qed.

Lemma is_dir_child_inv (pd : list string) (x : string) (fs : node) :
  ".." ∉ pd → x ≠ ".." → is_dir fs (pd ++ [x]) = true →
  ∃ ch sub, tree_lookup pd fs = Some (Dir ch) ∧ ch !! x = Some (Dir sub).
Proof.
  intros Hpd Hx Hd. apply is_dir_plain in Hd as [sub Hsub]; [|by apply plain_snoc].
  apply child_inv in Hsub as (ch & Hch & Hx'). eauto.
Qed.

(** The two traces only grow along a status update that follows a state
    whose traces extend those of [w0]. *)
Lemma status_extends_from (cb : option callback) (msg : string)
    (ty : option string) (w0 w w' : world) :
  (∃ pre, w_calls w = w_calls w0 ++ pre) →
  (∃ pre, w_log w = w_log w0 ++ pre) →
  (cb = None → w_calls w = w_calls w0) →
  _status_update cb msg ty w = (Ret tt, w') →
  (∃ pre, w_calls w' = w_calls w0 ++ pre)
  ∧ (∃ pre, w_log w' = w_log w0 ++ pre)
  ∧ (cb = None → w_calls w' = w_calls w0).
Proof.
  intros Hc Hl Hn Hrun.
  destruct (status_update_extends _ _ _ _ _ Hrun) as (Hc' & Hl' & Hn').
  split; [by eapply trace_trans |]. split; [by eapply log_trans |].
  intros Hcb. by rewrite Hn', Hn.
Qed.

(** ** Enable, disable and remove, when they go through *)

Section lifecycle_runs.
Context (E : env) (cb : option callback) (name : string) (w : world).
Context (ch sub : gmap string node).
Local Abbreviation pd := (plugin_dir_path E).
Hypothesis Hsafe : safe_segment name = true.
Hypothesis Hplain : ".." ∉ p_parts pd.
Hypothesis Hdir : tree_lookup (p_parts pd) (w_fs w) = Some (Dir ch).

Lemma disable_run :
  ch !! name = Some (Dir sub) → ch !! (name +:+ DISABLED) = None →
  ∃ w', disable_plugin E name cb w = (Ret true, w')
        ∧ w_fs w' = dir_alter (λ ch, <[name +:+ DISABLED := Dir sub]> (delete name ch))
                      (p_parts pd) (w_fs w)
        ∧ last_status cb w w'
            "Please restart EDMC for changes to take effect." (Some "warning").
Proof.
  intros Hen Hdis. unfold disable_plugin, try_except_OSError, try_except. cbv zeta.
  rewrite (enabled_path_parts E name Hsafe), (disabled_path_parts E name Hsafe).
  pose proof (safe_not_dotdot _ Hsafe) as Hn.
  pose proof (disabled_not_dotdot name Hsafe) as Hd.
  step_status w1 Hrun1 Hfs1 H1.
  destruct (status_update_extends _ _ _ _ _ Hrun1) as (Hc1 & Hl1 & Hn1).
  rewrite bind_run. unfold get_fs. cbv beta iota. rewrite Hfs1.
  rewrite (is_dir_child _ _ _ ch), (path_exists_child _ _ _ ch), Hen, Hdis by done.
  rewrite bool_decide_eq_false_2 by by intros []. cbn [negb].
  rewrite bind_run. unfold lift_fs. rewrite Hfs1.
  rewrite (os_rename_child _ _ _ _ ch (Dir sub)) by
    (try done; apply name_ne_disabled).
  step_status w2 Hrun2 Hfs2 H2.
  destruct (status_extends_from _ _ _ w (set_fs _ w1) _ Hc1 Hl1 Hn1 Hrun2)
    as (Hc2 & Hl2 & Hn2).
  step_status w3 Hrun3 Hfs3 H3. exists w3. split; [done |].
  split; [by rewrite Hfs3, Hfs2 |]. by eapply last_status_step.
Qed.
Lemma enable_run :
  ch !! (name +:+ DISABLED) = Some (Dir sub) → ch !! name = None →
  ∃ w', enable_plugin E name cb w = (Ret true, w')
        ∧ w_fs w' = dir_alter (λ ch, <[name := Dir sub]> (delete (name +:+ DISABLED) ch))
                      (p_parts pd) (w_fs w)
        ∧ last_status cb w w'
            "Please restart EDMC for changes to take effect." (Some "warning").
Proof.
  intros Hdis Hen. unfold enable_plugin, try_except_OSError, try_except. cbv zeta.
  rewrite (enabled_path_parts E name Hsafe), (disabled_path_parts E name Hsafe).
  pose proof (safe_not_dotdot _ Hsafe) as Hn.
  pose proof (disabled_not_dotdot name Hsafe) as Hd.
  step_status w1 Hrun1 Hfs1 H1.
  destruct (status_update_extends _ _ _ _ _ Hrun1) as (Hc1 & Hl1 & Hn1).
  rewrite bind_run. unfold get_fs. cbv beta iota. rewrite Hfs1.
  rewrite (is_dir_child _ _ _ ch), (path_exists_child _ _ _ ch), Hen, Hdis by done.
  rewrite bool_decide_eq_false_2 by by intros []. cbn [negb].
  rewrite bind_run. unfold lift_fs. rewrite Hfs1.
  rewrite (os_rename_child _ _ _ _ ch (Dir sub)) by
    (try done; apply not_eq_sym, name_ne_disabled).
  step_status w2 Hrun2 Hfs2 H2.
  destruct (status_extends_from _ _ _ w (set_fs _ w1) _ Hc1 Hl1 Hn1 Hrun2)
    as (Hc2 & Hl2 & Hn2).
  step_status w3 Hrun3 Hfs3 H3. exists w3. split; [done |].
  split; [by rewrite Hfs3, Hfs2 |]. by eapply last_status_step.
Qed.

Lemma remove_run :
  ch !! name = Some (Dir sub) →
  ∃ w', remove_plugin E name cb w = (Ret true, w')
        ∧ w_fs w' = dir_alter (delete name) (p_parts pd) (w_fs w)
        ∧ last_status cb w w'
            "Please restart EDMC for changes to take effect." (Some "warning").
Proof.
  intros Hen. unfold remove_plugin, try_except. cbv zeta.
  rewrite (enabled_path_parts E name Hsafe).
  pose proof (safe_not_dotdot _ Hsafe) as Hn.
  step_status w1 Hrun1 Hfs1 H1.
  destruct (status_update_extends _ _ _ _ _ Hrun1) as (Hc1 & Hl1 & Hn1).
  rewrite bind_run. unfold get_fs. cbv beta iota. rewrite Hfs1.
  rewrite (is_dir_child _ _ _ ch), Hen by done. cbn [negb].
  rewrite bind_run. unfold lift_rmtree. rewrite Hfs1.
  rewrite (rmtree_child _ _ _ ch) with (sub := sub) by done.
  step_status w2 Hrun2 Hfs2 H2.
  destruct (status_extends_from _ _ _ w (set_fs _ w1) _ Hc1 Hl1 Hn1 Hrun2)
    as (Hc2 & Hl2 & Hn2).
  step_status w3 Hrun3 Hfs3 H3. exists w3. split; [done |].
  split; [by rewrite Hfs3, Hfs2 |]. by eapply last_status_step.
Qed.
End lifecycle_runs.

(** A change of the entries of [pd] that keeps the entry [y] keeps
    everything at and below it. *)
Lemma dir_alter_frame (h : gmap string node → gmap string node)
    (pd : list string) (y : string) (t : list string) :
  (∀ ch, h ch !! y = ch !! y) →
  ∀ n, tree_lookup (pd ++ y :: t) (dir_alter h pd n) = tree_lookup (pd ++ y :: t) n.
Proof.
  intros Hh. induction pd as [|c pd IH]; intros [d|ch]; try done.
  - simpl. by rewrite Hh.
  - simpl. destruct (ch !! c) as [m|] eqn:Hc; simpl; rewrite ?Hc; [|done].
    by rewrite lookup_insert_eq, IH.
Qed.

Lemma dir_alter_untouched (h : gmap string node → gmap string node)
    (pd xs : list string) (fs : node) :
  (∀ ch y, y ∉ xs → h ch !! y = ch !! y) →
  untouched_outside pd xs fs (dir_alter h pd fs).
Proof. intros Hh y t Hy. apply dir_alter_frame. intros ch. by apply Hh. Qed.

Lemma path_exists_child_false (pd : list string) (x : string) (fs : node)
    (ch : gmap string node) :
  ".." ∉ pd → x ≠ ".." → tree_lookup pd fs = Some (Dir ch) →
  path_exists fs (pd ++ [x]) = false ↔ ch !! x = None.
Proof.
  intros Hpd Hx Hdir. rewrite (path_exists_child pd x fs ch) by done.
  destruct (ch !! x).
  - rewrite bool_decide_eq_true_2 by done. split; done.
  - rewrite bool_decide_eq_false_2 by by intros []. done.
Qed.

(** X4: disabling a plugin whose folder is a directory, while no entry
    with the disabled name exists, succeeds: the folder with everything in
    it is found under the disabled name, nothing is left under the
    enabled name, the other entries of the plugin directory are as they
    were, and the last status notification is the restart warning. *)
Theorem disable_renames_folder (E : env) (cb : option callback) (name : string)
    (w : world) :
  safe_segment name = true →
  dotdot_free (p_parts (plugin_dir_path E)) = true →
  is_dir (w_fs w) (p_parts (joinpath (plugin_dir_path E) name)) = true →
  path_exists (w_fs w) (p_parts (disabled_path_of (plugin_dir_path E) name)) = false →
  ∃ w', disable_plugin E name cb w = (Ret true, w')
        ∧ stat (w_fs w') (p_parts (disabled_path_of (plugin_dir_path E) name))
          = stat (w_fs w) (p_parts (joinpath (plugin_dir_path E) name))
        ∧ path_exists (w_fs w') (p_parts (joinpath (plugin_dir_path E) name)) = false
        ∧ untouched_outside (p_parts (plugin_dir_path E)) [name; name +:+ DISABLED]
            (w_fs w) (w_fs w')
        ∧ last_status cb w w'
            "Please restart EDMC for changes to take effect." (Some "warning").
Proof.
  intros Hsafe Hplain%dotdot_free_spec. unfold disabled_path_of.
  rewrite (enabled_path_parts E name Hsafe), (disabled_path_parts E name Hsafe).
  pose proof (safe_not_dotdot _ Hsafe) as Hn.
  pose proof (disabled_not_dotdot name Hsafe) as Hd.
  intros (ch & sub & Hdir & Hen)%is_dir_child_inv Hdis; try done.
  apply (path_exists_child_false _ _ _ ch) in Hdis; try done.
  destruct (disable_run E cb name w ch sub Hsafe Hplain Hdir Hen Hdis)
    as (w' & Hrun & Hfs & Hlast).
  exists w'. split; [done |].
  pose proof (lookup_dir_alter
                (λ ch, <[name +:+ DISABLED := Dir sub]> (delete name ch))
                _ _ _ Hdir) as Hdir'.
  rewrite <- Hfs in Hdir'.
  rewrite (stat_of_child _ _ _ _ Hplain Hd Hdir'), (stat_of_child _ _ _ _ Hplain Hn Hdir).
  rewrite (path_exists_child_false _ _ _ _ Hplain Hn Hdir').
  rewrite lookup_insert_eq, Hen, lookup_insert_ne, lookup_delete_eq
    by apply not_eq_sym, name_ne_disabled.
  repeat split; try done.
  rewrite Hfs. apply dir_alter_untouched. intros ch0 y Hy.
  rewrite lookup_insert_ne, lookup_delete_ne; [done | |];
    intros <-; apply Hy; names.
Qed.

Lemma disable_renames_folder_witness :
  ∃ w', disable_plugin sample_env "P" None (world_of fs_with_P) = (Ret true, w')
        ∧ stat (w_fs w') ["plugins"; "P.disabled"] = inr plugin_folder
        ∧ path_exists (w_fs w') ["plugins"; "P"] = false
        ∧ untouched_outside ["plugins"] ["P"; "P.disabled"] fs_with_P (w_fs w')
        ∧ last_status None (world_of fs_with_P) w'
            "Please restart EDMC for changes to take effect." (Some "warning").
Proof.
  apply (disable_renames_folder sample_env None "P" (world_of fs_with_P)).
  - reflexivity.
  - reflexivity.
  - vm_compute. reflexivity.
  - vm_compute. reflexivity.
Defined.

(** X5: enabling a plugin whose disabled folder is a directory, while no
    entry with the enabled name exists, succeeds: the folder with
    everything in it is found under the enabled name, nothing is left
    under the disabled name, the other entries of the plugin directory
    are as they were, and the last status notification is the restart
    warning. *)
Theorem enable_renames_folder (E : env) (cb : option callback) (name : string)
    (w : world) :
  safe_segment name = true →
  dotdot_free (p_parts (plugin_dir_path E)) = true →
  is_dir (w_fs w) (p_parts (disabled_path_of (plugin_dir_path E) name)) = true →
  path_exists (w_fs w) (p_parts (joinpath (plugin_dir_path E) name)) = false →
  ∃ w', enable_plugin E name cb w = (Ret true, w')
        ∧ stat (w_fs w') (p_parts (joinpath (plugin_dir_path E) name))
          = stat (w_fs w) (p_parts (disabled_path_of (plugin_dir_path E) name))
        ∧ path_exists (w_fs w')
            (p_parts (disabled_path_of (plugin_dir_path E) name)) = false
        ∧ untouched_outside (p_parts (plugin_dir_path E)) [name; name +:+ DISABLED]
            (w_fs w) (w_fs w')
        ∧ last_status cb w w'
            "Please restart EDMC for changes to take effect." (Some "warning").
Proof.
  intros Hsafe Hplain%dotdot_free_spec. unfold disabled_path_of.
  rewrite (enabled_path_parts E name Hsafe), (disabled_path_parts E name Hsafe).
  pose proof (safe_not_dotdot _ Hsafe) as Hn.
  pose proof (disabled_not_dotdot name Hsafe) as Hd.
  intros (ch & sub & Hdir & Hdis)%is_dir_child_inv Hen; try done.
  apply (path_exists_child_false _ _ _ ch) in Hen; try done.
  destruct (enable_run E cb name w ch sub Hsafe Hplain Hdir Hdis Hen)
    as (w' & Hrun & Hfs & Hlast).
  exists w'. split; [done |].
  pose proof (lookup_dir_alter
                (λ ch, <[name := Dir sub]> (delete (name +:+ DISABLED) ch))
                _ _ _ Hdir) as Hdir'.
  rewrite <- Hfs in Hdir'.
  rewrite (stat_of_child _ _ _ _ Hplain Hn Hdir'), (stat_of_child _ _ _ _ Hplain Hd Hdir).
  rewrite (path_exists_child_false _ _ _ _ Hplain Hd Hdir').
  rewrite lookup_insert_eq, Hdis, lookup_insert_ne, lookup_delete_eq
    by apply name_ne_disabled.
  repeat split; try done.
  rewrite Hfs. apply dir_alter_untouched. intros ch0 y Hy.
  rewrite lookup_insert_ne, lookup_delete_ne; [done | |];
    intros <-; apply Hy; names.
Qed.

Lemma enable_renames_folder_witness :
  ∃ w', enable_plugin sample_env "Q" None (world_of fs_mixed) = (Ret true, w')
        ∧ stat (w_fs w') ["plugins"; "Q"] = inr plugin_folder
        ∧ path_exists (w_fs w') ["plugins"; "Q.disabled"] = false
        ∧ untouched_outside ["plugins"] ["Q"; "Q.disabled"] fs_mixed (w_fs w')
        ∧ last_status None (world_of fs_mixed) w'
            "Please restart EDMC for changes to take effect." (Some "warning").
Proof.
  apply (enable_renames_folder sample_env None "Q" (world_of fs_mixed)).
  - reflexivity.
  - reflexivity.
  - vm_compute. reflexivity.
  - vm_compute. reflexivity.
Defined.

(** X6: disabling a plugin and enabling it again, or enabling a disabled
    plugin and disabling it again, leaves the file system exactly as it
    was; both steps succeed. *)
Theorem toggle_twice_restores (E : env) (cb cb' : option callback)
    (name : string) (w : world) :
  safe_segment name = true →
  dotdot_free (p_parts (plugin_dir_path E)) = true →
  (is_dir (w_fs w) (p_parts (joinpath (plugin_dir_path E) name)) = true →
   path_exists (w_fs w) (p_parts (disabled_path_of (plugin_dir_path E) name)) = false →
   ∃ w1 w2, disable_plugin E name cb w = (Ret true, w1)
            ∧ enable_plugin E name cb' w1 = (Ret true, w2)
            ∧ w_fs w2 = w_fs w)
  ∧ (is_dir (w_fs w) (p_parts (disabled_path_of (plugin_dir_path E) name)) = true →
     path_exists (w_fs w) (p_parts (joinpath (plugin_dir_path E) name)) = false →
     ∃ w1 w2, enable_plugin E name cb w = (Ret true, w1)
              ∧ disable_plugin E name cb' w1 = (Ret true, w2)
              ∧ w_fs w2 = w_fs w).
Proof.
  intros Hsafe Hplain%dotdot_free_spec. unfold disabled_path_of.
  rewrite (enabled_path_parts E name Hsafe), (disabled_path_parts E name Hsafe).
  pose proof (safe_not_dotdot _ Hsafe) as Hn.
  pose proof (disabled_not_dotdot name Hsafe) as Hd.
  pose proof (name_ne_disabled name) as Hne.
  split.
  - intros (ch & sub & Hdir & Hen)%is_dir_child_inv Hdis; try done.
    apply (path_exists_child_false _ _ _ ch) in Hdis; try done.
    destruct (disable_run E cb name w ch sub Hsafe Hplain Hdir Hen Hdis)
      as (w1 & Hrun1 & Hfs1 & _).
    pose proof (lookup_dir_alter
                  (λ ch, <[name +:+ DISABLED := Dir sub]> (delete name ch))
                  _ _ _ Hdir) as Hdir1.
    rewrite <- Hfs1 in Hdir1.
    destruct (enable_run E cb' name w1 _ sub Hsafe Hplain Hdir1)
      as (w2 & Hrun2 & Hfs2 & _).
    { by rewrite lookup_insert_eq. }
    { by rewrite lookup_insert_ne, lookup_delete_eq by by apply not_eq_sym. }
    exists w1, w2. split; [done |]. split; [done |].
    rewrite Hfs2, Hfs1, dir_alter_compose. apply dir_alter_id.
    intros ch0 Hch0. rewrite Hdir in Hch0. injection Hch0 as <-. simpl.
    by rewrite delete_insert_eq, delete_id, insert_delete_id
      by by rewrite ?lookup_delete_ne.
  - intros (ch & sub & Hdir & Hdis)%is_dir_child_inv Hen; try done.
    apply (path_exists_child_false _ _ _ ch) in Hen; try done.
    destruct (enable_run E cb name w ch sub Hsafe Hplain Hdir Hdis Hen)
      as (w1 & Hrun1 & Hfs1 & _).
    pose proof (lookup_dir_alter
                  (λ ch, <[name := Dir sub]> (delete (name +:+ DISABLED) ch))
                  _ _ _ Hdir) as Hdir1.
    rewrite <- Hfs1 in Hdir1.
    destruct (disable_run E cb' name w1 _ sub Hsafe Hplain Hdir1)
      as (w2 & Hrun2 & Hfs2 & _).
    { by rewrite lookup_insert_eq. }
    { by rewrite lookup_insert_ne, lookup_delete_eq. }
    exists w1, w2. split; [done |]. split; [done |].
    rewrite Hfs2, Hfs1, dir_alter_compose. apply dir_alter_id.
    intros ch0 Hch0. rewrite Hdir in Hch0. injection Hch0 as <-. simpl.
    by rewrite delete_insert_eq, delete_id, insert_delete_id
      by by rewrite ?lookup_delete_ne by by apply not_eq_sym.
Qed.

Lemma toggle_twice_restores_witness :
  ∃ w1 w2, disable_plugin sample_env "P" None (world_of fs_with_P) = (Ret true, w1)
           ∧ enable_plugin sample_env "P" None w1 = (Ret true, w2)
           ∧ w_fs w2 = fs_with_P.
Proof.
  apply (proj1 (toggle_twice_restores sample_env None None "P" (world_of fs_with_P)
                  eq_refl eq_refl)).
  - vm_compute. reflexivity.
  - vm_compute. reflexivity.
Defined.

(** X7: enable refuses a plugin that has no disabled folder, and disable
    a plugin that has no enabled folder (there is no such entry, or it
    is a regular file): the result is false, the file system is
    unchanged and the last status notification is an error.  This holds
    for every name. *)
Theorem toggle_refuses_missing_folder (E : env) (cb : option callback)
    (name : string) (w : world) :
  (is_dir (w_fs w) (p_parts (disabled_path_of (plugin_dir_path E) name)) = false →
   ∃ w', enable_plugin E name cb w = (Ret false, w')
         ∧ w_fs w' = w_fs w ∧ error_reported cb w w')
  ∧ (is_dir (w_fs w) (p_parts (joinpath (plugin_dir_path E) name)) = false →
     ∃ w', disable_plugin E name cb w = (Ret false, w')
           ∧ w_fs w' = w_fs w ∧ error_reported cb w w').
Proof.
  unfold disabled_path_of. split; intros Hd.
  - unfold enable_plugin. cbv zeta.
    step_status w1 Hrun1 Hfs1 H1.
    destruct (status_update_extends _ _ _ _ _ Hrun1) as (Hc1 & Hl1 & Hn1).
    rewrite bind_run. unfold get_fs. cbv beta iota. rewrite Hfs1, Hd. cbn [negb].
    step_status w2 Hrun2 Hfs2 H2. exists w2. split; [done |].
    split; [congruence |]. by eapply error_reported_step.
  - unfold disable_plugin. cbv zeta.
    step_status w1 Hrun1 Hfs1 H1.
    destruct (status_update_extends _ _ _ _ _ Hrun1) as (Hc1 & Hl1 & Hn1).
    rewrite bind_run. unfold get_fs. cbv beta iota. rewrite Hfs1, Hd. cbn [negb].
    step_status w2 Hrun2 Hfs2 H2. exists w2. split; [done |].
    split; [congruence |]. by eapply error_reported_step.
Qed.

Lemma toggle_refuses_missing_folder_witness :
  ∃ w', enable_plugin sample_env "P" None (world_of fs_with_P) = (Ret false, w')
        ∧ w_fs w' = fs_with_P ∧ error_reported None (world_of fs_with_P) w'.
Proof.
  apply (proj1 (toggle_refuses_missing_folder sample_env None "P" (world_of fs_with_P))).
  vm_compute. reflexivity.
Defined.

(** X8: removing a folder of the plugin directory that is a directory
    succeeds: afterwards nothing exists under that name, the other
    entries of the plugin directory are as they were, and the last status
    notification is the restart warning. *)
Theorem remove_deletes_folder (E : env) (cb : option callback) (folder : string)
    (w : world) :
  safe_segment folder = true →
  dotdot_free (p_parts (plugin_dir_path E)) = true →
  is_dir (w_fs w) (p_parts (joinpath (plugin_dir_path E) folder)) = true →
  ∃ w', remove_plugin E folder cb w = (Ret true, w')
        ∧ path_exists (w_fs w') (p_parts (joinpath (plugin_dir_path E) folder)) = false
        ∧ untouched_outside (p_parts (plugin_dir_path E)) [folder] (w_fs w) (w_fs w')
        ∧ last_status cb w w'
            "Please restart EDMC for changes to take effect." (Some "warning").
Proof.
  intros Hsafe Hplain%dotdot_free_spec.
  rewrite (enabled_path_parts E folder Hsafe).
  pose proof (safe_not_dotdot _ Hsafe) as Hn.
  intros (ch & sub & Hdir & Hen)%is_dir_child_inv; try done.
  destruct (remove_run E cb folder w ch sub Hsafe Hplain Hdir Hen)
    as (w' & Hrun & Hfs & Hlast).
  exists w'. split; [done |].
  pose proof (lookup_dir_alter (delete folder) _ _ _ Hdir) as Hdir'.
  rewrite <- Hfs in Hdir'.
  rewrite (path_exists_child_false _ _ _ _ Hplain Hn Hdir'), lookup_delete_eq.
  repeat split; try done.
  rewrite Hfs. apply dir_alter_untouched. intros ch0 y Hy.
  rewrite lookup_delete_ne; [done |]. intros <-. apply Hy. names.
Qed.

Lemma remove_deletes_folder_witness :
  ∃ w', remove_plugin sample_env "Q.disabled" None (world_of fs_mixed) = (Ret true, w')
        ∧ path_exists (w_fs w') ["plugins"; "Q.disabled"] = false
        ∧ untouched_outside ["plugins"] ["Q.disabled"] fs_mixed (w_fs w')
        ∧ last_status None (world_of fs_mixed) w'
            "Please restart EDMC for changes to take effect." (Some "warning").
Proof.
  apply (remove_deletes_folder sample_env None "Q.disabled" (world_of fs_mixed)).
  - reflexivity.
  - reflexivity.
  - vm_compute. reflexivity.
Defined.

(** X9: remove refuses a name under which there is no directory (no
    entry at all, or a regular file): the result is false, nothing is
    deleted and the last status notification is an error.  This holds
    for every folder name. *)
Theorem remove_refuses_non_directory (E : env) (cb : option callback)
    (folder : string) (w : world) :
  is_dir (w_fs w) (p_parts (joinpath (plugin_dir_path E) folder)) = false →
  ∃ w', remove_plugin E folder cb w = (Ret false, w')
        ∧ w_fs w' = w_fs w ∧ error_reported cb w w'.
Proof.
  intros Hd. unfold remove_plugin. cbv zeta.
  step_status w1 Hrun1 Hfs1 H1.
  destruct (status_update_extends _ _ _ _ _ Hrun1) as (Hc1 & Hl1 & Hn1).
  rewrite bind_run. unfold get_fs. cbv beta iota. rewrite Hfs1, Hd. cbn [negb].
  step_status w2 Hrun2 Hfs2 H2. exists w2. split; [done |].
  split; [congruence |]. by eapply error_reported_step.
Qed.

Lemma remove_refuses_non_directory_witness :
  ∃ w', remove_plugin sample_env "notes.txt" None (world_of fs_mixed) = (Ret false, w')
        ∧ w_fs w' = fs_mixed ∧ error_reported None (world_of fs_mixed) w'.
Proof.
  apply (remove_refuses_non_directory sample_env None "notes.txt" (world_of fs_mixed)).
  vm_compute. reflexivity.
Defined.

(** X10: a folder name that path parsing drops, the empty string or
    ["."], makes remove work on the plugin directory itself: when that is
    a directory, remove deletes it with every plugin in it and reports
    success. *)
Theorem remove_empty_name_deletes_plugin_directory (E : env)
    (cb : option callback) (folder : string) (w : world) :
  folder = "" ∨ folder = "." →
  dotdot_free (p_parts (plugin_dir_path E)) = true →
  p_parts (plugin_dir_path E) ≠ [] →
  is_dir (w_fs w) (p_parts (plugin_dir_path E)) = true →
  ∃ w', remove_plugin E folder cb w = (Ret true, w')
        ∧ path_exists (w_fs w') (p_parts (plugin_dir_path E)) = false.
Proof.
  intros Hf Hplain%dotdot_free_spec Hne.
  assert (Hj : p_parts (joinpath (plugin_dir_path E) folder)
               = p_parts (plugin_dir_path E)).
  { destruct Hf as [-> | ->]; unfold joinpath; simpl; by rewrite app_nil_r. }
  destruct (exists_last Hne) as (pd0 & x & Hparts). rewrite Hparts in *.
  assert (Hpd0 : ".." ∉ pd0) by (intros H; apply Hplain, elem_of_app; by left).
  assert (Hx : x ≠ "..").
  { intros ->. apply Hplain, elem_of_app. right. by left. }
  intros (ch & sub & Hdir & Hen)%is_dir_child_inv; try done.
  unfold remove_plugin, try_except. cbv zeta. rewrite Hj.
  step_status w1 Hrun1 Hfs1 H1.
  rewrite bind_run. unfold get_fs. cbv beta iota. rewrite Hfs1.
  rewrite (is_dir_child _ _ _ ch), Hen by done. cbn [negb].
  rewrite bind_run. unfold lift_rmtree. rewrite Hfs1.
  rewrite (rmtree_child _ _ _ ch) with (sub := sub) by done.
  step_status w2 Hrun2 Hfs2 H2. step_status w3 Hrun3 Hfs3 H3.
  exists w3. split; [done |]. rewrite Hfs3, Hfs2. simpl.
  pose proof (lookup_dir_alter (delete x) _ _ _ Hdir) as Hdir'.
  by rewrite (path_exists_child_false _ _ _ _ Hpd0 Hx Hdir'), lookup_delete_eq.
Qed.

Lemma remove_empty_name_deletes_plugin_directory_witness :
  ∃ w', remove_plugin sample_env "" None (world_of fs_mixed) = (Ret true, w')
        ∧ path_exists (w_fs w') ["plugins"] = false.
Proof.
  apply (remove_empty_name_deletes_plugin_directory sample_env None ""
           (world_of fs_mixed)).
  - by left.
  - reflexivity.
  - done.
  - vm_compute. reflexivity.
Defined.

(** ** The scan, before and after an operation *)

Lemma stat_dir_plain (fs : node) (p : list string) (ch : gmap string node) :
  ".." ∉ p → stat fs p = inr (Dir ch) ↔ tree_lookup p fs = Some (Dir ch).
Proof.
  intros Hp. pose proof (stat_plain fs p Hp) as H.
  destruct (stat fs p) as [e|n]; split; intros Heq; try congruence.
Qed.

(** What the scan returns, in terms of the entries of the plugin
    directory. *)
Lemma scan_run (E : env) (w : world) (ch : gmap string node) :
  stat (w_fs w) (p_parts (plugin_dir_path E)) = inr (Dir ch) →
  ch !! ".." = None →
  ∃ l w', get_installed_plugins E w = (Ret l, w')
          ∧ w_fs w' = w_fs w
          ∧ (∀ e, e ∈ l ↔
                  ∃ c n, ch !! c = Some n ∧ is_plugin_folder n = true
                         ∧ reports (plugin_dir_path E) c e)
          ∧ Forall2 (reports (plugin_dir_path E))
              (filter (λ c, plugin_child ch c = true) (map_to_list ch).*1) l.
Proof.
  intros Hst Hdd. unfold get_installed_plugins. rewrite bind_run.
  unfold get_fs. cbv beta iota zeta. unfold is_dir at 1, iterdir. rewrite Hst.
  cbn [negb].
  destruct (scan_items_run (plugin_dir_path E) ch (map_to_list ch).*1)
    with (acc := @nil InstalledPluginInfo) (w := w) as (l & w' & Hrun & Hfs & HF).
  { intros [[c n] [Hc Hin]]%list_elem_of_fmap. simpl in Hc. subst c.
    apply elem_of_map_to_list in Hin. congruence. }
  { done. }
  exists l, w'. split; [done |]. split; [done |]. split; [|done].
  intros e. split.
  - intros He. destruct (proj1 (list_elem_of_lookup _ _) He) as [i Hi].
    destruct (Forall2_lookup_r _ _ _ _ _ HF Hi) as (c & Hc & Hrep).
    apply list_elem_of_lookup_2, list_elem_of_filter in Hc as [Hq _].
    apply plugin_child_spec in Hq as (n & Hn & Hq). eauto.
  - intros (c & n & Hn & Hq & Hrep).
    assert (Hc : c ∈ filter (λ c, plugin_child ch c = true)
                        (map_to_list ch).*1).
    { apply list_elem_of_filter. split; [apply plugin_child_spec; eauto |].
      apply list_elem_of_fmap. exists (c, n). split; [done |].
      by apply elem_of_map_to_list. }
    destruct (proj1 (list_elem_of_lookup _ _) Hc) as [i Hi].
    destruct (Forall2_lookup_l _ _ _ _ _ HF Hi) as (e' & He' & Hrep').
    rewrite (reports_functional _ _ _ _ Hrep Hrep').
    by eapply list_elem_of_lookup_2.
Qed.

(** The records of a directory whose entry [x] was renamed to [y]. *)
Lemma renamed_entry_records (pd : PurePath) (ch : gmap string node)
    (x y : string) (n : node) (e : InstalledPluginInfo) :
  x ≠ y → ch !! x = Some n → ch !! y = None →
  (∃ c m, <[y := n]> (delete x ch) !! c = Some m ∧ is_plugin_folder m = true
          ∧ reports pd c e)
  ↔ ((∃ c m, ch !! c = Some m ∧ is_plugin_folder m = true ∧ reports pd c e)
     ∧ ip_path e ≠ mkPath (p_root pd) (p_parts pd ++ [x]))
    ∨ (reports pd y e
       ∧ ∃ e0, (∃ c m, ch !! c = Some m ∧ is_plugin_folder m = true
                       ∧ reports pd c e0)
               ∧ ip_path e0 = mkPath (p_root pd) (p_parts pd ++ [x])).
Proof.
  intros Hne Hx Hy. split.
  - intros (c & m & Hc & Hm & Hrep).
    destruct (decide (c = y)) as [->|Hcy].
    + rewrite lookup_insert_eq in Hc. injection Hc as <-. right.
      split; [done |].
      exists (mkInstalled
                (if endswith x DISABLED
                 then str_chop (String.length DISABLED) x else x)
                (if endswith x DISABLED then "disabled" else "enabled")
                (mkPath (p_root pd) (p_parts pd ++ [x]))).
      split; [|done]. exists x, n. split; [done |]. split; [done |].
      apply endswith_reports.
    + rewrite lookup_insert_ne in Hc by done.
      destruct (decide (c = x)) as [->|Hcx]; [by rewrite lookup_delete_eq in Hc |].
      rewrite lookup_delete_ne in Hc by done. left. split; [eauto |].
      rewrite (reports_path _ _ _ Hrep). intros [= H].
      by apply app_inv_head in H as [= ->].
  - intros [[(c & m & Hc & Hm & Hrep) Hp] | [Hrep (e0 & (c & m & Hc & Hm & Hrep0) & Hp)]].
    + assert (Hcx : c ≠ x).
      { intros ->. apply Hp. by rewrite (reports_path _ _ _ Hrep). }
      assert (Hcy : c ≠ y) by (intros ->; congruence).
      exists c, m. by rewrite lookup_insert_ne, lookup_delete_ne.
    + rewrite (reports_path _ _ _ Hrep0) in Hp. injection Hp as Hp.
      apply app_inv_head in Hp as [= ->].
      exists y, n. rewrite lookup_insert_eq. split; [done |]. split; [|done].
      congruence.
Qed.

Lemma scan_after_rename (E : env) (w w1 : world) (ch : gmap string node)
    (x y : string) (n : node) (l : list InstalledPluginInfo) (w0 : world) :
  ".." ∉ p_parts (plugin_dir_path E) →
  tree_lookup (p_parts (plugin_dir_path E)) (w_fs w) = Some (Dir ch) →
  ch !! ".." = None → x ≠ y → y ≠ ".." →
  ch !! x = Some n → ch !! y = None →
  w_fs w1 = dir_alter (λ ch, <[y := n]> (delete x ch))
              (p_parts (plugin_dir_path E)) (w_fs w) →
  get_installed_plugins E w = (Ret l, w0) →
  ∃ l' w2, get_installed_plugins E w1 = (Ret l', w2)
    ∧ ∀ e, e ∈ l' ↔
        (e ∈ l ∧ ip_path e ≠ mkPath (p_root (plugin_dir_path E))
                               (p_parts (plugin_dir_path E) ++ [x]))
        ∨ (reports (plugin_dir_path E) y e
           ∧ ∃ e0, e0 ∈ l
                   ∧ ip_path e0 = mkPath (p_root (plugin_dir_path E))
                                    (p_parts (plugin_dir_path E) ++ [x])).
Proof.
  intros Hplain Hdir Hdd Hne Hy Hx Hny Hfs1 Hscan.
  destruct (scan_run E w ch) as (l0 & w0' & Hrun0 & _ & Hl0 & _);
    [by apply stat_dir_plain | done |].
  rewrite Hscan in Hrun0. injection Hrun0 as <- <-.
  pose proof (lookup_dir_alter (λ ch, <[y := n]> (delete x ch)) _ _ _ Hdir) as Hdir1.
  rewrite <- Hfs1 in Hdir1.
  destruct (scan_run E w1 (<[y := n]> (delete x ch))) as (l' & w2 & Hrun1 & _ & Hl' & _).
  { by apply stat_dir_plain. }
  { rewrite lookup_insert_ne by done.
    destruct (decide (x = "..")) as [->|Hx'];
      [by rewrite lookup_delete_eq | by rewrite lookup_delete_ne]. }
  exists l', w2. split; [done |]. intros e.
  rewrite Hl', (renamed_entry_records _ ch x y n e Hne Hx Hny), Hl0.
  split; (intros [H|[H1 (e0 & H2 & H3)]]; [by left | right]);
    (split; [done |]); exists e0; (split; [|done]); by apply Hl0.
Qed.

(** X11: the scan after a successful disable (or enable) returns the
    records it returned before, except that the record of the renamed
    folder, if there was one, is replaced by the record the scan makes of
    the folder's new name. *)
Theorem scan_after_toggle (E : env) (cb : option callback) (name : string)
    (w : world) (ch : gmap string node) (l : list InstalledPluginInfo)
    (w0 : world) :
  safe_segment name = true →
  dotdot_free (p_parts (plugin_dir_path E)) = true →
  stat (w_fs w) (p_parts (plugin_dir_path E)) = inr (Dir ch) →
  ch !! ".." = None →
  get_installed_plugins E w = (Ret l, w0) →
  (is_dir (w_fs w) (p_parts (joinpath (plugin_dir_path E) name)) = true →
   path_exists (w_fs w) (p_parts (disabled_path_of (plugin_dir_path E) name)) = false →
   ∃ w1 l' w2,
     disable_plugin E name cb w = (Ret true, w1)
     ∧ get_installed_plugins E w1 = (Ret l', w2)
     ∧ ∀ e, e ∈ l' ↔
         (e ∈ l ∧ ip_path e ≠ joinpath (plugin_dir_path E) name)
         ∨ (reports (plugin_dir_path E) (name +:+ DISABLED) e
            ∧ ∃ e0, e0 ∈ l ∧ ip_path e0 = joinpath (plugin_dir_path E) name))
  ∧ (is_dir (w_fs w) (p_parts (disabled_path_of (plugin_dir_path E) name)) = true →
     path_exists (w_fs w) (p_parts (joinpath (plugin_dir_path E) name)) = false →
     ∃ w1 l' w2,
       enable_plugin E name cb w = (Ret true, w1)
       ∧ get_installed_plugins E w1 = (Ret l', w2)
       ∧ ∀ e, e ∈ l' ↔
           (e ∈ l ∧ ip_path e ≠ disabled_path_of (plugin_dir_path E) name)
           ∨ (reports (plugin_dir_path E) name e
              ∧ ∃ e0, e0 ∈ l
                      ∧ ip_path e0 = disabled_path_of (plugin_dir_path E) name)).
Proof.
  intros Hsafe Hplain%dotdot_free_spec Hst Hdd Hscan.
  apply stat_dir_plain in Hst as Hdir; [|done].
  destruct (install_names_facts name Hsafe) as (_ & _ & Hsd & _).
  unfold disabled_path_of.
  rewrite (joinpath_safe _ _ Hsafe), (joinpath_safe _ _ Hsd). cbn [p_parts].
  pose proof (safe_not_dotdot _ Hsafe) as Hn.
  pose proof (disabled_not_dotdot name Hsafe) as Hd.
  pose proof (name_ne_disabled name) as Hne.
  split.
  - intros Hen Hdis.
    rewrite (is_dir_child _ _ _ ch) in Hen by done.
    destruct (ch !! name) as [[|sub]|] eqn:Hname; try done.
    apply (path_exists_child_false _ _ _ ch) in Hdis; try done.
    destruct (disable_run E cb name w ch sub Hsafe Hplain Hdir Hname Hdis)
      as (w1 & Hrun & Hfs & _).
    destruct (scan_after_rename E w w1 ch name (name +:+ DISABLED) (Dir sub) l w0)
      as (l' & w2 & Hrun' & Hl'); try done.
    by exists w1, l', w2.
  - intros Hdis Hen.
    rewrite (is_dir_child _ _ _ ch) in Hdis by done.
    destruct (ch !! (name +:+ DISABLED)) as [[|sub]|] eqn:Hname; try done.
    apply (path_exists_child_false _ _ _ ch) in Hen; try done.
    destruct (enable_run E cb name w ch sub Hsafe Hplain Hdir Hname Hen)
      as (w1 & Hrun & Hfs & _).
    destruct (scan_after_rename E w w1 ch (name +:+ DISABLED) name (Dir sub) l w0)
      as (l' & w2 & Hrun' & Hl'); try done.
    by exists w1, l', w2.
Qed.

Lemma scan_after_toggle_witness :
  ∃ w1 l' w2,
    disable_plugin sample_env "P" None (world_of fs_mixed) = (Ret true, w1)
    ∧ get_installed_plugins sample_env w1 = (Ret l', w2)
    ∧ ∀ e, e ∈ l' ↔
        (e ∈ mixed_records ∧ ip_path e ≠ joinpath plugins_dir "P")
        ∨ (reports plugins_dir "P.disabled" e
           ∧ ∃ e0, e0 ∈ mixed_records ∧ ip_path e0 = joinpath plugins_dir "P").
Proof.
  apply (proj1 (scan_after_toggle sample_env None "P" (world_of fs_mixed)
                  mixed_children mixed_records
                  (get_installed_plugins sample_env (world_of fs_mixed)).2
                  eq_refl eq_refl eq_refl eq_refl
                  ltac:(vm_compute; reflexivity))).
  - vm_compute. reflexivity.
  - vm_compute. reflexivity.
Defined.

(** ** The names the scan reports *)






(** ** The rows of the installed-plugins list *)

(** A record of the scan names its folder: the suffix the scan strips is
    the one the settings tab puts back. *)
Lemma reports_folder_name (pd : PurePath) (c : string) (e : InstalledPluginInfo) :
  reports pd c e → actual_folder_name_to_delete (ip_name e) (ip_status e) = c.
Proof. by intros [base ->|H]. Qed.

Lemma plugin_folder_is_dir (n : node) :
  is_plugin_folder n = true → ∃ sub, n = Dir sub.
Proof. destruct n; [done | eauto]. Qed.

(** X13: for every record the scan returns, the folder name the settings
    tab rebuilds from the record's name and status is the name of the
    scanned folder, and removing it succeeds: afterwards nothing exists
    at the record's path and the other entries of the plugin directory
    are as they were. *)
Theorem remove_listed_plugin (E : env) (cb : option callback) (w : world)
    (ch : gmap string node) (l : list InstalledPluginInfo) (w0 : world)
    (e : InstalledPluginInfo) :
  dotdot_free (p_parts (plugin_dir_path E)) = true →
  stat (w_fs w) (p_parts (plugin_dir_path E)) = inr (Dir ch) →
  (∀ c, is_Some (ch !! c) → safe_segment c = true) →
  get_installed_plugins E w = (Ret l, w0) → e ∈ l →
  joinpath (plugin_dir_path E)
    (actual_folder_name_to_delete (ip_name e) (ip_status e)) = ip_path e
  ∧ ∃ w', do_remove E (ip_name e) (ip_status e) cb w = (Ret true, w')
          ∧ path_exists (w_fs w') (p_parts (ip_path e)) = false
          ∧ untouched_outside (p_parts (plugin_dir_path E))
              [actual_folder_name_to_delete (ip_name e) (ip_status e)]
              (w_fs w) (w_fs w').
Proof.
  intros Hplain Hst Hkeys Hscan He.
  apply dotdot_free_spec in Hplain as Hplain'.
  apply stat_dir_plain in Hst as Hdir; [|done].
  destruct (scan_run E w ch Hst) as (l0 & w0' & Hrun0 & _ & Hl0 & _).
  { destruct (ch !! "..") eqn:Hdd; [|done].
    by specialize (Hkeys ".." ltac:(by rewrite Hdd)). }
  rewrite Hscan in Hrun0. injection Hrun0 as <- <-.
  apply Hl0 in He as (c & n & Hc & Hn & Hrep).
  rewrite (reports_folder_name _ _ _ Hrep), (reports_path _ _ _ Hrep).
  assert (Hsafe : safe_segment c = true) by (apply Hkeys; by rewrite Hc).
  split; [by apply joinpath_safe |].
  unfold do_remove. rewrite (reports_folder_name _ _ _ Hrep).
  apply plugin_folder_is_dir in Hn as [sub ->].
  destruct (remove_run E cb c w ch sub Hsafe Hplain' Hdir Hc)
    as (w' & Hrun & Hfs & _).
  exists w'. split; [done |]. cbn [p_parts].
  pose proof (lookup_dir_alter (delete c) _ _ _ Hdir) as Hdir'.
  rewrite <- Hfs in Hdir'.
  rewrite (path_exists_child_false _ _ _ _ Hplain' (safe_not_dotdot _ Hsafe) Hdir'),
    lookup_delete_eq.
  split; [done |].
  rewrite Hfs. apply dir_alter_untouched. intros ch0 y Hy.
  rewrite lookup_delete_ne; [done |]. intros <-. apply Hy. names.
Qed.

Lemma mixed_children_entries (c : string) :
  is_Some (mixed_children !! c) → safe_segment c = true.
Proof.
  intros [n Hn]. unfold mixed_children in Hn.
  repeat (apply lookup_insert_Some in Hn as [[<- _]|[_ Hn]]; [reflexivity |]).
  apply lookup_singleton_Some in Hn as [<- _]. reflexivity.
Qed.

Lemma remove_listed_plugin_witness :
  joinpath plugins_dir (actual_folder_name_to_delete "Q" "disabled")
  = mkPath "/" ["plugins"; "Q.disabled"]
  ∧ ∃ w', do_remove sample_env "Q" "disabled" None (world_of fs_mixed) = (Ret true, w')
          ∧ path_exists (w_fs w') ["plugins"; "Q.disabled"] = false
          ∧ untouched_outside ["plugins"] ["Q.disabled"] fs_mixed (w_fs w').
Proof.
  apply (remove_listed_plugin sample_env None (world_of fs_mixed) mixed_children
           mixed_records (get_installed_plugins sample_env (world_of fs_mixed)).2
           (mkInstalled "Q" "disabled" (mkPath "/" ["plugins"; "Q.disabled"]))).
  - reflexivity.
  - vm_compute. reflexivity.
  - exact mixed_children_entries.
  - vm_compute. reflexivity.
  - by left.
Defined.

Lemma reports_iff (pd : PurePath) (c : string) (e : InstalledPluginInfo) :
  reports pd c e
  ↔ e = mkInstalled
          (if endswith c DISABLED then str_chop (String.length DISABLED) c else c)
          (if endswith c DISABLED then "disabled" else "enabled")
          (mkPath (p_root pd) (p_parts pd ++ [c])).
Proof.
  split.
  - intros Hrep. exact (reports_functional _ _ _ _ Hrep (endswith_reports pd c)).
  - intros ->. apply endswith_reports.
Qed.

Lemma endswith_app_disabled (base : string) : endswith (base +:+ DISABLED) DISABLED = true.
Proof. apply endswith_spec. eauto. Qed.

(** Among the records of one scan, a record is told apart by its path. *)
Lemma listed_by_path (pd : PurePath) (ch : gmap string node)
    (l : list InstalledPluginInfo) (c : string) (e e' : InstalledPluginInfo) :
  (∀ e, e ∈ l ↔ ∃ c n, ch !! c = Some n ∧ is_plugin_folder n = true
                       ∧ reports pd c e) →
  reports pd c e → e' ∈ l →
  ip_path e' ≠ mkPath (p_root pd) (p_parts pd ++ [c]) ↔ e' ≠ e.
Proof.
  intros Hl Hrep (c' & n' & _ & _ & Hrep')%Hl. split.
  - intros Hp ->. apply Hp. by apply reports_path.
  - intros Hne Hp. apply Hne.
    rewrite (reports_path _ _ _ Hrep') in Hp. injection Hp as Hp.
    apply app_inv_head in Hp as [= ->]. by eapply reports_functional.
Qed.

(** X14: the Enable/Disable button on a listed plugin.  For a record of
    the scan whose name is a safe segment that does not itself end in the
    disabled suffix, and whose other folder does not exist, the toggle
    succeeds, and the next scan returns the same records except that this
    one now has the other status, the same name, and the path of the
    renamed folder. *)
Theorem toggle_listed_plugin (E : env) (cb : option callback) (w : world)
    (ch : gmap string node) (l : list InstalledPluginInfo) (w0 : world)
    (e : InstalledPluginInfo) :
  dotdot_free (p_parts (plugin_dir_path E)) = true →
  stat (w_fs w) (p_parts (plugin_dir_path E)) = inr (Dir ch) →
  (∀ c, is_Some (ch !! c) → safe_segment c = true) →
  get_installed_plugins E w = (Ret l, w0) → e ∈ l →
  safe_segment (ip_name e) = true →
  endswith (ip_name e) DISABLED = false →
  at_most_one (w_fs w) (plugin_dir_path E) (ip_name e) →
  ∃ w1 l' w2,
    do_toggle E (ip_name e) (ip_status e) cb w = (Ret true, w1)
    ∧ get_installed_plugins E w1 = (Ret l', w2)
    ∧ ∀ e', e' ∈ l' ↔
        (e' ∈ l ∧ e' ≠ e)
        ∨ e' = mkInstalled (ip_name e) (toggled (ip_status e))
                 (joinpath (plugin_dir_path E)
                    (actual_folder_name_to_delete (ip_name e)
                       (toggled (ip_status e)))).
Proof.
  intros Hplain%dotdot_free_spec Hst Hkeys Hscan He Hsafe Hends Hone.
  apply stat_dir_plain in Hst as Hdir; [|done].
  assert (Hdd : ch !! ".." = None).
  { destruct (ch !! "..") eqn:Hdd; [|done].
    by specialize (Hkeys ".." ltac:(by rewrite Hdd)). }
  destruct (scan_run E w ch Hst Hdd) as (l0 & w0' & Hrun0 & _ & Hl0 & _).
  rewrite Hscan in Hrun0. injection Hrun0 as <- <-.
  apply Hl0 in He as Hin. destruct Hin as (c & n & Hc & Hn & Hrep).
  apply plugin_folder_is_dir in Hn as Hsub. destruct Hsub as [sub ->].
  apply (at_most_one_lookup E _ Hsafe Hplain) in Hone.
  rewrite !(tree_lookup_snoc _ _ _ _ Hdir) in Hone.
  pose proof (safe_not_dotdot _ Hsafe) as Hnd.
  pose proof (disabled_not_dotdot _ Hsafe) as Hdn.
  pose proof (name_ne_disabled (ip_name e)) as Hne.
  destruct (install_names_facts _ Hsafe) as (_ & _ & Hsd & _).
  destruct Hrep as [base Hbase | Hnot]; cbn [ip_name ip_status] in *.
  - (* shown as disabled: the toggle enables *)
    subst c. unfold do_toggle, toggled, actual_folder_name_to_delete. simpl String.eqb.
    cbv iota.
    assert (Hen : ch !! base = None).
    { destruct (ch !! base) eqn:Hb; [|done]. destruct Hone. by rewrite Hc. }
    destruct (enable_run E cb base w ch sub Hsafe Hplain Hdir Hc Hen)
      as (w1 & Hrun & Hfs & _).
    destruct (scan_after_rename E w w1 ch (base +:+ DISABLED) base (Dir sub) l w0)
      as (l' & w2 & Hrun' & Hl'); try done.
    exists w1, l', w2. split; [done |]. split; [done |].
    intros e'. rewrite Hl', (joinpath_safe _ _ Hsafe), reports_iff, Hends.
    split.
    + intros [[H1 H2] | [-> _]]; [left | by right].
      split; [done |]. eapply listed_by_path; [exact Hl0 | | done | done].
      by apply reports_disabled.
    + intros [[H1 H2] | ->]; [left | right].
      * split; [done |]. eapply listed_by_path; [exact Hl0 | | done | done].
        by apply reports_disabled.
      * split; [done |]. eexists. split; [exact He | done].
  - (* shown as enabled: the toggle disables *)
    unfold do_toggle, toggled, actual_folder_name_to_delete. simpl String.eqb.
    cbv iota.
    assert (Hdis : ch !! (c +:+ DISABLED) = None).
    { destruct (ch !! (c +:+ DISABLED)) eqn:Hb; [|done]. destruct Hone.
      by rewrite Hc. }
    destruct (disable_run E cb c w ch sub Hsafe Hplain Hdir Hc Hdis)
      as (w1 & Hrun & Hfs & _).
    destruct (scan_after_rename E w w1 ch c (c +:+ DISABLED) (Dir sub) l w0)
      as (l' & w2 & Hrun' & Hl'); try done.
    exists w1, l', w2. split; [done |]. split; [done |].
    intros e'. change (c +:+ ".disabled") with (c +:+ DISABLED).
    rewrite Hl', (joinpath_safe _ _ Hsd), reports_iff, endswith_app_disabled,
      str_chop_app.
    split.
    + intros [[H1 H2] | [-> _]]; [left | by right].
      split; [done |]. eapply listed_by_path; [exact Hl0 | | done | done].
      by apply reports_enabled.
    + intros [[H1 H2] | ->]; [left | right].
      * split; [done |]. eapply listed_by_path; [exact Hl0 | | done | done].
        by apply reports_enabled.
      * split; [done |]. eexists. split; [exact He | done].
Qed.

Lemma toggle_listed_plugin_witness :
  ∃ w1 l' w2,
    do_toggle sample_env "P" "enabled" None (world_of fs_mixed) = (Ret true, w1)
    ∧ get_installed_plugins sample_env w1 = (Ret l', w2)
    ∧ ∀ e', e' ∈ l' ↔
        (e' ∈ mixed_records
         ∧ e' ≠ mkInstalled "P" "enabled" (mkPath "/" ["plugins"; "P"]))
        ∨ e' = mkInstalled "P" "disabled" (mkPath "/" ["plugins"; "P.disabled"]).
Proof.
  apply (toggle_listed_plugin sample_env None (world_of fs_mixed) mixed_children
           mixed_records (get_installed_plugins sample_env (world_of fs_mixed)).2
           (mkInstalled "P" "enabled" (mkPath "/" ["plugins"; "P"]))).
  - reflexivity.
  - vm_compute. reflexivity.
  - exact mixed_children_entries.
  - vm_compute. reflexivity.
  - right. by left.
  - reflexivity.
  - reflexivity.
  - intros [_ H]. by vm_compute in H.
Defined.

(** ** The download *)

Lemma set_fs_same (w : world) : set_fs (w_fs w) w = w.
Proof. by destruct w. Qed.

Lemma write_chunks_run (pd : list string) (x : string) (chunks : list string) :
  ".." ∉ pd → x ≠ ".." →
  ∀ w ch d,
    tree_lookup pd (w_fs w) = Some (Dir ch) → ch !! x = Some (File d) →
    for_each chunks (λ chunk, lift_fs (λ fs, file_write fs (pd ++ [x]) chunk)) w
    = (Ret tt,
       set_fs (dir_alter (<[x := File (d +:+ foldr String.append "" chunks)]>)
                 pd (w_fs w)) w).
Proof.
  intros Hpd Hx. induction chunks as [|c chunks IH]; intros w ch d Hdir Hd.
  - simpl. rewrite app_str_nil_r, dir_alter_id, set_fs_same; [done |].
    intros ch0 Hch0. rewrite Hdir in Hch0. injection Hch0 as <-.
    by apply insert_id.
  - cbn [for_each foldr]. unfold bind at 1, lift_fs at 1.
    rewrite (file_write_child pd x _ ch Hpd Hx Hdir d c Hd).
    pose proof (lookup_dir_alter (<[x := File (d +:+ c)]>) _ _ _ Hdir) as Hdir1.
    rewrite (IH (set_fs _ w) _ (d +:+ c) Hdir1) by by rewrite lookup_insert_eq.
    cbn [w_fs set_fs]. rewrite dir_alter_compose. f_equal. unfold set_fs. f_equal.
    apply dir_alter_ext. intros ch0 _. simpl.
    by rewrite insert_insert_eq, app_str_assoc.
Qed.

(** The download, when the target is an entry of an existing directory
    and not itself a directory: the file holds the body of the response,
    whether or not the stream broke after its last chunk. *)
Lemma download_to_run (pd : list string) (x : string) (r : Response) (w : world)
    (ch : gmap string node) :
  ".." ∉ pd → x ≠ ".." →
  tree_lookup pd (w_fs w) = Some (Dir ch) →
  (∀ sub, ch !! x ≠ Some (Dir sub)) →
  download_to r (pd ++ [x]) w
  = (match r_stream_error r with
     | Some msg => Raise (RequestException msg)
     | None => Ret tt
     end,
     set_fs (dir_alter (<[x := File (response_content r)]>) pd (w_fs w)) w).
Proof.
  intros Hpd Hx Hdir Hnd. unfold download_to.
  rewrite bind_run. unfold lift_fs at 1.
  rewrite (open_wb_child pd x _ ch Hpd Hx Hdir Hnd).
  pose proof (lookup_dir_alter (<[x := File ""]>) _ _ _ Hdir) as Hdir1.
  rewrite bind_run.
  rewrite (write_chunks_run pd x (r_chunks r) Hpd Hx (set_fs _ w) _ "" Hdir1)
    by by rewrite lookup_insert_eq.
  cbn [w_fs set_fs]. rewrite dir_alter_compose.
  assert (Hfs : dir_alter
                  ((<[x := File ("" +:+ foldr String.append "" (r_chunks r))]>)
                   ∘ (<[x := File ""]>)) pd (w_fs w)
                = dir_alter (<[x := File (response_content r)]>) pd (w_fs w)).
  { apply dir_alter_ext. intros ch0 _. simpl. by rewrite insert_insert_eq. }
  rewrite Hfs. by destruct (r_stream_error r).
Qed.

(** X15: the download writes the body of the response.  When the target
    is an entry of an existing directory and not itself a directory, the
    download creates or overwrites it with the chunks of the response
    one after the other, leaves every other entry of that directory
    alone, and raises only if the stream breaks. *)
Theorem download_to_writes_chunks (pd : list string) (x : string)
    (r : Response) (w : world) :
  dotdot_free pd = true → x ≠ ".." →
  is_dir (w_fs w) pd = true → is_dir (w_fs w) (pd ++ [x]) = false →
  ∃ w', download_to r (pd ++ [x]) w
        = (match r_stream_error r with
           | Some msg => Raise (RequestException msg)
           | None => Ret tt
           end, w')
        ∧ read_file (w_fs w') (pd ++ [x]) = inr (response_content r)
        ∧ untouched_outside pd [x] (w_fs w) (w_fs w').
Proof.
  intros Hpd%dotdot_free_spec Hx Hd Hnd.
  apply is_dir_plain in Hd as [ch Hdir]; [|done].
  rewrite (is_dir_child pd x _ ch Hpd Hx Hdir) in Hnd.
  rewrite (download_to_run pd x r w ch Hpd Hx Hdir)
    by (intros sub Hsub; by rewrite Hsub in Hnd).
  eexists. split; [done |]. cbn [w_fs set_fs].
  pose proof (lookup_dir_alter (<[x := File (response_content r)]>) _ _ _ Hdir)
    as Hdir1.
  rewrite (read_file_child pd x _ _ Hpd Hx Hdir1 (response_content r))
    by by rewrite lookup_insert_eq.
  split; [done |]. apply dir_alter_untouched. intros ch0 y Hy.
  rewrite lookup_insert_ne; [done |]. intros <-. apply Hy. names.
Qed.

Lemma download_to_writes_chunks_witness :
  ∃ w', download_to (mkResponse 200 None ["ab"; "cd"] None)
          (["plugins"] ++ ["P_temp.zip"]) (world_of fs_with_P)
        = (Ret tt, w')
        ∧ read_file (w_fs w') (["plugins"] ++ ["P_temp.zip"]) = inr "abcd"
        ∧ untouched_outside ["plugins"] ["P_temp.zip"] fs_with_P (w_fs w').
Proof.
  apply (download_to_writes_chunks ["plugins"] "P_temp.zip"
           (mkResponse 200 None ["ab"; "cd"] None) (world_of fs_with_P)).
  - reflexivity.
  - done.
  - vm_compute. reflexivity.
  - vm_compute. reflexivity.
Defined.

(** ** An install that fails before the extraction *)

Section failed_download.
Context (E : env) (plugin_info : PluginInfo) (cb : option callback).
Local Abbreviation pd := (p_parts (plugin_dir_path E)).
Local Abbreviation plugin_id := (pi_id plugin_info).
Local Abbreviation tmp := (pi_id plugin_info +:+ "_temp.zip").
Hypothesis Hsafe : safe_segment plugin_id = true.
Hypothesis Hplain : ".." ∉ pd.

Lemma install_finally_restores (fs0 : node) (w : world) :
  archive_state pd tmp fs0 (w_fs w) →
  ∃ w', install_finally (joinpath (plugin_dir_path E) tmp) w = (Ret tt, w')
        ∧ w_fs w' = fs0 ∧ w_calls w' = w_calls w ∧ w_log w' = w_log w.
Proof.
  destruct (install_names_facts _ Hsafe) as (Hsz & _).
  pose proof (safe_not_dotdot _ Hsz) as Hz.
  intros Hst. unfold install_finally. rewrite (joinpath_safe _ _ Hsz). cbn [p_parts].
  rewrite bind_run. unfold get_fs. cbv beta iota.
  destruct Hst as [[Hfs Hno] | (ch & d & Hdir & Hnone & Hfs)].
  - rewrite Hfs, Hno. by exists w.
  - pose proof (lookup_dir_alter (<[tmp := File d]>) _ _ _ Hdir) as Hdir1.
    rewrite <- Hfs in Hdir1.
    rewrite (path_exists_child _ _ _ _ Hplain Hz Hdir1), lookup_insert_eq.
    rewrite bool_decide_eq_true_2 by done.
    unfold lift_fs.
    rewrite (unlink_child _ _ _ _ Hplain Hz Hdir1 d) by by rewrite lookup_insert_eq.
    eexists. split; [done |]. cbn [w_fs w_calls w_log set_fs].
    split; [|done]. rewrite Hfs, dir_alter_compose. apply dir_alter_id.
    intros ch0 Hch0. rewrite Hdir in Hch0. injection Hch0 as <-. simpl.
    by apply delete_insert_id.
Qed.
Lemma install_handlers_fail (e : exn) (w0 w : world) :
  (∃ pre, w_calls w = w_calls w0 ++ pre) →
  (∃ pre, w_log w = w_log w0 ++ pre) →
  (cb = None → w_calls w = w_calls w0) →
  path_exists (w_fs w) (pd ++ [plugin_id]) = false →
  ∃ w', install_handlers E plugin_info cb e w = (Ret tt, w')
        ∧ w_fs w' = w_fs w ∧ error_reported cb w0 w'.
Proof.
  intros Hc Hl Hn Hno. unfold install_handlers. cbv zeta.
  rewrite (joinpath_safe _ _ Hsafe). cbn [p_parts].
  destruct e;
    step_status w1 Hrun1 Hfs1 H1;
    rewrite ?bind_run; unfold get_fs; cbv beta iota; rewrite ?Hfs1, ?Hno;
    exists w1; (split; [done |]); (split; [done |]);
    by eapply error_reported_step.
Qed.

(** An exception in the body of the install, in a state where the
    install directory does not exist, ends with the result false. *)
Lemma install_attempt_fails (e : exn) (fs0 : node) (w0 w wm : world) :
  install_body E plugin_info cb w = (Raise e, wm) →
  (∃ pre, w_calls wm = w_calls w0 ++ pre) →
  (∃ pre, w_log wm = w_log w0 ++ pre) →
  (cb = None → w_calls wm = w_calls w0) →
  path_exists (w_fs wm) (pd ++ [plugin_id]) = false →
  archive_state pd tmp fs0 (w_fs wm) →
  ∃ w', try_finally
          (try_except (install_body E plugin_info cb)
             (λ e, install_handlers E plugin_info cb e;; ret false))
          (install_finally (joinpath (plugin_dir_path E) tmp)) w
        = (Ret false, w')
        ∧ w_fs w' = fs0 ∧ error_reported cb w0 w'.
Proof.
  intros Hbody Hc Hl Hn Hno Hst. unfold try_finally, try_except.
  rewrite Hbody, bind_run.
  destruct (install_handlers_fail e w0 wm Hc Hl Hn Hno) as (w1 & -> & Hfs1 & Herr).
  unfold ret at 1.
  destruct (install_finally_restores fs0 w1)
    as (w2 & -> & Hfs2 & Hc2 & Hl2); [by rewrite Hfs1 |].
  exists w2. split; [done |]. split; [done |].
  unfold error_reported in *. rewrite Hc2, Hl2. exact Herr.
Qed.
Lemma open_wb_no_directory (fs : node) (x : string) :
  (∀ ch, tree_lookup pd fs ≠ Some (Dir ch)) →
  ∃ e, open_wb fs (pd ++ [x]) = inl e.
Proof.
  intros Hnd. unfold open_wb, locate.
  destruct (resolve fs [] (pd ++ [x])) as [e|q] eqn:Hr; [eauto |].
  apply resolve_snoc in Hr as (q0 & ch & Hq0 & Hch).
  apply (locate_plain fs pd q0 Hplain) in Hq0 as ->. by destruct (Hnd ch).
Qed.

(** The body of the install raises when the download fails, leaving at
    most the downloaded archive behind. *)
Lemma install_body_fails (w0 w : world) :
  (∃ pre, w_calls w = w_calls w0 ++ pre) →
  (∃ pre, w_log w = w_log w0 ++ pre) →
  (cb = None → w_calls w = w_calls w0) →
  path_exists (w_fs w) (pd ++ [plugin_id]) = false →
  path_exists (w_fs w) (pd ++ [tmp]) = false →
  download_fails E plugin_info →
  ∃ e wm, install_body E plugin_info cb w = (Raise e, wm)
          ∧ (∃ pre, w_calls wm = w_calls w0 ++ pre)
          ∧ (∃ pre, w_log wm = w_log w0 ++ pre)
          ∧ (cb = None → w_calls wm = w_calls w0)
          ∧ path_exists (w_fs wm) (pd ++ [plugin_id]) = false
          ∧ archive_state pd tmp (w_fs w) (w_fs wm).
Proof.
  intros Hc Hl Hn Hno Hnt Hfail.
  destruct (install_names_facts _ Hsafe) as (Hsz & _ & _ & _ & Hne1 & _).
  pose proof (safe_not_dotdot _ Hsz) as Hz.
  pose proof (safe_not_dotdot _ Hsafe) as Hi.
  unfold install_body. cbv zeta.
  rewrite (joinpath_safe _ _ Hsz). cbn [p_parts].
  step_status w1 Hrun1 Hfs1 H1.
  destruct (status_extends_from _ _ _ w0 _ _ Hc Hl Hn Hrun1) as (Hc1 & Hl1 & Hn1).
  rewrite bind_run. unfold requests_get, download_fails in *.
  destruct (http_get E (pi_downloadUrl plugin_info)) as [msg|r].
  { unfold raise at 1. eexists _, w1. split; [done |].
    rewrite Hfs1. repeat split; try done. by left. }
  unfold ret at 1. rewrite bind_run. unfold raise_for_status.
  destruct ((400 <=? status_code r)%Z && (status_code r <? 600)%Z) eqn:Hst.
  { unfold raise at 1. eexists _, w1. split; [done |].
    rewrite Hfs1. repeat split; try done. by left. }
  assert (Hst' : ¬ (400 ≤ status_code r < 600)%Z).
  { apply andb_false_iff in Hst as [H%Z.leb_gt | H%Z.ltb_ge]; lia. }
  destruct Hfail as [? | Hfail]; [done |].
  unfold ret at 1. rewrite bind_run.
  destruct (tree_lookup pd (w_fs w)) as [[d|ch]|] eqn:Hdir.
  1,3: unfold download_to; rewrite bind_run; unfold lift_fs at 1;
       destruct (open_wb_no_directory (w_fs w1) tmp) as [e He];
       [rewrite Hfs1; congruence |];
       rewrite He; eexists _, w1; (split; [done |]);
       rewrite Hfs1; repeat split; try done; by left.
  assert (Hnone : ch !! tmp = None)
    by by apply (path_exists_child_false pd tmp (w_fs w) ch).
  assert (Hstate : archive_state pd tmp (w_fs w)
                     (dir_alter (<[tmp := File (response_content r)]>) pd (w_fs w))).
  { right. by exists ch, (response_content r). }
  assert (Hno' : path_exists
                   (dir_alter (<[tmp := File (response_content r)]>) pd (w_fs w))
                   (pd ++ [plugin_id]) = false).
  { pose proof (lookup_dir_alter (<[tmp := File (response_content r)]>) _ _ _ Hdir)
      as Hdir'.
    rewrite (path_exists_child_false _ _ _ _ Hplain Hi Hdir').
    rewrite lookup_insert_ne by by apply not_eq_sym.
    by apply (path_exists_child_false pd plugin_id (w_fs w) ch). }
  rewrite <- Hfs1 in Hdir.
  rewrite (download_to_run pd tmp r w1 ch Hplain Hz Hdir) by by rewrite Hnone.
  rewrite Hfs1.
  destruct (r_stream_error r) as [msg|] eqn:Hse.
  { eexists _, _. split; [done |]. by cbn [w_fs w_calls w_log set_fs]. }
  destruct Hfail as [[? ?] | Hzip]; [done |].
  step_status w2 Hrun2 Hfs2 H2.
  destruct (status_extends_from _ _ _ w0 (set_fs _ w1) _ Hc1 Hl1 Hn1 Hrun2)
    as (Hc2 & Hl2 & Hn2).
  step_status w3 Hrun3 Hfs3 H3.
  destruct (status_extends_from _ _ _ w0 _ _ Hc2 Hl2 Hn2 Hrun3)
    as (Hc3 & Hl3 & Hn3).
  rewrite bind_run. unfold ZipFile. rewrite bind_run. unfold get_fs. cbv beta iota.
  rewrite Hfs3, Hfs2. cbn [w_fs set_fs].
  rewrite Hfs1 in Hdir.
  pose proof (lookup_dir_alter (<[tmp := File (response_content r)]>) _ _ _ Hdir)
    as Hdir'.
  rewrite (read_file_child pd tmp _ _ Hplain Hz Hdir' (response_content r))
    by by rewrite lookup_insert_eq.
  rewrite Hzip. unfold raise at 1.
  eexists _, w3. split; [done |]. rewrite Hfs3, Hfs2. by cbn [w_fs set_fs].
Qed.
End failed_download.

(** X16: an install that fails in its download phase (no response, a
    status from 400 to 599, a stream that breaks, or a body that is not a
    ZIP file) leaves no trace: when neither folder of the plugin nor the
    temporary archive existed before, the install returns false, the
    file system is exactly what it was, and the last status notification
    is an error. *)
Theorem install_failed_download_restores (E : env) (plugin_info : PluginInfo)
    (cb : option callback) (w : world) :
  safe_segment (pi_id plugin_info) = true →
  dotdot_free (p_parts (plugin_dir_path E)) = true →
  path_exists (w_fs w)
    (p_parts (joinpath (plugin_dir_path E) (pi_id plugin_info))) = false →
  path_exists (w_fs w)
    (p_parts (disabled_path_of (plugin_dir_path E) (pi_id plugin_info))) = false →
  path_exists (w_fs w)
    (p_parts (joinpath (plugin_dir_path E) (pi_id plugin_info +:+ "_temp.zip")))
  = false →
  download_fails E plugin_info →
  ∃ w', install_plugin E plugin_info cb w = (Ret false, w')
        ∧ w_fs w' = w_fs w
        ∧ error_reported cb w w'.
Proof.
  intros Hsafe Hplain%dotdot_free_spec Hni Hnd Hnt Hfail.
  destruct (install_names_facts _ Hsafe) as (Hsz & _).
  unfold install_plugin. cbv zeta.
  step_status w1 Hrun1 Hfs1 H1.
  destruct (status_update_extends _ _ _ _ _ Hrun1) as (Hc1 & Hl1 & Hn1).
  rewrite bind_run, (install_conflict_run _ _ _ Hsafe), Hfs1, Hni, Hnd.
  cbn [orb].
  rewrite (joinpath_safe _ _ Hsafe) in Hni. rewrite (joinpath_safe _ _ Hsz) in Hnt.
  cbn [p_parts] in Hni, Hnt.
  destruct (install_body_fails E plugin_info cb Hsafe Hplain w w1)
    as (e & wm & Hbody & Hcm & Hlm & Hnm & Hnom & Hst); try done; try congruence.
  rewrite Hfs1 in Hst.
  exact (install_attempt_fails E plugin_info cb Hsafe Hplain e (w_fs w) w w1 wm
           Hbody Hcm Hlm Hnm Hnom Hst).
Qed.

Lemma install_failed_download_restores_witness :
  ∃ w', install_plugin sample_env (plugin_P "not-a-zip") None (world_of fs_with_Q)
        = (Ret false, w')
        ∧ w_fs w' = w_fs (world_of fs_with_Q)
        ∧ error_reported None (world_of fs_with_Q) w'.
Proof.
  apply (install_failed_download_restores sample_env (plugin_P "not-a-zip") None
           (world_of fs_with_Q)).
  - reflexivity.
  - reflexivity.
  - vm_compute. reflexivity.
  - vm_compute. reflexivity.
  - vm_compute. reflexivity.
  - right. right. vm_compute. reflexivity.
Defined.

(** X17: an install works on three entries of the plugin directory only,
    the plugin's folder, [{id}_temp.zip] and [{id}_temp_extract]: every
    other entry, with everything below it, is the same after the install
    as before, whether the install succeeds or fails. *)
Theorem install_touches_only_its_entries (E : env) (plugin_info : PluginInfo)
    (cb : option callback) (w : world) :
  safe_segment (pi_id plugin_info) = true →
  dotdot_free (p_parts (plugin_dir_path E)) = true →
  untouched_outside (p_parts (plugin_dir_path E))
    (install_names (pi_id plugin_info))
    (w_fs w) (w_fs (install_plugin E plugin_info cb w).2).
Proof.
  intros Hsafe Hplain%dotdot_free_spec.
  exact (install_frame E plugin_info cb Hsafe Hplain w).
Qed.

Lemma install_touches_only_its_entries_witness :
  untouched_outside ["plugins"] ["P"; "P_temp.zip"; "P_temp_extract"]
    fs_with_Q
    (w_fs (install_plugin sample_env (plugin_P "bad-crc") None (world_of fs_with_Q)).2).
Proof.
  apply (install_touches_only_its_entries sample_env (plugin_P "bad-crc") None
           (world_of fs_with_Q)).
  - reflexivity.
  - reflexivity.
Defined.

(** ** Directories are not lost while an archive is extracted *)

#[export] Instance keeps_dir_preorder (p : list string) : PreOrder (keeps_dir p).
Proof.
  split; [intros fs H; exact H |].
  intros fs1 fs2 fs3 H1 H2 H. by apply H2, H1.
Qed.

Lemma lookup_below_file (a : string) (p : list string) (d : string) :
  tree_lookup (a :: p) (File d) = None.
Proof. done. Qed.

Lemma lookup_dir_head (a : string) (p : list string) (ch : gmap string node)
    (sub : gmap string node) :
  tree_lookup (a :: p) (Dir ch) = Some (Dir sub) →
  ∃ chm, ch !! a = Some (Dir chm).
Proof.
  rewrite tree_lookup_cons. destruct (ch !! a) as [[d|chm]|]; try done; [|eauto].
  by destruct p.
Qed.

(** A change at a place that is not a directory loses no directory. *)
Lemma tree_alter_keeps_dir (f : option node → option node) (q : list string) :
  ∀ p fs, not_a_dir q fs → keeps_dir p fs (tree_alter f q fs).
Proof.
  induction q as [|c r IH]; intros p fs Hq; [done |].
  destruct fs as [d|ch]; [by rewrite tree_alter_file |].
  intros [sub Hp]. destruct p as [|a p].
  - destruct r; simpl; [eauto |]. destruct (ch !! c); eauto.
  - destruct (lookup_dir_head _ _ _ _ Hp) as [chm Ha].
    destruct (decide (a = c)) as [->|Hne].
    + (* the change is below the same entry *)
      destruct r as [|c' r].
      * unfold not_a_dir in Hq. rewrite tree_lookup_cons, Ha in Hq. done.
      * rewrite tree_alter_cons_ne, Ha by done.
        rewrite tree_lookup_cons, Ha in Hp.
        rewrite tree_lookup_cons, lookup_insert_eq.
        apply (IH p (Dir chm)); [|eauto].
        unfold not_a_dir in *. by rewrite tree_lookup_cons, Ha in Hq.
    + (* the change is below another entry *)
      exists sub. rewrite <- Hp. destruct r as [|c' r].
      * rewrite tree_alter_cons1, !tree_lookup_cons, lookup_partial_alter_ne; done.
      * rewrite tree_alter_cons_ne by done. destruct (ch !! c) eqn:Hc; [|done].
        by rewrite !tree_lookup_cons, lookup_insert_ne.
Qed.

Lemma os_mkdir_keeps_dir (p q : list string) (fs fs' : node) :
  ".." ∉ q → os_mkdir fs q = inr fs' → keeps_dir p fs fs'.
Proof.
  intros Hq. unfold os_mkdir.
  destruct (locate fs q) as [|q'] eqn:Hl; [done |].
  apply locate_plain in Hl as ->; [|done].
  destruct (tree_lookup q fs) eqn:Hn; [done |]. intros [= <-].
  apply tree_alter_keeps_dir. unfold not_a_dir. by rewrite Hn.
Qed.

Lemma open_wb_keeps_dir (p q : list string) (fs fs' : node) :
  ".." ∉ q → open_wb fs q = inr fs' → keeps_dir p fs fs'.
Proof.
  intros Hq. unfold open_wb.
  destruct (locate fs q) as [|q'] eqn:Hl; [done |].
  apply locate_plain in Hl as ->; [|done].
  destruct (tree_lookup q fs) as [[d|ch]|] eqn:Hn; try done; intros [= <-];
    apply tree_alter_keeps_dir; unfold not_a_dir; by rewrite Hn.
Qed.

Lemma file_write_keeps_dir (p q : list string) (chunk : string) (fs fs' : node) :
  ".." ∉ q → file_write fs q chunk = inr fs' → keeps_dir p fs fs'.
Proof.
  intros Hq. unfold file_write.
  destruct (locate fs q) as [|q'] eqn:Hl; [done |].
  apply locate_plain in Hl as ->; [|done].
  destruct (tree_lookup q fs) as [[d|ch]|] eqn:Hn; try done; intros [= <-].
  apply tree_alter_keeps_dir. unfold not_a_dir. by rewrite Hn.
Qed.

Lemma makedirs_rev_keeps_dir (p : list string) (rp : list string) :
  ∀ fs fs', ".." ∉ rev rp → makedirs_rev rp fs = inr fs' → keeps_dir p fs fs'.
Proof.
  induction rp as [|a rp IH]; intros fs fs' Hp.
  - intros Hm. exact (os_mkdir_keeps_dir p [] fs fs' Hp Hm).
  - rewrite makedirs_rev_cons. assert (Hp' : ".." ∉ rev rp).
    { intros Hin. apply Hp. simpl. apply elem_of_app. by left. }
    destruct (path_exists fs (rev rp)).
    + intros Hm. exact (os_mkdir_keeps_dir p _ fs fs' Hp Hm).
    + destruct (makedirs_rev rp fs) as [e|fs1] eqn:Hrec.
      * destruct e; try done. intros Hm.
        exact (os_mkdir_keeps_dir p _ fs fs' Hp Hm).
      * intros Hm. etrans; [exact (IH fs fs1 Hp' Hrec) |].
        exact (os_mkdir_keeps_dir p _ fs1 fs' Hp Hm).
Qed.

Lemma makedirs_keeps_dir (p q : list string) (fs fs' : node) :
  ".." ∉ q → makedirs fs q = inr fs' → keeps_dir p fs fs'.
Proof.
  intros Hq. unfold makedirs. apply makedirs_rev_keeps_dir.
  by rewrite rev_involutive.
Qed.

Lemma extract_member_keeps_dir (p target : list string) (m : ZipInfo) :
  ".." ∉ target → fs_rel (keeps_dir p) (extract_member target m).
Proof.
  intros Hp. unfold extract_member. cbv zeta.
  set (arc := filter (λ x, valid_part x = true) (split sep (filename m))).
  assert (Hpt : ".." ∉ target ++ arc) by (apply plain_app; [done | apply arcname_plain]).
  assert (Hpu : ".." ∉ removelast (target ++ arc)) by by apply plain_removelast.
  rel; (apply fs_rel_lift_fs; [apply _ |]); intros fs1 fs2 Hrun.
  all: first [ exact (makedirs_keeps_dir p _ fs1 fs2 Hpu Hrun)
             | exact (os_mkdir_keeps_dir p _ fs1 fs2 Hpt Hrun)
             | exact (open_wb_keeps_dir p _ fs1 fs2 Hpt Hrun)
             | exact (file_write_keeps_dir p _ _ fs1 fs2 Hpt Hrun) ].
Qed.

Lemma extractall_keeps_dir (p target : list string) (members : list ZipInfo) :
  ".." ∉ target → fs_rel (keeps_dir p) (extractall members target).
Proof.
  intros Hp. unfold extractall. apply fs_rel_for_each; [apply _ |].
  intros m. by apply extract_member_keeps_dir.
Qed.

(** ** What a successful [mkdir] leaves *)

Lemma os_mkdir_is_dir (p : list string) (fs fs' : node) :
  ".." ∉ p → os_mkdir fs p = inr fs' → is_dir fs' p = true.
Proof.
  intros Hp. unfold os_mkdir.
  destruct (locate fs p) as [|q] eqn:Hl; [done |].
  destruct (tree_lookup q fs) eqn:Hn; [done |]. intros [= <-].
  apply locate_plain in Hl as Hq; [|done]. subst q.
  destruct (decide (p = [])) as [->|Hne]; [done |].
  destruct (exists_last Hne) as (p0 & c & ->).
  unfold locate in Hl. apply resolve_snoc in Hl as (q0 & ch & Hq0 & Hch).
  assert (Hp0 : ".." ∉ p0) by (intros H; apply Hp, elem_of_app; by left).
  apply (locate_plain fs p0 q0 Hp0) in Hq0 as ->.
  apply is_dir_plain; [done |]. exists ∅.
  by rewrite (tree_alter_new _ _ _ _ _ Hch).
Qed.

Lemma mkdir_once_is_dir (p : list string) (fs fs' : node) :
  ".." ∉ p → mkdir_once true fs p = inr fs' → is_dir fs' p = true.
Proof.
  intros Hp. unfold mkdir_once.
  destruct (os_mkdir fs p) as [e|fs1] eqn:Hm.
  - destruct e; try done; simpl;
      destruct (is_dir fs p) eqn:Hd; try done; by intros [= <-].
  - intros [= <-]. by eapply os_mkdir_is_dir.
Qed.

Lemma mkdir_parents_is_dir (p : list string) (fs fs' : node) :
  ".." ∉ p → mkdir_parents true fs p = inr fs' → is_dir fs' p = true.
Proof.
  intros Hp. unfold mkdir_parents.
  destruct (rev p) as [|a rp] eqn:Hrev.
  - apply (f_equal (@rev string)) in Hrev. rewrite rev_involutive in Hrev.
    subst p. simpl. destruct (is_dir fs []) eqn:Hd; [by intros [= <-] | done].
  - rewrite mkdir_parents_rev_cons, <- Hrev, rev_involutive.
    destruct (os_mkdir fs p) as [e|fs1] eqn:Hm.
    + destruct e;
        try (simpl; destruct (is_dir fs p) eqn:Hd; try done; by intros [= <-]).
      destruct (mkdir_parents_rev true rp fs) as [e1|fs1]; [done |].
      by apply mkdir_once_is_dir.
    + intros [= <-]. by eapply os_mkdir_is_dir.
Qed.

(** ** Moving the staged folder into place *)

Lemma dir_alter_app (h : gmap string node → gmap string node) (x : string)
    (pd : list string) :
  ∀ n, dir_alter h (pd ++ [x]) n
       = dir_alter (λ ch, match ch !! x with
                          | Some (Dir sub) => <[x := Dir (h sub)]> ch
                          | _ => ch
                          end) pd n.
Proof.
  induction pd as [|c pd IH]; intros [d|ch]; try done.
  - simpl. destruct (ch !! x) as [[d|sub]|] eqn:Hx; try done.
    by rewrite insert_id.
  - simpl. destruct (ch !! c) as [m|]; [by rewrite IH | done].
Qed.

(** [shutil.move] of the entry [x] of the staging directory [tx] to the
    entry [x] of the directory [pd] that holds [tx], when [pd] has no
    entry [x] yet. *)
Lemma shutil_move_staged (pd : list string) (tx x : string) (fs : node)
    (ch sub : gmap string node) :
  ".." ∉ pd → tx ≠ ".." → x ≠ ".." → x ≠ tx →
  tree_lookup pd fs = Some (Dir ch) →
  ch !! tx = Some (Dir sub) → ch !! x = None →
  shutil_move fs ((pd ++ [tx]) ++ [x]) (pd ++ [x])
  = match sub !! x with
    | Some ns => inr (dir_alter (λ ch, <[x := ns]> (<[tx := Dir (delete x sub)]> ch))
                        pd fs)
    | None => inl ENOENT
    end.
Proof.
  intros Hpd Htx Hx Hne Hdir Hsub Hnone.
  assert (Hptx : ".." ∉ pd ++ [tx]) by by apply plain_snoc.
  assert (Hdir' : tree_lookup (pd ++ [tx]) fs = Some (Dir sub))
    by by rewrite (tree_lookup_snoc _ _ _ _ Hdir).
  pose proof (locate_child (pd ++ [tx]) x fs sub Hptx Hx Hdir') as Hls.
  pose proof (locate_child pd x fs ch Hpd Hx Hdir) as Hld.
  pose proof (lookup_child (pd ++ [tx]) x fs sub Hdir') as Hks.
  pose proof (lookup_child pd x fs ch Hdir) as Hkd.
  assert (Hpre1 : is_prefix ((pd ++ [tx]) ++ [x]) (pd ++ [x]) = false).
  { rewrite <- app_assoc, is_prefix_app. simpl.
    apply String.eqb_neq in Hne. by rewrite String.eqb_sym, Hne. }
  assert (Hpre2 : is_prefix (pd ++ [x]) ((pd ++ [tx]) ++ [x]) = false).
  { rewrite <- app_assoc, is_prefix_app. simpl.
    apply String.eqb_neq in Hne. by rewrite Hne. }
  unfold shutil_move.
  rewrite (is_dir_child pd x fs ch Hpd Hx Hdir), Hnone, Hls, Hld. cbn [andb].
  unfold os_rename. rewrite Hls, Hld, Hks, Hkd, Hnone.
  rewrite (pinned_child (pd ++ [tx]) x Hx), (pinned_child pd x Hx).
  rewrite Hpre1, Hpre2. cbn [orb andb].
  destruct (sub !! x) as [ns|] eqn:Hns; cbv beta iota.
  - f_equal. rewrite !tree_alter_dir.
    rewrite (dir_alter_app (partial_alter (λ _, None) x) tx pd fs).
    rewrite dir_alter_compose.
    apply dir_alter_ext. intros ch0 Hch0. rewrite Hdir in Hch0.
    injection Hch0 as <-. simpl. by rewrite Hsub.
  - unfold stat. by rewrite Hls, Hks.
Qed.

(** ** A successful install *)

(** The extraction step of the install, when it goes through: the
    plugin's entry exists, and the staging directory is not left. *)
Lemma install_extraction_success (pd : PurePath) (plugin_id : string)
    (zip_ref : list ZipInfo) (w w' : world) :
  safe_segment plugin_id = true → ".." ∉ p_parts pd →
  tree_lookup (p_parts pd ++ [plugin_id]) (w_fs w) = None →
  (if single_wrapping_entry zip_ref plugin_id then
     let temp_extract_path := joinpath pd (plugin_id +:+ "_temp_extract") in
     lift_fs (λ fs, mkdir_parents true fs (p_parts temp_extract_path));;
     extractall zip_ref (p_parts temp_extract_path);;
     lift_fs (λ fs, shutil_move fs
                      (p_parts (joinpath temp_extract_path plugin_id))
                      (p_parts (joinpath pd plugin_id)));;
     lift_rmtree (p_parts temp_extract_path)
   else
     lift_fs (λ fs, mkdir_parents true fs (p_parts (joinpath pd plugin_id)));;
     extractall zip_ref (p_parts (joinpath pd plugin_id))) w = (Ret tt, w') →
  is_Some (tree_lookup (p_parts pd ++ [plugin_id]) (w_fs w'))
  ∧ (tree_lookup (p_parts pd ++ [plugin_id +:+ "_temp_extract"]) (w_fs w) = None →
     tree_lookup (p_parts pd ++ [plugin_id +:+ "_temp_extract"]) (w_fs w') = None).
Proof.
  intros Hsafe Hplain Hnone.
  destruct (install_names_facts _ Hsafe) as (_ & Hsx & _ & _ & _ & Hne & _).
  pose proof (safe_not_dotdot _ Hsafe) as Hi.
  pose proof (safe_not_dotdot _ Hsx) as Hx.
  set (tx := plugin_id +:+ "_temp_extract") in *.
  assert (Hpi : ".." ∉ p_parts pd ++ [plugin_id]) by by apply plain_snoc.
  assert (Hpx : ".." ∉ p_parts pd ++ [tx]) by by apply plain_snoc.
  cbv zeta. rewrite (joinpath_safe pd _ Hsx), (joinpath_safe pd _ Hsafe).
  rewrite (joinpath_safe _ _ Hsafe). cbn [p_parts].
  destruct (single_wrapping_entry zip_ref plugin_id).
  - (* staged *)
    rewrite bind_run. unfold lift_fs at 1.
    destruct (mkdir_parents true (w_fs w) (p_parts pd ++ [tx])) as [e|fs2] eqn:Hmk;
      [done |].
    pose proof (mkdir_parents_is_dir _ _ _ Hpx Hmk) as Hd2.
    pose proof (mkdir_parents_frame (p_parts pd) tx _ true _ _ Hpx
                  (under_near _ _ _ (ex_intro _ [] eq_refl)) Hmk) as Hf2.
    rewrite bind_run.
    pose proof (extractall_keeps_dir (p_parts pd ++ [tx]) (p_parts pd ++ [tx])
                  zip_ref Hpx (set_fs fs2 w)) as Hk3.
    pose proof (extractall_frame (p_parts pd) tx (p_parts pd ++ [tx]) zip_ref Hpx
                  (ex_intro _ [] eq_refl) (set_fs fs2 w)) as Hf3.
    destruct (extractall zip_ref (p_parts pd ++ [tx]) (set_fs fs2 w))
      as [[[]|e] w3] eqn:Hex; [|done].
    cbn [snd w_fs set_fs] in Hk3, Hf3.
    apply is_dir_plain in Hd2; [|done].
    destruct (Hk3 Hd2) as [sub3 Hsub3].
    apply child_inv in Hsub3 as (ch3 & Hdir3 & Htx3).
    assert (Hid3 : ch3 !! plugin_id = None).
    { rewrite <- (tree_lookup_snoc _ _ _ _ Hdir3).
      rewrite (Hf3 plugin_id []), (Hf2 plugin_id []), Hnone; [done | |];
        rewrite list_elem_of_singleton; done. }
    rewrite bind_run. unfold lift_fs at 1.
    rewrite (shutil_move_staged _ tx plugin_id _ ch3 sub3) by done.
    destruct (sub3 !! plugin_id) as [ns|] eqn:Hns; [|done].
    unfold lift_rmtree. cbn [w_fs set_fs].
    set (h := λ ch : gmap string node,
                <[plugin_id := ns]> (<[tx := Dir (delete plugin_id sub3)]> ch)).
    pose proof (lookup_dir_alter h _ _ _ Hdir3) as Hdir4.
    rewrite (rmtree_child _ tx _ _ Hplain Hx Hdir4 (delete plugin_id sub3)).
    2:{ unfold h. by rewrite lookup_insert_ne, lookup_insert_eq. }
    intros [= <-]. cbn [w_fs set_fs].
    pose proof (lookup_dir_alter (delete tx) _ _ _ Hdir4) as Hdir5.
    rewrite !(tree_lookup_snoc _ _ _ _ Hdir5), lookup_delete_eq.
    rewrite lookup_delete_ne by by apply not_eq_sym.
    unfold h. rewrite lookup_insert_eq. by split.
  - (* extracted in place *)
    rewrite bind_run. unfold lift_fs at 1.
    destruct (mkdir_parents true (w_fs w) (p_parts pd ++ [plugin_id]))
      as [e|fs2] eqn:Hmk; [done |].
    pose proof (mkdir_parents_is_dir _ _ _ Hpi Hmk) as Hd2.
    pose proof (mkdir_parents_frame (p_parts pd) plugin_id _ true _ _ Hpi
                  (under_near _ _ _ (ex_intro _ [] eq_refl)) Hmk) as Hf2.
    pose proof (extractall_keeps_dir (p_parts pd ++ [plugin_id])
                  (p_parts pd ++ [plugin_id]) zip_ref Hpi (set_fs fs2 w)) as Hk3.
    pose proof (extractall_frame (p_parts pd) plugin_id (p_parts pd ++ [plugin_id])
                  zip_ref Hpi (ex_intro _ [] eq_refl) (set_fs fs2 w)) as Hf3.
    intros Hex. rewrite Hex in Hk3, Hf3. cbn [snd w_fs set_fs] in Hk3, Hf3.
    apply is_dir_plain in Hd2; [|done].
    destruct (Hk3 Hd2) as [sub3 Hsub3]. rewrite Hsub3. split; [done |].
    intros Hnx. rewrite (Hf3 tx []), (Hf2 tx []), Hnx; [done | |];
      rewrite list_elem_of_singleton; by apply not_eq_sym.
Qed.

Lemma ZipFile_world (E : env) (p : list string) (w : world)
    (r : outcome (list ZipInfo)) (w' : world) :
  ZipFile E p w = (r, w') → w' = w.
Proof.
  unfold ZipFile. rewrite bind_run. unfold get_fs. cbv beta iota.
  destruct (read_file (w_fs w) p) as [e|data]; [by intros [= _ <-] |].
  destruct (unzip E data); by intros [= _ <-].
Qed.

(** The [finally] clause, when it goes through: the archive is gone and
    nothing else has changed. *)
Lemma install_finally_post (pd : PurePath) (name : string) (w w' : world) :
  safe_segment name = true → ".." ∉ p_parts pd →
  install_finally (joinpath pd name) w = (Ret tt, w') →
  tree_lookup (p_parts pd ++ [name]) (w_fs w') = None
  ∧ untouched_outside (p_parts pd) [name] (w_fs w) (w_fs w').
Proof.
  intros Hsafe Hplain. pose proof (safe_not_dotdot _ Hsafe) as Hn.
  assert (Hp : ".." ∉ p_parts pd ++ [name]) by by apply plain_snoc.
  unfold install_finally. rewrite (joinpath_safe _ _ Hsafe). cbn [p_parts].
  rewrite bind_run. unfold get_fs. cbv beta iota.
  destruct (path_exists (w_fs w) (p_parts pd ++ [name])) eqn:Hex.
  - unfold lift_fs.
    destruct (unlink (w_fs w) (p_parts pd ++ [name])) as [e|fs'] eqn:Hu; [done |].
    intros [= <-]. cbn [w_fs set_fs]. split.
    + revert Hu. unfold unlink.
      destruct (locate (w_fs w) (p_parts pd ++ [name])) as [|q] eqn:Hq; [done |].
      apply locate_plain in Hq as ->; [|done].
      destruct (tree_lookup (p_parts pd ++ [name]) (w_fs w)) as [[d|ch]|] eqn:Hl;
        try done.
      intros [= <-]. rewrite tree_alter_self; [done | by destruct (p_parts pd) |].
      by rewrite Hl.
    + exact (unlink_frame _ _ _ _ _ Hp (ex_intro _ [] eq_refl) Hu).
  - intros [= <-]. split; [by apply path_exists_plain_false | apply untouched_refl].
Qed.

(** X18: when an install returns true, the plugin's entry exists in the
    plugin directory, the downloaded archive [{id}_temp.zip] is gone, and
    no staging directory [{id}_temp_extract] is left that was not there
    before. *)
Theorem install_success_installs (E : env) (plugin_info : PluginInfo)
    (cb : option callback) (w w' : world) :
  safe_segment (pi_id plugin_info) = true →
  dotdot_free (p_parts (plugin_dir_path E)) = true →
  install_plugin E plugin_info cb w = (Ret true, w') →
  path_exists (w_fs w')
    (p_parts (joinpath (plugin_dir_path E) (pi_id plugin_info))) = true
  ∧ path_exists (w_fs w')
      (p_parts (joinpath (plugin_dir_path E) (pi_id plugin_info +:+ "_temp.zip")))
    = false
  ∧ (path_exists (w_fs w)
       (p_parts (joinpath (plugin_dir_path E)
                   (pi_id plugin_info +:+ "_temp_extract"))) = false →
     path_exists (w_fs w')
       (p_parts (joinpath (plugin_dir_path E)
                   (pi_id plugin_info +:+ "_temp_extract"))) = false).
Proof.
  intros Hsafe Hplain%dotdot_free_spec.
  destruct (install_names_facts _ Hsafe)
    as (Hsz & Hsx & _ & _ & Hne1 & Hne2 & Hne3).
  pose proof (safe_not_dotdot _ Hsafe) as Hi.
  pose proof (safe_not_dotdot _ Hsz) as Hz.
  pose proof (safe_not_dotdot _ Hsx) as Hx.
  set (P := p_parts (plugin_dir_path E)) in *.
  assert (Hpi : ".." ∉ P ++ [pi_id plugin_info]) by by apply plain_snoc.
  assert (Hpz : ".." ∉ P ++ [pi_id plugin_info +:+ "_temp.zip"]) by by apply plain_snoc.
  assert (Hpx : ".." ∉ P ++ [pi_id plugin_info +:+ "_temp_extract"])
    by by apply plain_snoc.
  rewrite (joinpath_safe _ _ Hsafe), (joinpath_safe _ _ Hsz), (joinpath_safe _ _ Hsx).
  cbn [p_parts]. fold P.
  rewrite path_exists_plain, !path_exists_plain_false by done.
  unfold install_plugin. cbv zeta.
  step_status w1 Hrun1 Hfs1 H1.
  rewrite bind_run, (install_conflict_run _ _ _ Hsafe), Hfs1.
  destruct (path_exists (w_fs w) _ || path_exists (w_fs w) _) eqn:Hconf.
  { step_status w2 Hrun2 Hfs2 H2. done. }
  apply orb_false_iff in Hconf as [Hno _].
  rewrite (joinpath_safe _ _ Hsafe) in Hno. cbn [p_parts] in Hno. fold P in Hno.
  apply path_exists_plain_false in Hno; [|done].
  unfold try_finally, try_except.
  destruct (install_body E plugin_info cb w1) as [[b|e] wb] eqn:Hbody.
  2:{ rewrite bind_run.
      destruct (install_handlers_return E plugin_info cb e wb) as [wh ->].
      unfold ret at 1.
      by destruct (install_finally _ wh) as [[[]|e'] wf]. }
  destruct (install_finally _ wb) as [[[]|e'] wf] eqn:Hfin; [|done].
  intros [= -> <-].
  destruct (install_finally_post _ _ _ _ Hsz Hplain Hfin) as [Hgone Hff].
  fold P in Hgone, Hff.
  (* the body returned: follow it *)
  revert Hbody. unfold install_body. cbv zeta.
  rewrite (joinpath_safe (plugin_dir_path E) _ Hsz). cbn [p_parts]. fold P.
  step_status w2 Hrun2 Hfs2 H2.
  rewrite bind_run. unfold requests_get.
  destruct (http_get E (pi_downloadUrl plugin_info)) as [msg|r]; [done |].
  unfold ret at 1. rewrite bind_run. unfold raise_for_status.
  destruct ((400 <=? status_code r)%Z && (status_code r <? 600)%Z); [done |].
  unfold ret at 1. rewrite bind_run.
  pose proof (download_to_frame P _ _ r Hpz (ex_intro _ [] eq_refl) w2) as Hf3.
  destruct (download_to r _ w2) as [[[]|e] w3] eqn:Hdl; [|done].
  cbn [snd] in Hf3.
  step_status w4 Hrun4 Hfs4 H4. step_status w5 Hrun5 Hfs5 H5.
  rewrite bind_run.
  destruct (ZipFile E _ w5) as [[members|e] w6] eqn:Hzip; [|done].
  apply ZipFile_world in Hzip as ->.
  rewrite bind_run.
  match goal with
  | |- context [(if single_wrapping_entry members ?i then ?a else ?c) w5] =>
      destruct ((if single_wrapping_entry members i then a else c) w5)
        as [[[]|e] w7] eqn:Hbr; [|done]
  end.
  assert (Hfs_to5 : ∀ y, y ≠ pi_id plugin_info +:+ "_temp.zip" →
            tree_lookup (P ++ [y]) (w_fs w5) = tree_lookup (P ++ [y]) (w_fs w)).
  { intros y Hy. rewrite Hfs5, Hfs4, (Hf3 y []), Hfs2, Hfs1; [done |].
    by rewrite list_elem_of_singleton. }
  apply install_extraction_success in Hbr as [Hin Hstage]; [| done | done |].
  2:{ fold P. by rewrite Hfs_to5. }
  fold P in Hin, Hstage.
  step_status w8 Hrun8 Hfs8 H8. step_status w9 Hrun9 Hfs9 H9.
  intros [= <-].
  assert (Hfs_wb : w_fs w9 = w_fs w7) by congruence.
  rewrite Hfs_wb in Hff.
  split; [|split; [done |]].
  - rewrite (Hff (pi_id plugin_info) []); [done |].
    by rewrite list_elem_of_singleton.
  - intros Hnx. rewrite (Hff _ []) by (rewrite list_elem_of_singleton; by apply not_eq_sym).
    apply Hstage. rewrite Hfs_to5; [done | by apply not_eq_sym].
Qed.

Lemma install_success_installs_witness :
  let w' := (install_plugin sample_env (plugin_P "wrapped") None
               (world_of fs_empty)).2 in
  path_exists (w_fs w') ["plugins"; "P"] = true
  ∧ path_exists (w_fs w') ["plugins"; "P_temp.zip"] = false
  ∧ (path_exists fs_empty ["plugins"; "P_temp_extract"] = false →
     path_exists (w_fs w') ["plugins"; "P_temp_extract"] = false).
Proof.
  apply (install_success_installs sample_env (plugin_P "wrapped") None
           (world_of fs_empty)
           (install_plugin sample_env (plugin_P "wrapped") None
              (world_of fs_empty)).2).
  - reflexivity.
  - reflexivity.
  - vm_compute. reflexivity.
Defined.

(** ** The scan after a removal *)

(** X19: the scan after a successful removal of a folder returns the
    records it returned before, without the record of that folder. *)
Theorem scan_after_remove (E : env) (cb : option callback) (folder : string)
    (w : world) (ch : gmap string node) (l : list InstalledPluginInfo)
    (w0 : world) :
  safe_segment folder = true →
  dotdot_free (p_parts (plugin_dir_path E)) = true →
  stat (w_fs w) (p_parts (plugin_dir_path E)) = inr (Dir ch) →
  ch !! ".." = None →
  get_installed_plugins E w = (Ret l, w0) →
  is_dir (w_fs w) (p_parts (joinpath (plugin_dir_path E) folder)) = true →
  ∃ w1 l' w2,
    remove_plugin E folder cb w = (Ret true, w1)
    ∧ get_installed_plugins E w1 = (Ret l', w2)
    ∧ ∀ e, e ∈ l' ↔ e ∈ l ∧ ip_path e ≠ joinpath (plugin_dir_path E) folder.
Proof.
  intros Hsafe Hplain%dotdot_free_spec Hst Hdd Hscan.
  apply stat_dir_plain in Hst as Hdir; [|done].
  rewrite (joinpath_safe _ _ Hsafe). cbn [p_parts].
  pose proof (safe_not_dotdot _ Hsafe) as Hn.
  rewrite (is_dir_child _ _ _ ch) by done.
  destruct (ch !! folder) as [[|sub]|] eqn:Hf; try done. intros _.
  destruct (remove_run E cb folder w ch sub Hsafe Hplain Hdir Hf)
    as (w1 & Hrun & Hfs & _).
  destruct (scan_run E w ch Hst Hdd) as (l0 & w0' & Hrun0 & _ & Hl0 & _).
  rewrite Hscan in Hrun0. injection Hrun0 as <- <-.
  pose proof (lookup_dir_alter (delete folder) _ _ _ Hdir) as Hdir1.
  rewrite <- Hfs in Hdir1.
  destruct (scan_run E w1 (delete folder ch)) as (l' & w2 & Hrun1 & _ & Hl' & _).
  { by apply stat_dir_plain. }
  { destruct (decide (folder = "..")) as [->|Hx'];
      [by rewrite lookup_delete_eq | by rewrite lookup_delete_ne]. }
  exists w1, l', w2. split; [done |]. split; [done |].
  intros e. rewrite Hl', Hl0. split.
  - intros (c & n & Hc & Hn' & Hrep).
    destruct (decide (c = folder)) as [->|Hne]; [by rewrite lookup_delete_eq in Hc |].
    rewrite lookup_delete_ne in Hc by done. split; [eauto |].
    rewrite (reports_path _ _ _ Hrep). intros [= H].
    by apply app_inv_head in H as [= ->].
  - intros [(c & n & Hc & Hn' & Hrep) Hp].
    assert (Hne : c ≠ folder).
    { intros ->. apply Hp. by rewrite (reports_path _ _ _ Hrep). }
    exists c, n. by rewrite lookup_delete_ne.
Qed.

Lemma scan_after_remove_witness :
  ∃ w1 l' w2,
    remove_plugin sample_env "P" None (world_of fs_mixed) = (Ret true, w1)
    ∧ get_installed_plugins sample_env w1 = (Ret l', w2)
    ∧ ∀ e, e ∈ l' ↔ e ∈ mixed_records ∧ ip_path e ≠ joinpath plugins_dir "P".
Proof.
  apply (scan_after_remove sample_env None "P" (world_of fs_mixed) mixed_children
           mixed_records (get_installed_plugins sample_env (world_of fs_mixed)).2).
  - reflexivity.
  - reflexivity.
  - vm_compute. reflexivity.
  - reflexivity.
  - vm_compute. reflexivity.
  - vm_compute. reflexivity.
Defined.

(** ** No exception escapes remove, enable and disable *)


(** ** The conflict check never raises *)



